(** * The structured completion client of pec-course-monitor

    A shallow embedding of [src/llm_clients/customOpenAI_client.ts]
    (class [CustomOpenAIClient], method [createChatCompletion], and the
    helper [validateZodSchema]) together with the two runtime services
    the method relies on: [JSON.parse] and [Buffer.toString('base64')].

    Layout: the data model and the operations come first, the properties
    after them. *)

From Stdlib Require Import List String Ascii Bool Arith ZArith NArith Lia.
From Stdlib.Strings Require Import Byte.
Import ListNotations.

Set Warnings "-register-all".

Local Open Scope string_scope.
Local Open Scope list_scope.
Local Open Scope nat_scope.

(* ===================================================================== *)
(** ** JSON values and [JSON.parse] *)
(* ===================================================================== *)

(** What [JSON.parse] returns.  A number keeps the text of its literal
    (it stands for the double nearest to it); an object keeps its members
    in the order of the text, a repeated key being read at its last
    binding, see [member]. *)
Inductive JsonValue : Type :=
| JNull
| JBool (b : bool)
| JNumber (literal : string)
| JString (s : string)
| JArray (items : list JsonValue)
| JObject (members : list (string * JsonValue)).

(** Property read [v.key] on the members of an object: the last binding
    of the key wins. *)
Fixpoint member (key : string) (members : list (string * JsonValue))
  : option JsonValue :=
  match members with
  | [] => None
  | (k, v) :: rest =>
      match member key rest with
      | Some later => Some later
      | None => if String.eqb k key then Some v else None
      end
  end.

(** Outcome of a parsing function: a value and the text left, a syntax
    error, or the recursion budget used up (which [JSON_parse] never
    lets happen, see [value_budget]). *)
Inductive Parsed (A : Type) : Type :=
| Done (a : A) (rest : list ascii)
| Unexpected
| Exhausted.
Arguments Done {A} a rest.
Arguments Unexpected {A}.
Arguments Exhausted {A}.

Module Lexer.

Definition is_ws (c : ascii) : bool :=
  (c =? " ")%char || (c =? "009")%char || (c =? "010")%char
  || (c =? "013")%char.

Fixpoint skip_ws (l : list ascii) : list ascii :=
  match l with
  | c :: rest => if is_ws c then skip_ws rest else l
  | [] => []
  end.

Definition is_digit (c : ascii) : bool :=
  let n := nat_of_ascii c in (48 <=? n) && (n <=? 57).

(** The longest run of digits at the head of the text. *)
Fixpoint digits (l : list ascii) : list ascii * list ascii :=
  match l with
  | c :: rest =>
      if is_digit c
      then let (ds, r) := digits rest in (c :: ds, r)
      else ([], l)
  | [] => ([], [])
  end.

Fixpoint strip_prefix (p l : list ascii) : option (list ascii) :=
  match p, l with
  | [], _ => Some l
  | a :: p', b :: l' => if (a =? b)%char then strip_prefix p' l' else None
  | _ :: _, [] => None
  end.

Definition hex_digit (c : ascii) : option N :=
  let n := N_of_ascii c in
  if ((48 <=? n) && (n <=? 57))%N then Some (n - 48)%N
  else if ((65 <=? n) && (n <=? 70))%N then Some (n - 55)%N
  else if ((97 <=? n) && (n <=? 102))%N then Some (n - 87)%N
  else None.

Definition hex4 (a b c d : ascii) : option N :=
  match hex_digit a, hex_digit b, hex_digit c, hex_digit d with
  | Some x, Some y, Some z, Some w =>
      Some (x * 4096 + y * 256 + z * 16 + w)%N
  | _, _, _, _ => None
  end.

(** A UTF-16 code unit written as bytes: itself below 128, else its
    two- or three-byte UTF-8 form. *)
Definition code_unit (n : N) : list ascii :=
  if (n <? 128)%N then [ascii_of_N n]
  else if (n <? 2048)%N then
    [ascii_of_N (192 + n / 64); ascii_of_N (128 + n mod 64)]
  else
    [ascii_of_N (224 + n / 4096); ascii_of_N (128 + (n / 64) mod 64);
     ascii_of_N (128 + n mod 64)].

Definition escape (e : ascii) : option ascii :=
  if (e =? "034")%char then Some "034"%char
  else if (e =? "\")%char then Some "\"%char
  else if (e =? "/")%char then Some "/"%char
  else if (e =? "b")%char then Some "008"%char
  else if (e =? "f")%char then Some "012"%char
  else if (e =? "n")%char then Some "010"%char
  else if (e =? "r")%char then Some "013"%char
  else if (e =? "t")%char then Some "009"%char
  else None.

(** The characters of a string literal after its opening quote, up to
    and including the closing quote. *)
Fixpoint string_body (l : list ascii) : option (list ascii * list ascii) :=
  match l with
  | [] => None
  | c :: rest =>
      if (c =? "034")%char then Some ([], rest)
      else if (c =? "\")%char then
        match rest with
        | [] => None
        | e :: rest1 =>
            if (e =? "u")%char then
              match rest1 with
              | h1 :: h2 :: h3 :: h4 :: rest2 =>
                  match hex4 h1 h2 h3 h4, string_body rest2 with
                  | Some n, Some (s, r) => Some (code_unit n ++ s, r)
                  | _, _ => None
                  end
              | _ => None
              end
            else
              match escape e, string_body rest1 with
              | Some x, Some (s, r) => Some (x :: s, r)
              | _, _ => None
              end
        end
      else if (nat_of_ascii c <? 32) then None
      else
        match string_body rest with
        | Some (s, r) => Some (c :: s, r)
        | None => None
        end
  end.

(** A number literal: an optional minus sign; a zero, or a non-zero
    digit and further digits; optionally a point and one or more
    digits; optionally e or E, a sign and one or more digits. *)
Definition number (l : list ascii) : option (list ascii * list ascii) :=
  let (sign, l1) :=
    match l with
    | c :: r => if (c =? "-")%char then ([c], r) else ([], l)
    | [] => ([], l)
    end in
  match l1 with
  | [] => None
  | d :: r1 =>
      if negb (is_digit d) then None
      else
        let (int, r2) :=
          if (d =? "0")%char then ([d], r1)
          else let (ds, r) := digits r1 in (d :: ds, r) in
        let frac :=
          match r2 with
          | c :: r3 =>
              if (c =? ".")%char then
                match digits r3 with
                | ([], _) => None
                | (ds, r4) => Some (c :: ds, r4)
                end
              else Some ([], r2)
          | [] => Some ([], r2)
          end in
        match frac with
        | None => None
        | Some (fr, r5) =>
            let exp :=
              match r5 with
              | c :: r6 =>
                  if ((c =? "e") || (c =? "E"))%char then
                    let (sg, r7) :=
                      match r6 with
                      | s :: r =>
                          if ((s =? "+") || (s =? "-"))%char
                          then ([s], r) else ([], r6)
                      | [] => ([], r6)
                      end in
                    match digits r7 with
                    | ([], _) => None
                    | (ds, r8) => Some (c :: sg ++ ds, r8)
                    end
                  else Some ([], r5)
              | [] => Some ([], r5)
              end in
            match exp with
            | None => None
            | Some (ex, r9) => Some (sign ++ int ++ fr ++ ex, r9)
            end
        end
  end.

End Lexer.

Module Parser.
Import Lexer.

(** Recursive descent over the text, the budget bounding the number of
    nested calls. *)
Fixpoint value (budget : nat) (l : list ascii) {struct budget}
  : Parsed JsonValue :=
  match budget with
  | O => Exhausted
  | S budget' =>
      match skip_ws l with
      | [] => Unexpected
      | c :: rest =>
          if (c =? "{")%char then
            match skip_ws rest with
            | [] => Unexpected
            | c' :: rest' =>
                if (c' =? "}")%char then Done (JObject []) rest'
                else members budget' [] (c' :: rest')
            end
          else if (c =? "[")%char then
            match skip_ws rest with
            | [] => Unexpected
            | c' :: rest' =>
                if (c' =? "]")%char then Done (JArray []) rest'
                else elements budget' [] (c' :: rest')
            end
          else if (c =? "034")%char then
            match string_body rest with
            | Some (s, r) => Done (JString (string_of_list_ascii s)) r
            | None => Unexpected
            end
          else if (c =? "t")%char then
            match strip_prefix (list_ascii_of_string "rue") rest with
            | Some r => Done (JBool true) r
            | None => Unexpected
            end
          else if (c =? "f")%char then
            match strip_prefix (list_ascii_of_string "alse") rest with
            | Some r => Done (JBool false) r
            | None => Unexpected
            end
          else if (c =? "n")%char then
            match strip_prefix (list_ascii_of_string "ull") rest with
            | Some r => Done JNull r
            | None => Unexpected
            end
          else
            match number (c :: rest) with
            | Some (lit, r) => Done (JNumber (string_of_list_ascii lit)) r
            | None => Unexpected
            end
      end
  end

with elements (budget : nat) (acc : list JsonValue) (l : list ascii)
       {struct budget} : Parsed JsonValue :=
  match budget with
  | O => Exhausted
  | S budget' =>
      match value budget' l with
      | Done v r =>
          match skip_ws r with
          | [] => Unexpected
          | c :: r' =>
              if (c =? ",")%char then elements budget' (v :: acc) r'
              else if (c =? "]")%char then Done (JArray (rev (v :: acc))) r'
              else Unexpected
          end
      | Unexpected => Unexpected
      | Exhausted => Exhausted
      end
  end

with members (budget : nat) (acc : list (string * JsonValue))
       (l : list ascii) {struct budget} : Parsed JsonValue :=
  match budget with
  | O => Exhausted
  | S budget' =>
      match skip_ws l with
      | [] => Unexpected
      | q :: r =>
          if negb (q =? "034")%char then Unexpected
          else
            match string_body r with
            | None => Unexpected
            | Some (k, r1) =>
                match skip_ws r1 with
                | [] => Unexpected
                | c :: r2 =>
                    if negb (c =? ":")%char then Unexpected
                    else
                      match value budget' r2 with
                      | Done v r3 =>
                          let acc' := (string_of_list_ascii k, v) :: acc in
                          match skip_ws r3 with
                          | [] => Unexpected
                          | d :: r4 =>
                              if (d =? ",")%char then members budget' acc' r4
                              else if (d =? "}")%char
                              then Done (JObject (rev acc')) r4
                              else Unexpected
                          end
                      | Unexpected => Unexpected
                      | Exhausted => Exhausted
                      end
                end
            end
      end
  end.

End Parser.

(** [JSON.parse(text)]: [Some] value, or [None] where the runtime throws a
    [SyntaxError].  The whole text must be one value between optional
    white space. *)
Definition JSON_parse (text : string) : option JsonValue :=
  let l := list_ascii_of_string text in
  match Parser.value (2 * List.length l + 1) l with
  | Done v rest =>
      match Lexer.skip_ws rest with
      | [] => Some v
      | _ :: _ => None
      end
  | Unexpected => None
  | Exhausted => None
  end.

(* ===================================================================== *)
(** ** [Buffer.toString('base64')] *)
(* ===================================================================== *)

Module Base64.

Definition alphabet : string :=
  "ABCDEFGHIJKLMNOPQRSTUVWXYZabcdefghijklmnopqrstuvwxyz0123456789+/".

(** The character of a six-bit group. *)
Definition sextet (n : N) : ascii :=
  match String.get (N.to_nat (n mod 64)%N) alphabet with
  | Some c => c
  | None => "="%char
  end.

(** Three bytes give four characters; a last group of one or two bytes
    is padded with [=]. *)
Fixpoint chars (bytes : list byte) : list ascii :=
  match bytes with
  | [] => []
  | [a] =>
      let n := (Byte.to_N a * 65536)%N in
      [sextet (n / 262144); sextet (n / 4096); "="%char; "="%char]
  | [a; b] =>
      let n := (Byte.to_N a * 65536 + Byte.to_N b * 256)%N in
      [sextet (n / 262144); sextet (n / 4096); sextet (n / 64); "="%char]
  | a :: b :: c :: rest =>
      let n := (Byte.to_N a * 65536 + Byte.to_N b * 256 + Byte.to_N c)%N in
      sextet (n / 262144) :: sextet (n / 4096) :: sextet (n / 64)
        :: sextet n :: chars rest
  end.

Definition encode (bytes : list byte) : string :=
  string_of_list_ascii (chars bytes).

End Base64.

(* ===================================================================== *)
(** ** Messages and the message normalizer (lines 104-218) *)
(* ===================================================================== *)

Inductive Role : Type := system | user | assistant.

Record ImageUrl : Type := { url : string }.

(** One element of an array content, as the classification reads it: its
    [type] tag, its [image_url] field ([None]: absent or otherwise falsy)
    and its [text] field ([None]: absent).  The parts the normalizer
    builds are records of the same kind. *)
Record ContentPart : Type :=
  { type : string;
    image_url : option ImageUrl;
    text : option string }.

Inductive MessageContent : Type :=
| Plain (s : string)
| Parts (parts : list ContentPart).

Record ChatMessage : Type :=
  { role : Role;
    content : MessageContent }.

(** The value of [options.image] when it is not [undefined], by the tests
    the code runs on it. *)
Inductive Image : Type :=
| ImageString (s : string)
    (* typeof image === 'string' *)
| ImageObject (url : option string) (buffer : option (list byte))
    (* typeof image === 'object'; [url]: 'url' in image with a string
       value; [buffer]: 'buffer' in image with a truthy value *)
| ImageOther.
    (* a truthy value that is neither a string nor an object *)

(** JavaScript truthiness of a string and of [options.image]. *)
Definition truthy_string (s : string) : bool := negb (s =? "")%string.

Definition truthy_image (image : option Image) : bool :=
  match image with
  | None => false
  | Some (ImageString s) => truthy_string s
  | Some (ImageObject _ _) => true
  | Some ImageOther => true
  end.

Definition imageContent (u : string) : ContentPart :=
  {| type := "image_url"; image_url := Some {| url := u |}; text := None |}.

Definition textContent (t : string) : ContentPart :=
  {| type := "text"; image_url := None; text := Some t |}.

Definition fallbackContent : ContentPart := textContent "".

(** The callback of [message.content.map] (lines 107-130). *)
Definition contentPart (content : ContentPart) : ContentPart :=
  match image_url content with
  | Some iu => imageContent (url iu)
  | None =>
      match text content with
      | Some t => if truthy_string t then textContent t else fallbackContent
      | None => fallbackContent
      end
  end.

(** [content.type === "text"], the predicate of the two filters. *)
Definition is_text (content : ContentPart) : bool :=
  (type content =? "text")%string.

Definition mimeType : string := "image/jpeg".

(** The [imageUrl] of lines 165-192; [None] on the two branches that warn
    and return the message as it is.  Only called on a truthy image. *)
Definition imageUrl (image : Image) : option string :=
  match image with
  | ImageString s => Some s
  | ImageObject (Some u) _ => Some u
  | ImageObject None (Some buffer) =>
      Some ("data:" ++ mimeType ++ ";base64," ++ Base64.encode buffer)%string
  | ImageObject None None => None
  | ImageOther => None
  end.

Definition unsupported : string := "Unsupported image format provided".

(** The callback of [options.messages.map] (lines 105-218): the message
    sent to the provider, and what the callback writes with
    [console.warn]. *)
Definition formatMessage (image : option Image) (message : ChatMessage)
  : ChatMessage * list string :=
  match content message with
  | Parts parts =>
      let contentParts := map contentPart parts in
      match role message with
      | system =>
          ({| role := system; content := Parts (filter is_text contentParts) |},
           [])
      | user => ({| role := user; content := Parts contentParts |}, [])
      | _ =>
          ({| role := assistant;
              content := Parts (filter is_text contentParts) |}, [])
      end
  | Plain s =>
      match role message, image with
      | user, Some img =>
          if truthy_image image then
            match imageUrl img with
            | Some u =>
                ({| role := user;
                    content := Parts [textContent s; imageContent u] |}, [])
            | None => ({| role := user; content := Plain s |}, [unsupported])
            end
          else ({| role := user; content := Plain s |}, [])
      | _, _ => ({| role := user; content := Plain s |}, [])
      end
  end.

Definition formatMessages (image : option Image) (messages : list ChatMessage)
  : list ChatMessage * list string :=
  let formatted := map (formatMessage image) messages in
  (map fst formatted, List.concat (map snd formatted)).

(* ===================================================================== *)
(** ** Requests, responses and results *)
(* ===================================================================== *)

(** A zod schema, by what [schema.parse(data)] does: [Some] output, or
    [None] where it throws. *)
Record ZodTypeAny : Type := { parse : JsonValue -> option JsonValue }.

(** Lines 32-39. *)
Definition validateZodSchema (schema : ZodTypeAny) (data : JsonValue) : bool :=
  match parse schema data with
  | Some _ => true
  | None => false
  end.

Record ResponseModel : Type :=
  { name : string;
    schema : ZodTypeAny }.

Module LLMTool.
Record t : Type :=
  { name : string;
    description : string;
    parameters : JsonValue }.
End LLMTool.

(** [options]: the fields the method names, and [params], the other
    generation parameters it passes through (temperature, token
    limits, ...). *)
Record ChatCompletionOptions : Type :=
  { messages : list ChatMessage;
    image : option Image;
    requestId : option string;
    response_model : option ResponseModel;
    tools : option (list LLMTool.t);
    params : list (string * JsonValue) }.

(** The types of the provider's library. *)
Module OpenAI.

Record FunctionDefinition : Type :=
  { name : string;
    description : string;
    parameters : JsonValue }.

Record ChatCompletionTool : Type :=
  { function : FunctionDefinition;
    type : string }.

(** What [zodResponseFormat(schema, name)] returns. *)
Record ResponseFormat : Type :=
  { json_schema : ZodTypeAny;
    json_schema_name : string }.

Record ChatCompletionCreateParamsNonStreaming : Type :=
  { params : list (string * JsonValue);
    model : string;
    messages : list ChatMessage;
    response_format : option ResponseFormat;
    stream : bool;
    tools : option (list ChatCompletionTool) }.

(** [content]: [None] for [null]. *)
Record ChatCompletionMessage : Type := { content : option string }.

Record Choice : Type := { message : ChatCompletionMessage }.

(** [response.usage] and each of its counters may be missing. *)
Record CompletionUsage : Type :=
  { prompt_tokens : option Z;
    completion_tokens : option Z;
    total_tokens : option Z }.

Record ChatCompletion : Type :=
  { choices : list Choice;
    usage : option CompletionUsage }.

(** How the promise of [chat.completions.create] settles. *)
Inductive Settled : Type :=
| Resolves (response : ChatCompletion)
| Rejects (reason : string).

(** The provider behind [client.chat.completions.create]: its answer to
    a request may depend on how many requests it received before. *)
Definition Client : Type :=
  nat -> ChatCompletionCreateParamsNonStreaming -> Settled.

End OpenAI.

Definition zodResponseFormat (schema : ZodTypeAny) (name : string)
  : OpenAI.ResponseFormat :=
  {| OpenAI.json_schema := schema; OpenAI.json_schema_name := name |}.

Record CustomOpenAIClient : Type :=
  { modelName : string;
    client : OpenAI.Client }.

(** [openaiOptions] (lines 87-90): the options without [image],
    [requestId] and [response_model], and with the model. *)
Record OpenaiOptions : Type :=
  { oo_params : list (string * JsonValue);
    oo_messages : list ChatMessage;
    oo_tools : option (list LLMTool.t);
    oo_model : string }.

Record Usage : Type :=
  { prompt_tokens : Z;
    completion_tokens : Z;
    total_tokens : Z }.

(** The [data] of a result: the parsed payload when a schema was asked
    for, else the message content as it came ([None] for [null]). *)
Inductive Data : Type :=
| Parsed_data (parsedData : JsonValue)
| Content (content : option string).

Record Completion : Type :=
  { data : Data;
    usage : Usage }.

(** What the method throws, or what its promise is rejected with. *)
Inductive Thrown : Type :=
| Error (message : string)
    (* [new Error(message)], lines 257 and 270 *)
| TypeError
    (* reading [message] of [response.choices[0]] when it is undefined *)
| SyntaxError (text : string)
    (* thrown by [JSON.parse(text)] *)
| TransportError (reason : string).
    (* the rejection of [chat.completions.create], passed on as it is *)

(** The failures under the names the specification gives them. *)
Definition EmptyResponse : Thrown := Error "No content in response".
Definition InvalidSchema : Thrown := Error "Invalid response schema".
Definition TransportFailure (reason : string) : Thrown := TransportError reason.

(** An argument of a [JSON.stringify] call in a log record, kept as the
    value that is serialized. *)
Inductive Stringified : Type :=
| stringify_options (o : ChatCompletionOptions)
| stringify_openaiOptions (o : OpenaiOptions)
| stringify_response (r : OpenAI.ChatCompletion)
| verbatim (s : string).

(** A record passed to the logger; an auxiliary entry is its key, its
    value and its type tag. *)
Module LogLine.
Record t : Type :=
  { category : string;
    message : string;
    level : Z;
    auxiliary : list (string * (Stringified * string)) }.
End LogLine.

(* ===================================================================== *)
(** ** Effects *)
(* ===================================================================== *)

(** What a call does to the outside, in the order it does it. *)
Inductive Event : Type :=
| Logged (line : LogLine.t)
| Warned (text : string)
| Dispatched (body : OpenAI.ChatCompletionCreateParamsNonStreaming).

Definition is_dispatch (e : Event) : bool :=
  match e with Dispatched _ => true | _ => false end.

Definition is_log (e : Event) : bool :=
  match e with Logged _ => true | _ => false end.

(** The requests sent so far, oldest first. *)
Fixpoint dispatches (events : list Event)
  : list OpenAI.ChatCompletionCreateParamsNonStreaming :=
  match events with
  | [] => []
  | Dispatched body :: rest => body :: dispatches rest
  | _ :: rest => dispatches rest
  end.

Fixpoint logged (events : list Event) : list LogLine.t :=
  match events with
  | [] => []
  | Logged line :: rest => line :: logged rest
  | _ :: rest => logged rest
  end.

(** How an [async] call stands: fulfilled with a value, rejected with
    what was thrown, or not settled within the steps the model was
    given. *)
Inductive Promise (A : Type) : Type :=
| Fulfilled (a : A)
| Rejected (e : Thrown)
| Pending.
Arguments Fulfilled {A} a.
Arguments Rejected {A} e.
Arguments Pending {A}.

Section Effects.

(** The state of the caller's logging sink; the logger is any function
    that takes a record and updates that state. *)
Context {Sink : Type}.

Record World : Type :=
  { sink : Sink;
    events : list Event }.

Definition M (A : Type) : Type := World -> Promise A * World.

Definition ret {A} (a : A) : M A := fun w => (Fulfilled a, w).

Definition throw {A} (e : Thrown) : M A := fun w => (Rejected e, w).

Definition bind {A B} (m : M A) (f : A -> M B) : M B :=
  fun w =>
    match m w with
    | (Fulfilled a, w') => f a w'
    | (Rejected e, w') => (Rejected e, w')
    | (Pending, w') => (Pending, w')
    end.

Definition emit (e : Event) (w : World) : World :=
  {| sink := sink w; events := events w ++ [e] |}.

(** [logger(line)], for a logger that returns; [Throwing.log] below is
    for one that may throw. *)
Definition log (logger : LogLine.t -> Sink -> Sink) (line : LogLine.t)
  : M unit :=
  fun w =>
    (Fulfilled tt,
     {| sink := logger line (sink w); events := events w ++ [Logged line] |}).

(** [console.warn(text)]. *)
Definition warn (text : string) : M unit :=
  fun w => (Fulfilled tt, emit (Warned text) w).

Fixpoint warn_all (texts : list string) : M unit :=
  match texts with
  | [] => ret tt
  | t :: rest => bind (warn t) (fun _ => warn_all rest)
  end.

(** [await client.chat.completions.create(body)]. *)
Definition create (client : OpenAI.Client)
  (body : OpenAI.ChatCompletionCreateParamsNonStreaming)
  : M OpenAI.ChatCompletion :=
  fun w =>
    match client (List.length (dispatches (events w))) body with
    | OpenAI.Resolves response =>
        (Fulfilled response, emit (Dispatched body) w)
    | OpenAI.Rejects reason =>
        (Rejected (TransportError reason), emit (Dispatched body) w)
    end.

End Effects.

Arguments World : clear implicits.
Arguments M : clear implicits.

Declare Scope client_scope.
Notation "x <- m ;; k" := (bind m (fun x => k))
  (at level 61, m at next level, right associativity) : client_scope.
Notation "m ;; k" := (bind m (fun _ => k))
  (at level 61, right associativity) : client_scope.
Local Open Scope client_scope.

(* ===================================================================== *)
(** ** [CustomOpenAIClient.createChatCompletion] (lines 51-291) *)
(* ===================================================================== *)

Record CreateChatCompletionOptions (Sink : Type) : Type :=
  { options : ChatCompletionOptions;
    retries : option Z;
    logger : LogLine.t -> Sink -> Sink }.
Arguments options {Sink} _.
Arguments retries {Sink} _.
Arguments logger {Sink} _.

(** The default of the [retries] parameter. *)
Definition default_retries : Z := 3.

(** The record of lines 58-75: the options without the image. *)
Definition creating_line (self : CustomOpenAIClient)
  (options : ChatCompletionOptions) : LogLine.t :=
  {| LogLine.category := "openai";
     LogLine.message := "creating chat completion";
     LogLine.level := 1;
     LogLine.auxiliary :=
       [("options",
         (stringify_options
            {| messages := messages options;
               image := None;
               requestId := requestId options;
               response_model := response_model options;
               tools := tools options;
               params := params options |},
          "object"));
        ("modelName", (verbatim (modelName self), "string"))] |}.

Definition openaiOptions (self : CustomOpenAIClient)
  (options : ChatCompletionOptions) : OpenaiOptions :=
  {| oo_params := params options;
     oo_messages := messages options;
     oo_tools := tools options;
     oo_model := modelName self |}.

(** The record of lines 92-102. *)
Definition openaiOptions_line (self : CustomOpenAIClient)
  (options : ChatCompletionOptions) : LogLine.t :=
  {| LogLine.category := "openai";
     LogLine.message := "creating chat completion";
     LogLine.level := 1;
     LogLine.auxiliary :=
       [("openaiOptions",
         (stringify_openaiOptions (openaiOptions self options), "object"))] |}.

(** The record of lines 238-252. *)
Definition response_line (options : ChatCompletionOptions)
  (response : OpenAI.ChatCompletion) : LogLine.t :=
  {| LogLine.category := "openai";
     LogLine.message := "response";
     LogLine.level := 1;
     LogLine.auxiliary :=
       [("response", (stringify_response response, "object"));
        ("requestId",
         (verbatim match requestId options with Some r => r | None => "" end,
          "string"))] |}.

Definition responseFormat (options : ChatCompletionOptions)
  : option OpenAI.ResponseFormat :=
  match response_model options with
  | Some rm => Some (zodResponseFormat (schema rm) (name rm))
  | None => None
  end.

Definition tool (t : LLMTool.t) : OpenAI.ChatCompletionTool :=
  {| OpenAI.function :=
       {| OpenAI.name := LLMTool.name t;
          OpenAI.description := LLMTool.description t;
          OpenAI.parameters := LLMTool.parameters t |};
     OpenAI.type := "function" |}.

(** The [body] of lines 220-234, from the formatted messages. *)
Definition body (self : CustomOpenAIClient) (options : ChatCompletionOptions)
  (formattedMessages : list ChatMessage)
  : OpenAI.ChatCompletionCreateParamsNonStreaming :=
  {| OpenAI.params := oo_params (openaiOptions self options);
     OpenAI.model := modelName self;
     OpenAI.messages := formattedMessages;
     OpenAI.response_format := responseFormat options;
     OpenAI.stream := false;
     OpenAI.tools := option_map (map tool) (tools options) |}.

(** [x ?? 0] on a counter of [response.usage?]. *)
Definition counter (response : OpenAI.ChatCompletion)
  (field : OpenAI.CompletionUsage -> option Z) : Z :=
  match OpenAI.usage response with
  | Some u => match field u with Some n => n | None => 0%Z end
  | None => 0%Z
  end.

Definition usage_of (response : OpenAI.ChatCompletion) : Usage :=
  {| prompt_tokens := counter response OpenAI.prompt_tokens;
     completion_tokens := counter response OpenAI.completion_tokens;
     total_tokens := counter response OpenAI.total_tokens |}.

(** The body of the method.  [fuel] bounds the number of nested calls of
    the model; [createChatCompletion] below gives enough of it. *)
Fixpoint attempt {Sink : Type} (fuel : nat) (self : CustomOpenAIClient)
  (options : ChatCompletionOptions) (retries : Z)
  (logger : LogLine.t -> Sink -> Sink) {struct fuel} : M Sink Completion :=
  match fuel with
  | O => fun w => (Pending, w)
  | S fuel' =>
      log logger (creating_line self options) ;;
      log logger (openaiOptions_line self options) ;;
      let (formattedMessages, warnings) :=
        formatMessages (image options) (messages options) in
      warn_all warnings ;;
      response <- create (client self) (body self options formattedMessages) ;;
      log logger (response_line options response) ;;
      match response_model options with
      | Some rm =>
          match OpenAI.choices response with
          | [] => throw TypeError
          | choice :: _ =>
              match OpenAI.content (OpenAI.message choice) with
              | None => throw (Error "No content in response")
              | Some extractedData =>
                  if negb (truthy_string extractedData)
                  then throw (Error "No content in response")
                  else
                    match JSON_parse extractedData with
                    | None => throw (SyntaxError extractedData)
                    | Some parsedData =>
                        if negb (validateZodSchema (schema rm) parsedData)
                        then
                          if (retries >? 0)%Z
                          then attempt fuel' self options (retries - 1)%Z logger
                          else throw (Error "Invalid response schema")
                        else
                          ret {| data := Parsed_data parsedData;
                                 usage := usage_of response |}
                    end
              end
          end
      | None =>
          match OpenAI.choices response with
          | [] => throw TypeError
          | choice :: _ =>
              ret {| data := Content (OpenAI.content (OpenAI.message choice));
                     usage := usage_of response |}
          end
      end
  end.

Definition createChatCompletion {Sink : Type} (self : CustomOpenAIClient)
  (args : CreateChatCompletionOptions Sink) : M Sink Completion :=
  let n := match retries args with Some r => r | None => default_retries end in
  attempt (S (Z.to_nat n)) self (options args) n (logger args).

(** The world before a call: the sink as the caller has it, nothing done
    yet. *)
Definition fresh {Sink : Type} (s : Sink) : World Sink :=
  {| sink := s; events := [] |}.

(** The number of requests a call sent, from a fresh world. *)
Definition attempts {Sink : Type} (w : World Sink) : nat :=
  List.length (dispatches (events w)).

(* ===================================================================== *)
(** ** One attempt, as a trace *)
(* ===================================================================== *)

(** The request an attempt sends. *)
Definition request (self : CustomOpenAIClient) (options : ChatCompletionOptions)
  : OpenAI.ChatCompletionCreateParamsNonStreaming :=
  body self options (fst (formatMessages (image options) (messages options))).

(** What an attempt does up to and including its dispatch. *)
Definition request_block (self : CustomOpenAIClient)
  (options : ChatCompletionOptions) : list Event :=
  [Logged (creating_line self options);
   Logged (openaiOptions_line self options)]
  ++ map Warned (snd (formatMessages (image options) (messages options)))
  ++ [Dispatched (request self options)].

(** What an attempt does when the provider answers. *)
Definition answered_block (self : CustomOpenAIClient)
  (options : ChatCompletionOptions) (response : OpenAI.ChatCompletion)
  : list Event :=
  request_block self options ++ [Logged (response_line options response)].

(** The logger run over the records of a trace, in order. *)
Definition feed {Sink : Type} (logger : LogLine.t -> Sink -> Sink)
  (events : list Event) (s : Sink) : Sink :=
  fold_left (fun s line => logger line s) (logged events) s.

(** The world once the request of an attempt is out. *)
Definition sent {Sink : Type} (self : CustomOpenAIClient)
  (options : ChatCompletionOptions) (logger : LogLine.t -> Sink -> Sink)
  (w : World Sink) : World Sink :=
  {| sink := feed logger (request_block self options) (sink w);
     events := events w ++ request_block self options |}.

(** The world once the answer of an attempt is logged. *)
Definition received {Sink : Type} (self : CustomOpenAIClient)
  (options : ChatCompletionOptions) (logger : LogLine.t -> Sink -> Sink)
  (response : OpenAI.ChatCompletion) (w : World Sink) : World Sink :=
  {| sink := feed logger (answered_block self options response) (sink w);
     events := events w ++ answered_block self options response |}.

(** The part of an attempt after the answer is logged (lines 254-290),
    [again] being the nested call. *)
Definition settle {Sink : Type} (options : ChatCompletionOptions)
  (retries : Z) (response : OpenAI.ChatCompletion)
  (again : M Sink Completion) : M Sink Completion :=
  match response_model options with
  | Some rm =>
      match OpenAI.choices response with
      | [] => throw TypeError
      | choice :: _ =>
          match OpenAI.content (OpenAI.message choice) with
          | None => throw (Error "No content in response")
          | Some extractedData =>
              if negb (truthy_string extractedData)
              then throw (Error "No content in response")
              else
                match JSON_parse extractedData with
                | None => throw (SyntaxError extractedData)
                | Some parsedData =>
                    if negb (validateZodSchema (schema rm) parsedData)
                    then
                      if (retries >? 0)%Z then again
                      else throw (Error "Invalid response schema")
                    else
                      ret {| data := Parsed_data parsedData;
                             usage := usage_of response |}
                end
          end
      end
  | None =>
      match OpenAI.choices response with
      | [] => throw TypeError
      | choice :: _ =>
          ret {| data := Content (OpenAI.content (OpenAI.message choice));
                 usage := usage_of response |}
      end
  end.

(* ===================================================================== *)
(** ** Fixtures *)
(* ===================================================================== *)

(** [z.object({ isLoggedIn: z.boolean() })], the schema of the login check
    in [index.ts]: it accepts an object whose [isLoggedIn] is a boolean
    and returns that member alone. *)
Definition isLoggedIn_schema : ZodTypeAny :=
  {| parse := fun data =>
       match data with
       | JObject members =>
           match member "isLoggedIn" members with
           | Some (JBool b) => Some (JObject [("isLoggedIn", JBool b)])
           | _ => None
           end
       | _ => None
       end |}.

Definition Bool_model : ResponseModel :=
  {| name := "Bool"; schema := isLoggedIn_schema |}.

(** A text between double quotes, and the payloads of the scenarios:
    an object whose [isLoggedIn] is [false], and one whose [isLoggedIn]
    is the number 1. *)
Definition quoted (s : string) : string :=
  String "034" (s ++ String "034" EmptyString)%string.

Definition isLoggedIn_false : string :=
  ("{" ++ quoted "isLoggedIn" ++ ": false}")%string.

Definition isLoggedIn_1 : string :=
  ("{" ++ quoted "isLoggedIn" ++ ": 1}")%string.

(** A response with one choice carrying the given content and no usage. *)
Definition reply (content : option string) : OpenAI.ChatCompletion :=
  {| OpenAI.choices :=
       [{| OpenAI.message := {| OpenAI.content := content |} |}];
     OpenAI.usage := None |}.

(** A provider that answers its n-th request with the n-th content of a
    script, and fails once the script is over. *)
Definition scripted (script : list (option string)) : OpenAI.Client :=
  fun n _ =>
    match nth_error script n with
    | Some content => OpenAI.Resolves (reply content)
    | None => OpenAI.Rejects "script is over"
    end.

(** A provider that always answers with the same content. *)
Definition constant (content : option string) : OpenAI.Client :=
  fun _ _ => OpenAI.Resolves (reply content).

(** A provider that answers with no choice at all. *)
Definition choiceless : OpenAI.Client :=
  fun _ _ => OpenAI.Resolves {| OpenAI.choices := []; OpenAI.usage := None |}.

Definition gpt (client : OpenAI.Client) : CustomOpenAIClient :=
  {| modelName := "gpt-4o"; client := client |}.

Definition ask (text : string) (response_model : option ResponseModel)
  : ChatCompletionOptions :=
  {| messages := [{| role := user; content := Plain text |}];
     image := None;
     requestId := None;
     response_model := response_model;
     tools := None;
     params := [] |}.

(** A logger that keeps the records it is given, oldest first. *)
Definition recorder (line : LogLine.t) (kept : list LogLine.t)
  : list LogLine.t :=
  kept ++ [line].

(** The logger of [index.ts], [() => {}]. *)
Definition silent (line : LogLine.t) (s : unit) : unit := s.

Definition call {Sink : Type} (options : ChatCompletionOptions)
  (retries : Z) (logger : LogLine.t -> Sink -> Sink)
  : CreateChatCompletionOptions Sink :=
  {| options := options; retries := Some retries; logger := logger |}.

(* ===================================================================== *)
(** ** What an answer makes of an attempt *)
(* ===================================================================== *)

(** The test of lines 254-261 on an answer: a schema is asked for, the
    first choice carries a non-empty content, the content parses and the
    schema refuses the value.  It is the one case in which the method
    looks at [retries]. *)
Definition mismatch (options : ChatCompletionOptions)
  (response : OpenAI.ChatCompletion) : bool :=
  match response_model options with
  | Some rm =>
      match OpenAI.choices response with
      | [] => false
      | choice :: _ =>
          match OpenAI.content (OpenAI.message choice) with
          | None => false
          | Some extractedData =>
              truthy_string extractedData
              && match JSON_parse extractedData with
                 | None => false
                 | Some parsedData =>
                     negb (validateZodSchema (schema rm) parsedData)
                 end
          end
      end
  | None => false
  end.

(** How an attempt with no retry left settles on an answer. *)
Definition last_word (options : ChatCompletionOptions)
  (response : OpenAI.ChatCompletion) : Promise Completion :=
  fst (settle options 0 response (throw InvalidSchema) (fresh tt)).

(** The value of the first choice's content under [JSON.parse], when there
    is one. *)
Definition parsed_payload (response : OpenAI.ChatCompletion)
  : option JsonValue :=
  match OpenAI.choices response with
  | [] => None
  | choice :: _ =>
      match OpenAI.content (OpenAI.message choice) with
      | None => None
      | Some extractedData => JSON_parse extractedData
      end
  end.

(** A plain-string message of role user, the kind an attachment is merged
    into. *)
Definition plain_user (message : ChatMessage) : bool :=
  match role message, content message with
  | user, Plain _ => true
  | _, _ => false
  end.

(** A part that carries an image. *)
Definition is_image (content : ContentPart) : bool :=
  match image_url content with
  | Some _ => true
  | None => false
  end.

(** The invariant of the messages on the wire: a message of another role
    than user has an array content of text parts without an image. *)
Definition wire_ok (message : ChatMessage) : Prop :=
  match role message with
  | user => True
  | _ =>
      match content message with
      | Plain _ => False
      | Parts parts =>
          Forall (fun part => type part = "text" /\ image_url part = None)
                 parts
      end
  end.

(** The options record of a log line, when it has one. *)
Definition logged_options (line : LogLine.t) : list ChatCompletionOptions :=
  flat_map (fun entry =>
              match fst (snd entry) with
              | stringify_options o => [o]
              | _ => []
              end)
           (LogLine.auxiliary line).

(* ===================================================================== *)
(** ** The CAPTCHA reader of [index.ts] (lines 67-101) *)
(* ===================================================================== *)

(** The [prompt] of lines 73-74. *)
Definition captcha_prompt : string :=
  "Look at the CAPTCHA image and tell me what characters are shown. The CAPTCHA should contain letters and/or numbers. Return ONLY the characters you see, nothing else. Be precise and accurate.".

(** The [options] of lines 77-94: one user message of a text part and an
    image part holding the screenshot as a PNG data URI, and two
    generation parameters. *)
Definition captcha_options (imageBuffer : list byte) : ChatCompletionOptions :=
  {| messages :=
       [{| role := user;
           content :=
             Parts [{| type := "text"; image_url := None;
                       text := Some captcha_prompt |};
                    {| type := "image_url";
                       image_url :=
                         Some {| url := ("data:image/png;base64,"
                                         ++ Base64.encode imageBuffer)%string |};
                       text := None |}] |}];
     image := None;
     requestId := None;
     response_model := None;
     tools := None;
     params := [("max_tokens", JNumber "20"); ("temperature", JNumber "0.1")] |}.

(** The class [[a-zA-Z0-9]]. *)
Definition is_alphanumeric (c : ascii) : bool :=
  let n := nat_of_ascii c in
  ((48 <=? n) && (n <=? 57)) || ((65 <=? n) && (n <=? 90))
  || ((97 <=? n) && (n <=? 122)).

(** [s.replace(/[^a-zA-Z0-9]/g, "")]. *)
Definition alphanumeric (s : string) : string :=
  string_of_list_ascii (filter is_alphanumeric (list_ascii_of_string s)).

(** [data?.replace(/[^a-zA-Z0-9]/g, "") || ""] of line 99: [null] gives
    the empty string, a string is cleaned, and any other value has no
    [replace] to call. *)
Definition captcha_text (data : Data) : Promise string :=
  match data with
  | Content None => Fulfilled ""
  | Content (Some s) => Fulfilled (alphanumeric s)
  | Parsed_data JNull => Fulfilled ""
  | Parsed_data (JString s) => Fulfilled (alphanumeric s)
  | Parsed_data _ => Rejected TypeError
  end.

(** [recognizeCaptchaWithLLM], [openai] being the provider behind the
    client it makes. *)
Definition recognizeCaptchaWithLLM (openai : OpenAI.Client)
  (imageBuffer : list byte) : M unit string :=
  let llm := {| modelName := "gpt-4o"; client := openai |} in
  response <- createChatCompletion llm
                {| options := captcha_options imageBuffer;
                   retries := None;
                   logger := silent |} ;;
  (fun w => (captcha_text (data response), w)).

(* ===================================================================== *)
(** ** Texts: [trim] and [includes] *)
(* ===================================================================== *)

(** Strings are UTF-8 texts.  [trim] removes the white space and the line
    terminators of ECMAScript at both ends: U+0009 to U+000D and U+0020,
    one byte each, and U+00A0, U+1680, U+2000 to U+200A, U+2028, U+2029,
    U+202F, U+205F, U+3000 and U+FEFF, two or three bytes each. *)
Module Text.

Definition is_space (c : ascii) : bool :=
  let n := nat_of_ascii c in ((9 <=? n) && (n <=? 13)) || (n =? 32).

Definition wide_spaces : list (list ascii) :=
  map (map ascii_of_nat)
      [[194; 160]; [225; 154; 128];
       [226; 128; 128]; [226; 128; 129]; [226; 128; 130]; [226; 128; 131];
       [226; 128; 132]; [226; 128; 133]; [226; 128; 134]; [226; 128; 135];
       [226; 128; 136]; [226; 128; 137]; [226; 128; 138];
       [226; 128; 168]; [226; 128; 169]; [226; 128; 175];
       [226; 129; 159]; [227; 128; 128]; [239; 187; 191]].

(** The text after the first of the sequences that heads it. *)
Fixpoint after_one (seqs : list (list ascii)) (l : list ascii)
  : option (list ascii) :=
  match seqs with
  | [] => None
  | p :: ps =>
      match Lexer.strip_prefix p l with
      | Some rest => Some rest
      | None => after_one ps l
      end
  end.

(** Removes leading white space, the wide ones as the sequences given;
    [n] bounds the number of removals. *)
Fixpoint strip (seqs : list (list ascii)) (n : nat) (l : list ascii)
  : list ascii :=
  match n with
  | O => l
  | S n' =>
      match l with
      | [] => []
      | c :: rest =>
          if is_space c then strip seqs n' rest
          else
            match after_one seqs l with
            | Some rest' => strip seqs n' rest'
            | None => l
            end
      end
  end.

Definition trim_start (l : list ascii) : list ascii :=
  strip wide_spaces (List.length l) l.

Definition trim_end (l : list ascii) : list ascii :=
  rev (strip (map (@rev ascii) wide_spaces) (List.length l) (rev l)).

(** [s.trim()]. *)
Definition trim (s : string) : string :=
  string_of_list_ascii (trim_end (trim_start (list_ascii_of_string s))).

Fixpoint includes_chars (needle l : list ascii) : bool :=
  match Lexer.strip_prefix needle l with
  | Some _ => true
  | None =>
      match l with
      | [] => false
      | _ :: rest => includes_chars needle rest
      end
  end.

(** [s.includes(needle)]. *)
Definition includes (s needle : string) : bool :=
  includes_chars (list_ascii_of_string needle) (list_ascii_of_string s).

End Text.

(* ===================================================================== *)
(** ** The course table of [index.ts] (lines 258-375) *)
(* ===================================================================== *)

(** What the page scripts read of the document: of a checkbox, whether it
    has the attributes [disabled] and [checked] and the value of its
    [onclick] attribute; of a table row, the [textContent] of its [td]
    elements in order and its first checkbox, if any. *)
Module Element.

Record Checkbox : Type :=
  { disabled : bool;
    checked : bool;
    onclick : option string }.

Record Row : Type :=
  { cells : list (option string);
    checkbox : option Checkbox }.

End Element.

Record Course : Type :=
  { courseCode : string;
    courseName : string;
    isSelectable : bool;
    isVisible : bool;
    checkboxState : string;
    onclick : string }.

Definition is_upper (c : ascii) : bool :=
  let n := nat_of_ascii c in (65 <=? n) && (n <=? 90).

(** The test of line 337: the whole text is two capital letters and four
    digits. *)
Definition is_course_code (cellText : string) : bool :=
  match list_ascii_of_string cellText with
  | [a; b; c; d; e; f] =>
      is_upper a && is_upper b && Lexer.is_digit c && Lexer.is_digit d
      && Lexer.is_digit e && Lexer.is_digit f
  | _ => false
  end.

(** [cell.textContent?.trim() || ''] *)
Definition cell_text (cell : option string) : string :=
  match cell with
  | Some textContent => Text.trim textContent
  | None => ""
  end.

(** The inner loop of lines 334-345: the first cell that is a course
    code, with the text of the cell after it. *)
Fixpoint code_and_name (cells : list (option string))
  : option (string * string) :=
  match cells with
  | [] => None
  | cell :: rest =>
      let cellText := cell_text cell in
      if is_course_code cellText then
        Some (cellText,
              match rest with
              | next :: _ => cell_text next
              | [] => ""
              end)
      else code_and_name rest
  end.

(** [checkbox.getAttribute('onclick') || 'none'] *)
Definition onclick_or_none (checkbox : Element.Checkbox) : string :=
  match Element.onclick checkbox with
  | Some value => if truthy_string value then value else "none"
  | None => "none"
  end.

(** One turn of the loop of lines 326-372: the course of a row, when the
    row has one. *)
Definition row_course (row : Element.Row) : option Course :=
  if List.length (Element.cells row) <? 3 then None
  else
    match code_and_name (Element.cells row) with
    | None => None
    | Some (code, name) =>
        Some
          match Element.checkbox row with
          | Some checkbox =>
              {| courseCode := code;
                 courseName := name;
                 isSelectable := negb (Element.disabled checkbox);
                 isVisible := true;
                 checkboxState :=
                   if Element.checked checkbox then "checked" else "unchecked";
                 onclick := onclick_or_none checkbox |}
          | None =>
              {| courseCode := code;
                 courseName := name;
                 isSelectable := false;
                 isVisible := true;
                 checkboxState := "not_found";
                 onclick := "none" |}
          end
    end.

(** The script of lines 322-375. *)
Fixpoint allCourses (courseRows : list Element.Row) : list Course :=
  match courseRows with
  | [] => []
  | row :: rest =>
      match row_course row with
      | Some course => course :: allCourses rest
      | None => allCourses rest
      end
  end.

(** The status of the priority course (lines 259-288); [onclick] is
    [None] where the script returns no such field. *)
Module Priority.

Record Status : Type :=
  { isVisible : bool;
    isSelectable : bool;
    checkboxState : string;
    onclick : option string }.

End Priority.

(** The predicate of [courseRows.find] (lines 261-264). *)
Definition mentions_CS6701 (row : Element.Row) : bool :=
  existsb (fun cell =>
             match cell with
             | Some textContent => Text.includes textContent "CS6701"
             | None => false
             end)
          (Element.cells row).

Definition cs6701Status (courseRows : list Element.Row) : Priority.Status :=
  match find mentions_CS6701 courseRows with
  | None =>
      {| Priority.isVisible := false;
         Priority.isSelectable := false;
         Priority.checkboxState := "not_found";
         Priority.onclick := None |}
  | Some cs6701Row =>
      match Element.checkbox cs6701Row with
      | None =>
          {| Priority.isVisible := true;
             Priority.isSelectable := false;
             Priority.checkboxState := "not_found";
             Priority.onclick := None |}
      | Some checkbox =>
          {| Priority.isVisible := true;
             Priority.isSelectable := negb (Element.disabled checkbox);
             Priority.checkboxState :=
               if Element.checked checkbox then "checked" else "unchecked";
             Priority.onclick := Some (onclick_or_none checkbox) |}
      end
  end.

(* ===================================================================== *)
(** ** The script around the client: effects of [index.ts] *)
(* ===================================================================== *)

(** A record given to [stagehand.log]; the level is optional, and the
    value of an auxiliary entry may be [undefined]. *)
Module Stagehand.

Record LogLine : Type :=
  { category : string;
    message : string;
    level : option Z;
    auxiliary : list (string * (option string * string)) }.

End Stagehand.

(** The styles of [chalk] the script uses, each a function on texts. *)
Record Chalk : Type :=
  { green : string -> string;
    red : string -> string;
    yellow : string -> string;
    yellow_bold : string -> string;
    blue : string -> string;
    cyan : string -> string }.

(** How a call into the page, the network or a response body ends. *)
Inductive Outcome (A : Type) : Type :=
| Returns (a : A)
| Throws (e : Thrown).
Arguments Returns {A} a.
Arguments Throws {A} e.

(** What the script of lines 108-119 returns for the CAPTCHA image, and
    the [clip] of a screenshot; [Number] is the type of the numbers of
    the runtime. *)
Module CaptchaInfo.

Record t (Number : Type) : Type :=
  { x : Number;
    y : Number;
    width : Number;
    height : Number;
    devicePixelRatio : Number }.
Arguments x {Number} _.
Arguments y {Number} _.
Arguments width {Number} _.
Arguments height {Number} _.
Arguments devicePixelRatio {Number} _.

End CaptchaInfo.

Module Clip.

Record t (Number : Type) : Type :=
  { x : Number;
    y : Number;
    width : Number;
    height : Number }.
Arguments x {Number} _.
Arguments y {Number} _.
Arguments width {Number} _.
Arguments height {Number} _.

End Clip.

(** A request given to [fetch], its body kept as the value that is
    serialized, and what the script reads of a response. *)
Module Fetch.

Record Request : Type :=
  { url : string;
    method : string;
    headers : list (string * string);
    body : JsonValue }.

Record Response : Type :=
  { ok : bool;
    json : Outcome JsonValue }.

End Fetch.

Section Script.

Context {Number : Type}.

(** What the script does to the outside, in order: the records given to
    [stagehand.log], the calls of [announce] (of [utils.js]) and of
    [console.log], the questions of [rl.question], the calls into the
    page ([goto], [act], [waitForTimeout], [extract], [screenshot], and
    [evaluate] with the CAPTCHA script, the priority script or the scan
    of all courses), and the requests of [fetch].  The first three are
    taken to return. *)
Inductive Output : Type :=
| StagehandLog (line : Stagehand.LogLine)
| Announce (message title : string)
| ConsoleLog (text : string)
| Question (query : string)
| Evaluate
| Screenshot (clip : Clip.t Number)
| Fetched (request : Fetch.Request)
| Goto (url : string)
| Act (instruction : string)
| WaitForTimeout (ms : Z)
| Extract (instruction : string)
| EvaluateStatus
| EvaluateCourses.

(** The outside, as the script meets it: the provider behind the OpenAI
    client, the page, the keyboard and the network.  The answer to a call
    may depend on how many calls of its kind came before. *)
Record Outside : Type :=
  { openai : OpenAI.Client;
    find_captcha : nat -> Outcome (option (CaptchaInfo.t Number));
    take_screenshot : nat -> Clip.t Number -> Outcome (list byte);
    keyboard : nat -> string;
    network : nat -> Fetch.Request -> Outcome Fetch.Response;
    goto : nat -> string -> Outcome unit;
    act : nat -> string -> Outcome unit;
    waitForTimeout : nat -> Z -> Outcome unit;
    extract : nat -> string -> Outcome bool;
    table : nat -> Outcome (list Element.Row) }.

Record Session : Type :=
  { llm : World unit;
    outputs : list Output }.

Definition App (A : Type) : Type := Session -> Promise A * Session.

Definition app_ret {A} (a : A) : App A := fun d => (Fulfilled a, d).

Definition app_throw {A} (e : Thrown) : App A := fun d => (Rejected e, d).

Definition app_bind {A B} (m : App A) (f : A -> App B) : App B :=
  fun d =>
    match m d with
    | (Fulfilled a, d') => f a d'
    | (Rejected e, d') => (Rejected e, d')
    | (Pending, d') => (Pending, d')
    end.

(** [try { m } catch (error) { handler }] *)
Definition try_catch {A} (m : App A) (handler : Thrown -> App A) : App A :=
  fun d =>
    match m d with
    | (Fulfilled a, d') => (Fulfilled a, d')
    | (Rejected e, d') => handler e d'
    | (Pending, d') => (Pending, d')
    end.

Definition output (o : Output) : App unit :=
  fun d => (Fulfilled tt, {| llm := llm d; outputs := outputs d ++ [o] |}).

(** An [await] on a call into the outside. *)
Definition await {A} (o : Output) (answer : Outcome A) : App A :=
  fun d =>
    let d' := {| llm := llm d; outputs := outputs d ++ [o] |} in
    match answer with
    | Returns a => (Fulfilled a, d')
    | Throws e => (Rejected e, d')
    end.

(** A call of the client, in the world of the client. *)
Definition with_llm {A} (m : M unit A) : App A :=
  fun d =>
    let (p, w) := m (llm d) in (p, {| llm := w; outputs := outputs d |}).

Definition count (kind : Output -> bool) (d : Session) : nat :=
  List.length (filter kind (outputs d)).

Definition is_question (o : Output) : bool :=
  match o with Question _ => true | _ => false end.

Definition is_evaluate (o : Output) : bool :=
  match o with Evaluate => true | _ => false end.

Definition is_screenshot (o : Output) : bool :=
  match o with Screenshot _ => true | _ => false end.

Definition is_fetch (o : Output) : bool :=
  match o with Fetched _ => true | _ => false end.

Definition is_goto (o : Output) : bool :=
  match o with Goto _ => true | _ => false end.

Definition is_act (o : Output) : bool :=
  match o with Act _ => true | _ => false end.

Definition is_wait (o : Output) : bool :=
  match o with WaitForTimeout _ => true | _ => false end.

Definition is_extract (o : Output) : bool :=
  match o with Extract _ => true | _ => false end.

Definition is_table_script (o : Output) : bool :=
  match o with EvaluateStatus | EvaluateCourses => true | _ => false end.

End Script.

Arguments Output : clear implicits.
Arguments Outside : clear implicits.
Arguments Session : clear implicits.
Arguments App : clear implicits.

Declare Scope app_scope.
Notation "x <- m ;; k" := (app_bind m (fun x => k))
  (at level 61, m at next level, right associativity) : app_scope.
Notation "m ;; k" := (app_bind m (fun _ => k))
  (at level 61, right associativity) : app_scope.
Delimit Scope app_scope with app.

Definition newline : string := String "010" EmptyString.

Section Captcha.

Context {Number : Type}.
(** The product of two numbers of the runtime, the styles of [chalk], and
    the [message] of what is caught when it is not an [Error] of the
    script's own making. *)
Variable times : Number -> Number -> Number.
Variable chalk : Chalk.
Variable engine_message : Thrown -> string.
Variable outside : Outside Number.

(** [error.message] *)
Definition error_message (error : Thrown) : string :=
  match error with
  | Error message => message
  | _ => engine_message error
  end.

(** [promptForCaptcha] (lines 59-65): the answer typed, trimmed.  The
    question is taken to be answered; [Unattended.promptForCaptcha] below
    is for a question that may stay without an answer. *)
Definition promptForCaptcha : App Number string :=
  fun d =>
    await
      (Question
         (yellow_bold chalk
            (newline
             ++ "🔍 Please enter the CAPTCHA text shown in the browser: ")%string))
      (Returns (Text.trim (keyboard outside (count is_question d)))) d.

(** The [clip] of lines 127-132. *)
Definition clip_of (captchaInfo : CaptchaInfo.t Number) : Clip.t Number :=
  {| Clip.x := times (CaptchaInfo.x captchaInfo)
                     (CaptchaInfo.devicePixelRatio captchaInfo);
     Clip.y := times (CaptchaInfo.y captchaInfo)
                     (CaptchaInfo.devicePixelRatio captchaInfo);
     Clip.width := times (CaptchaInfo.width captchaInfo)
                         (CaptchaInfo.devicePixelRatio captchaInfo);
     Clip.height := times (CaptchaInfo.height captchaInfo)
                          (CaptchaInfo.devicePixelRatio captchaInfo) |}.

Definition stagehand_log (category message : string) (level : option Z)
  (auxiliary : list (string * (option string * string))) : App Number unit :=
  output (StagehandLog
            {| Stagehand.category := category;
               Stagehand.message := message;
               Stagehand.level := level;
               Stagehand.auxiliary := auxiliary |}).

(** The [try] block of [solveCaptchaAutomatically] (lines 107-148). *)
Definition recognize_automatically : App Number string :=
  (captchaInfo <- (fun d => await Evaluate
                              (find_captcha outside (count is_evaluate d)) d) ;;
   match captchaInfo with
   | None => app_throw (Error "Could not find CAPTCHA image")
   | Some captchaInfo =>
       screenshotBuffer <-
         (fun d => await (Screenshot (clip_of captchaInfo))
                     (take_screenshot outside (count is_screenshot d)
                        (clip_of captchaInfo)) d) ;;
       stagehand_log "captcha" "Sending CAPTCHA screenshot to LLM" None [] ;;
       captchaText <-
         with_llm (recognizeCaptchaWithLLM (openai outside) screenshotBuffer) ;;
       stagehand_log "captcha"
         ("Automatic CAPTCHA recognition result: " ++ captchaText)%string None
         [("captchaText", (Some captchaText, "string"))] ;;
       output (Announce
                 ("CAPTCHA automatically recognized: "
                  ++ green chalk captchaText)%string
                 "Auto CAPTCHA") ;;
       app_ret captchaText
   end)%app.

(** The [catch] block (lines 149-163). *)
Definition fall_back (error : Thrown) : App Number string :=
  (stagehand_log "error"
     ("Error during automatic CAPTCHA recognition: "
      ++ error_message error)%string (Some 2%Z) [] ;;
   output (Announce
             ("Automatic CAPTCHA recognition failed: "
              ++ error_message error)%string
             "CAPTCHA Error") ;;
   output (Announce "Falling back to manual CAPTCHA input" "Manual Fallback") ;;
   output (ConsoleLog
             (yellow chalk
                "Please look at the browser window and enter the CAPTCHA text shown.")) ;;
   promptForCaptcha)%app.

(** [solveCaptchaAutomatically] (lines 103-164). *)
Definition solveCaptchaAutomatically : App Number string :=
  (stagehand_log "captcha" "Attempting automatic CAPTCHA recognition" None [] ;;
   try_catch recognize_automatically fall_back)%app.

End Captcha.

(** A session in which nothing has happened yet. *)
Definition blank (Number : Type) : Session Number :=
  {| llm := fresh tt; outputs := [] |}.

(* ===================================================================== *)
(** ** The e-mail report of [index.ts] (lines 20-44 and 446-461) *)
(* ===================================================================== *)

Module EmailReq.

Record t : Type :=
  { email : string;
    subject : string;
    body : string }.

End EmailReq.

Definition emailAddresses : list string :=
  ["sarthakkapila1@gmail.com"; "ekomsaidha1@gmail.com"].

Definition is_announce {Number : Type} (o : Output Number) : bool :=
  match o with Announce _ _ => true | _ => false end.

Section Email.

Context {Number : Type}.
(** The styles of [chalk]; the text the template makes of
    [process.env.RESEND_API_KEY]; the text the template makes of what is
    caught; the date and the time the template of the subject reads off
    the clock, by the number of requests sent before; and the outside. *)
Variable chalk : Chalk.
Variable RESEND_API_KEY : string.
Variable error_string : Thrown -> string.
Variable clock : nat -> string * string.
Variable outside : Outside Number.

(** The request of lines 22-34. *)
Definition email_request (input : EmailReq.t) : Fetch.Request :=
  {| Fetch.url := "https://api.resend.com/emails";
     Fetch.method := "POST";
     Fetch.headers :=
       [("Content-Type", "application/json");
        ("Authorization", ("Bearer " ++ RESEND_API_KEY)%string)];
     Fetch.body :=
       JObject
         [("from", JString "PEC Course Monitor <noreply@sarthakkapila.com>");
          ("to", JArray [JString (EmailReq.email input)]);
          ("subject", JString (EmailReq.subject input));
          ("html", JString (EmailReq.body input))] |}.

(** An [await] on something that is already there, such as
    [res.json()]. *)
Definition settled {A} (answer : Outcome A) : App Number A :=
  fun d =>
    match answer with
    | Returns a => (Fulfilled a, d)
    | Throws e => (Rejected e, d)
    end.

(** [sendEmail] (lines 21-44); [JNull] is the [null] of line 42. *)
Definition sendEmail (input : EmailReq.t) : App Number JsonValue :=
  (res <- (fun d => await (Fetched (email_request input))
                      (network outside (count is_fetch d) (email_request input))
                      d) ;;
   if Fetch.ok res then
     data <- settled (Fetch.json res) ;;
     output (ConsoleLog (green chalk "✅ Email sent successfully")) ;;
     app_ret data
   else
     output (ConsoleLog (red chalk "❌ Failed to send email")) ;;
     app_ret JNull)%app.

(** The subject of line 453. *)
Definition subject_at (n : nat) : string :=
  ("PEC Course Monitor - " ++ fst (clock n) ++ " " ++ snd (clock n))%string.

(** One turn of the loop of lines 449-461. *)
Definition send_summary (emailBody email : string) : App Number unit :=
  try_catch
    ((fun d =>
        sendEmail {| EmailReq.email := email;
                     EmailReq.subject := subject_at (count is_fetch d);
                     EmailReq.body := emailBody |} d) ;;
     output (Announce ("📧 Email summary sent to " ++ email)%string
                      "Email Notification"))%app
    (fun error =>
       stagehand_log "error"
         ("Failed to send email to " ++ email ++ ": " ++ error_string error)%string
         None [] ;;
       output (Announce ("❌ Failed to send email summary to " ++ email)%string
                        "Email Error"))%app.

(** The loop of lines 449-461 over the addresses given. *)
Fixpoint send_summaries (emailBody : string) (addresses : list string)
  : App Number unit :=
  match addresses with
  | [] => app_ret tt
  | email :: rest =>
      (send_summary emailBody email ;; send_summaries emailBody rest)%app
  end.

(** Whether a turn ends in the [try] block: the request was answered
    and, when the answer is [ok], its body could be read. *)
Definition answered (answer : Outcome Fetch.Response) : bool :=
  match answer with
  | Returns res =>
      if Fetch.ok res
      then match Fetch.json res with Returns _ => true | Throws _ => false end
      else true
  | Throws _ => false
  end.

End Email.

(** The requests a session sent with [fetch], oldest first. *)
Fixpoint fetched {Number : Type} (outputs : list (Output Number))
  : list Fetch.Request :=
  match outputs with
  | [] => []
  | Fetched request :: rest => request :: fetched rest
  | _ :: rest => fetched rest
  end.

(** A value for each address of a list, by its place from [n] on. *)
Fixpoint turns {A : Type} (f : nat -> string -> A) (n : nat)
  (addresses : list string) : list A :=
  match addresses with
  | [] => []
  | email :: rest => f n email :: turns f (S n) rest
  end.

(* ===================================================================== *)
(** ** One check of the monitor, [index.ts] (lines 166-481) *)
(* ===================================================================== *)

From Stdlib Require Import DecimalString.

Definition dquote : string := String "034" EmptyString.

(** [String(n)] for a length. *)
Definition decimal (n : nat) : string :=
  NilEmpty.string_of_uint (Nat.to_uint n).

(** [String(b)] *)
Definition boolean_text (b : bool) : string :=
  if b then "true" else "false".

(** [s.toUpperCase()] on the letters a to z; the script applies it to a
    checkbox state, which is one of [checked], [unchecked] and
    [not_found]. *)
Definition toUpperCase (s : string) : string :=
  string_of_list_ascii
    (map (fun c =>
            let n := nat_of_ascii c in
            if (97 <=? n) && (n <=? 122) then ascii_of_nat (n - 32) else c)
         (list_ascii_of_string s)).

(** [JSON.stringify] of a string: quoted, with the quote, the backslash
    and the control characters escaped. *)
Module Stringify.

Definition hex (n : nat) : ascii :=
  if n <? 10 then ascii_of_nat (48 + n) else ascii_of_nat (87 + n).

Definition escaped (c : ascii) : list ascii :=
  let n := nat_of_ascii c in
  if n =? 34 then ["\"; "034"]%char
  else if n =? 92 then ["\"; "\"]%char
  else if n =? 8 then ["\"; "b"]%char
  else if n =? 12 then ["\"; "f"]%char
  else if n =? 10 then ["\"; "n"]%char
  else if n =? 13 then ["\"; "r"]%char
  else if n =? 9 then ["\"; "t"]%char
  else if n <? 32 then ["\"; "u"; "0"; "0"; hex (n / 16); hex (n mod 16)]%char
  else [c].

Definition text (s : string) : string :=
  (dquote
   ++ string_of_list_ascii (flat_map escaped (list_ascii_of_string s))
   ++ dquote)%string.

Definition course (c : Course) : string :=
  ("{" ++ text "courseCode" ++ ":" ++ text (courseCode c)
   ++ "," ++ text "courseName" ++ ":" ++ text (courseName c)
   ++ "," ++ text "isSelectable" ++ ":" ++ boolean_text (isSelectable c)
   ++ "," ++ text "isVisible" ++ ":" ++ boolean_text (isVisible c)
   ++ "," ++ text "checkboxState" ++ ":" ++ text (checkboxState c)
   ++ "," ++ text "onclick" ++ ":" ++ text (onclick c) ++ "}")%string.

(** [JSON.stringify(allCourses)] *)
Definition courses (l : list Course) : string :=
  ("[" ++ String.concat "," (map course l) ++ "]")%string.

End Stringify.

Definition email_part_0 : string :=
  (newline ++ "        <h2>🎯 PEC Course Monitor Summary</h2>" ++ newline
   ++ "        <p><strong>Timestamp:</strong> ")%string.

Definition email_part_1 : string :=
  ("</p>" ++ newline ++ "        " ++ newline
   ++ "        <h3>🎯 Special Priority Course: CS6701 COMPUTER NETWORKS</h3>"
   ++ newline ++ "        <ul>" ++ newline
   ++ "          <li><strong>Visible:</strong> ")%string.

Definition email_part_2 : string :=
  ("</li>" ++ newline ++ "          <li><strong>Selectable:</strong> ")%string.

Definition email_part_3 : string :=
  ("</li>" ++ newline ++ "          <li><strong>Checkbox State:</strong> ")%string.

Definition email_part_4 : string :=
  ("</li>" ++ newline ++ "        </ul>" ++ newline ++ "        " ++ newline
   ++ "        <h3>📋 All Courses Summary (")%string.

Definition email_part_5 : string :=
  (" total)</h3>" ++ newline ++ "        <table border=" ++ dquote ++ "1"
   ++ dquote ++ " style=" ++ dquote
   ++ "border-collapse: collapse; width: 100%;" ++ dquote ++ ">" ++ newline
   ++ "          <thead>" ++ newline ++ "            <tr style=" ++ dquote
   ++ "background-color: #f0f0f0;" ++ dquote ++ ">" ++ newline
   ++ "              <th style=" ++ dquote
   ++ "padding: 8px; text-align: left;" ++ dquote ++ ">Course Code</th>"
   ++ newline ++ "              <th style=" ++ dquote
   ++ "padding: 8px; text-align: left;" ++ dquote ++ ">Course Name</th>"
   ++ newline ++ "              <th style=" ++ dquote
   ++ "padding: 8px; text-align: center;" ++ dquote ++ ">Visible</th>"
   ++ newline ++ "              <th style=" ++ dquote
   ++ "padding: 8px; text-align: center;" ++ dquote ++ ">Selectable</th>"
   ++ newline ++ "              <th style=" ++ dquote
   ++ "padding: 8px; text-align: center;" ++ dquote ++ ">Checkbox</th>"
   ++ newline ++ "            </tr>" ++ newline ++ "          </thead>"
   ++ newline ++ "          <tbody>" ++ newline ++ "            ")%string.

Definition email_part_6 : string :=
  (newline ++ "          </tbody>" ++ newline ++ "        </table>"
   ++ newline ++ "        " ++ newline
   ++ "        <p><em>This is an automated summary from your PEC Course Monitor Scout.</em></p>"
   ++ newline ++ "      ")%string.

Definition email_row_part_0 : string :=
  (newline ++ "              <tr>" ++ newline ++ "                <td style="
   ++ dquote ++ "padding: 8px; border: 1px solid #ddd;" ++ dquote ++ ">")%string.

Definition email_row_part_1 : string :=
  ("</td>" ++ newline ++ "                <td style=" ++ dquote
   ++ "padding: 8px; border: 1px solid #ddd;" ++ dquote ++ ">")%string.

Definition email_row_part_2 : string :=
  ("</td>" ++ newline ++ "                <td style=" ++ dquote
   ++ "padding: 8px; border: 1px solid #ddd; text-align: center; color: ")%string.

Definition email_row_part_3 : string :=
  (";" ++ dquote ++ ">")%string.

Definition email_row_part_4 : string :=
  ("</td>" ++ newline ++ "                <td style=" ++ dquote
   ++ "padding: 8px; border: 1px solid #ddd; text-align: center; color: ")%string.

Definition email_row_part_5 : string :=
  (";" ++ dquote ++ ">")%string.

Definition email_row_part_6 : string :=
  ("</td>" ++ newline ++ "                <td style=" ++ dquote
   ++ "padding: 8px; border: 1px solid #ddd; text-align: center;" ++ dquote
   ++ ">")%string.

Definition email_row_part_7 : string :=
  ("</td>" ++ newline ++ "              </tr>" ++ newline ++ "            ")%string.

Definition PEC_URL : string := "https://pec.edu.in".

Definition CHECK_INTERVAL_MS : Z := (60 * 60 * 1000)%Z.

Definition yes_no (b : bool) : string := if b then "YES" else "NO".

Definition green_red (b : bool) : string := if b then "green" else "red".

(** One row of the table of the report (lines 431-439). *)
Definition email_row (course : Course) : string :=
  (email_row_part_0 ++ courseCode course
   ++ email_row_part_1 ++ courseName course
   ++ email_row_part_2 ++ green_red (isVisible course)
   ++ email_row_part_3 ++ yes_no (isVisible course)
   ++ email_row_part_4 ++ green_red (isSelectable course)
   ++ email_row_part_5 ++ yes_no (isSelectable course)
   ++ email_row_part_6 ++ toUpperCase (checkboxState course)
   ++ email_row_part_7)%string.

(** The [emailBody] of lines 408-444; [timestamp] is what
    [new Date().toLocaleString()] gives. *)
Definition emailBody_of (timestamp : string) (status : Priority.Status)
  (courses : list Course) : string :=
  (email_part_0 ++ timestamp
   ++ email_part_1 ++ yes_no (Priority.isVisible status)
   ++ email_part_2 ++ yes_no (Priority.isSelectable status)
   ++ email_part_3 ++ toUpperCase (Priority.checkboxState status)
   ++ email_part_4 ++ decimal (List.length courses)
   ++ email_part_5 ++ String.concat "" (map email_row courses)
   ++ email_part_6)%string.

Section Monitor.

Context {Number : Type}.
(** The runtime and the environment of the script: the product of two
    numbers; the styles of [chalk]; the [message] of what is caught when
    it is not an [Error] of the script's own making, and the text a
    template makes of it; the texts the templates make of the
    environment variables [RESEND_API_KEY], [USERNAME] and [PASSWORD];
    the date and time of the subject of a report and the time stamp of
    its body, each by the number of requests sent before it is read off
    the clock; and the outside. *)
Variable times : Number -> Number -> Number.
Variable chalk : Chalk.
Variable engine_message : Thrown -> string.
Variable error_string : Thrown -> string.
Variable RESEND_API_KEY : string.
Variable USERNAME : string.
Variable PASSWORD : string.
Variable clock : nat -> string * string.
Variable timestamp : nat -> string.
Variable outside : Outside Number.

Definition announce (message title : string) : App Number unit :=
  output (Announce message title).

(** [stagehand.log({ category, message })] *)
Definition note (category message : string) : App Number unit :=
  stagehand_log category message None [].

Definition page_goto (url : string) : App Number unit :=
  fun d => await (Goto url) (goto outside (count is_goto d) url) d.

Definition page_act (instruction : string) : App Number unit :=
  fun d => await (Act instruction) (act outside (count is_act d) instruction) d.

Definition page_waitForTimeout (ms : Z) : App Number unit :=
  fun d =>
    await (WaitForTimeout ms) (waitForTimeout outside (count is_wait d) ms) d.

Definition page_extract (instruction : string) : App Number bool :=
  fun d =>
    await (Extract instruction)
          (extract outside (count is_extract d) instruction) d.

(** [page.evaluate] with one of the two scripts on the table: the script
    is run on the rows the page has then. *)
Definition page_table {A : Type} (which : Output Number)
  (script : list Element.Row -> A) : App Number A :=
  fun d =>
    await which
          match table outside (count is_table_script d) with
          | Returns courseRows => Returns (script courseRows)
          | Throws e => Throws e
          end d.

(** Steps 1 to 6, up to the first look at the login (lines 177-219). *)
Definition log_in : App Number bool :=
  (announce "Starting course availability check" "PEC Course Monitor" ;;
   note "navigation" "Navigating to PEC website" ;;
   page_goto PEC_URL ;;
   note "action" "Clicking login with AIS credentials" ;;
   page_act "Click the button that says 'Login with AIS Credentials'" ;;
   page_waitForTimeout 2000 ;;
   note "action" "Entering username" ;;
   page_act ("Type " ++ dquote ++ USERNAME ++ dquote
             ++ " into the username field")%string ;;
   page_waitForTimeout 1000 ;;
   note "action" "Entering password" ;;
   page_act ("Type " ++ dquote ++ PASSWORD ++ dquote
             ++ " into the password field")%string ;;
   page_waitForTimeout 1000 ;;
   note "action" "Handling CAPTCHA automatically" ;;
   captchaText <- solveCaptchaAutomatically times chalk engine_message outside ;;
   page_act ("Type " ++ dquote ++ captchaText ++ dquote
             ++ " into the CAPTCHA input field")%string ;;
   page_waitForTimeout 1000 ;;
   note "action" "Clicking login button" ;;
   page_act "Click the 'Log in' button" ;;
   page_waitForTimeout 5000 ;;
   page_extract
     "Check if we are logged in by looking for user profile elements or dashboard elements")%app.

Definition login_failed : string :=
  "Login failed after manual CAPTCHA. Please check credentials or CAPTCHA.".

(** The branch on the login (lines 221-243). *)
Definition confirm_login (isLoggedIn : bool) : App Number unit :=
  (if negb isLoggedIn then
     announce
       "Automatic CAPTCHA recognition failed. Please enter CAPTCHA manually."
       "Manual CAPTCHA Required" ;;
     captchaTextManual <- promptForCaptcha chalk outside ;;
     page_act ("Type " ++ dquote ++ captchaTextManual ++ dquote
               ++ " into the CAPTCHA input field")%string ;;
     page_waitForTimeout 1000 ;;
     isLoggedInManual <-
       page_extract "Check if we are logged in after manual CAPTCHA input" ;;
     (if negb isLoggedInManual then
        announce login_failed "Login Failed" ;;
        app_throw (Error login_failed)
      else app_ret tt) ;;
     announce "Login successful!" "Login Success"
   else announce "Login successful!" "Login Success")%app.

(** The text of the checkbox line of an announcement. *)
Definition checkbox_text (checkboxState : string) : string :=
  if (checkboxState =? "checked")%string then blue chalk "CHECKED"
  else if (checkboxState =? "unchecked")%string then yellow chalk "UNCHECKED"
  else red chalk "NOT FOUND".

Definition yes_no_colored (b : bool) : string :=
  if b then green chalk "YES" else red chalk "NO".

(** [String(value)] of a field that may be [undefined]. *)
Definition or_undefined (value : option string) : string :=
  match value with Some s => s | None => "undefined" end.

(** Steps 7 to 9 (lines 245-316). *)
Definition check_priority : App Number Priority.Status :=
  (note "navigation" "Navigating to Add & Drop Courses" ;;
   page_act "Click on the 'Add & Drop Courses' link in the menu" ;;
   page_waitForTimeout 3000 ;;
   note "action" "Clicking on Add/Drop Courses button" ;;
   page_act "Click on the button that says 'Click Here for Add/Drop Courses'" ;;
   page_waitForTimeout 5000 ;;
   note "check"
     "Checking if CS6701 COMPUTER NETWORKS is selectable (SPECIAL PRIORITY)" ;;
   status <- page_table EvaluateStatus cs6701Status ;;
   stagehand_log "result"
     "CS6701 COMPUTER NETWORKS course status (SPECIAL PRIORITY):" None
     [("isVisible", (Some (boolean_text (Priority.isVisible status)), "string"));
      ("isSelectable",
       (Some (boolean_text (Priority.isSelectable status)), "string"));
      ("checkboxState", (Some (Priority.checkboxState status), "string"));
      ("onclick", (Priority.onclick status, "string"))] ;;
   announce
     ("🎯 SPECIAL PRIORITY COURSE: CS6701 COMPUTER NETWORKS" ++ newline
      ++ "Visible: " ++ yes_no_colored (Priority.isVisible status) ++ newline
      ++ "Selectable: " ++ yes_no_colored (Priority.isSelectable status)
      ++ newline
      ++ "Checkbox: " ++ checkbox_text (Priority.checkboxState status)
      ++ newline
      ++ "onclick: " ++ cyan chalk (or_undefined (Priority.onclick status)))%string
     "Course Status" ;;
   app_ret status)%app.

(** The lines of a course in the announcement of step 10. *)
Definition course_text (course : Course) : string :=
  (courseCode course ++ " " ++ courseName course ++ newline
   ++ "  Visible: " ++ yes_no_colored (isVisible course) ++ newline
   ++ "  Selectable: " ++ yes_no_colored (isSelectable course) ++ newline
   ++ "  Checkbox: " ++ checkbox_text (checkboxState course) ++ newline
   ++ "  onclick: " ++ cyan chalk (onclick course))%string.

(** Step 10 (lines 318-402). *)
Definition check_all : App Number (list Course) :=
  (note "check" "Checking ALL courses on the page" ;;
   courses <- page_table EvaluateCourses allCourses ;;
   stagehand_log "result" "All courses status:" None
     [("totalCourses", (Some (decimal (List.length courses)), "string"));
      ("courses", (Some (Stringify.courses courses), "string"))] ;;
   announce
     ("📋 ALL COURSES ON PAGE (" ++ decimal (List.length courses)
      ++ " total):" ++ newline
      ++ String.concat (newline ++ newline) (map course_text courses))%string
     "All Courses Status" ;;
   app_ret courses)%app.

(** Step 11 and what follows it in the [try] block (lines 404-474). *)
Definition report_and_leave (status : Priority.Status) (courses : list Course)
  : App Number unit :=
  (note "email" "Preparing email summary" ;;
   (fun d =>
      send_summaries chalk RESEND_API_KEY error_string clock outside
        (emailBody_of (timestamp (count is_fetch d)) status courses)
        emailAddresses d) ;;
   note "action" "Logging out" ;;
   try_catch
     (page_act "Click on the logout button or link" ;;
      page_waitForTimeout 2000)
     (fun _ => note "warning" "Couldn't find logout button, continuing anyway") ;;
   announce ("Next check in " ++ decimal 60 ++ " minutes")%string "Schedule" ;;
   page_waitForTimeout CHECK_INTERVAL_MS)%app.

(** The [try] block of the loop (lines 176-475). *)
Definition check : App Number unit :=
  (isLoggedIn <- log_in ;;
   confirm_login isLoggedIn ;;
   status <- check_priority ;;
   courses <- check_all ;;
   report_and_leave status courses)%app.

(** The [catch] block of the loop (lines 476-479). *)
Definition retry_later (error : Thrown) : App Number unit :=
  (announce ("Error: " ++ error_message engine_message error ++ newline
             ++ "Retrying in 1 minute...")%string "Error" ;;
   page_waitForTimeout 60000)%app.

(** One turn of the loop of [monitorCourseAvailability]. *)
Definition check_once : App Number unit :=
  try_catch check retry_later.

(** [monitorCourseAvailability]: the loop has no exit, so the call is
    pending after any number of turns, unless a turn throws. *)
Fixpoint monitorCourseAvailability (turns : nat) : App Number unit :=
  match turns with
  | O => fun d => (Pending, d)
  | S turns' => (check_once ;; monitorCourseAvailability turns')%app
  end.

End Monitor.

(** Styles that leave a text as it is, and an outside in which the page
    does what it is asked. *)
Definition plain : Chalk :=
  {| green := fun s => s; red := fun s => s; yellow := fun s => s;
     yellow_bold := fun s => s; blue := fun s => s; cyan := fun s => s |}.

Definition calm (openai : OpenAI.Client)
  (find_captcha : nat -> Outcome (option (CaptchaInfo.t nat)))
  (keyboard : nat -> string)
  (network : nat -> Fetch.Request -> Outcome Fetch.Response)
  (extract : nat -> string -> Outcome bool)
  (table : nat -> Outcome (list Element.Row)) : Outside nat :=
  {| openai := openai;
     find_captcha := find_captcha;
     take_screenshot := fun _ _ => Returns [x4d; x61; x6e]%byte;
     keyboard := keyboard;
     network := network;
     goto := fun _ _ => Returns tt;
     act := fun _ _ => Returns tt;
     waitForTimeout := fun _ _ => Returns tt;
     extract := extract;
     table := table |}.

(** Three properties of a part of the script: it settles; it only adds
    to the outputs; it adds no output of a given kind. *)
Definition settling {Number A : Type} (m : App Number A) : Prop :=
  forall d, fst (m d) <> Pending.

Definition adding {Number A : Type} (m : App Number A) : Prop :=
  forall d, exists new, outputs (snd (m d)) = outputs d ++ new.

Definition keeping {Number : Type} (kind : Output Number -> bool) {A : Type}
  (m : App Number A) : Prop :=
  forall d, filter kind (outputs (snd (m d))) = filter kind (outputs d).

(** It is fulfilled whatever happens; it is never fulfilled; it is never
    fulfilled with a given value. *)
Definition unfailing {Number A : Type} (m : App Number A) : Prop :=
  forall d, exists a, fst (m d) = Fulfilled a.

Definition failing {Number A : Type} (m : App Number A) : Prop :=
  forall d a, fst (m d) <> Fulfilled a.

Definition never {Number A : Type} (a : A) (m : App Number A) : Prop :=
  forall d, fst (m d) <> Fulfilled a.

(** The last thing it does is to wait [ms] milliseconds, and it ends as
    that wait ends; and the same of the runs that are fulfilled. *)
Definition ending {Number : Type} (outside : Outside Number) (ms : Z)
  (m : App Number unit) : Prop :=
  forall d, exists before,
    outputs (snd (m d)) = outputs d ++ before ++ [WaitForTimeout ms]
    /\ fst (m d)
       = match waitForTimeout outside
                 (count is_wait d + List.length (filter is_wait before)) ms with
         | Returns _ => Fulfilled tt
         | Throws e => Rejected e
         end.

Definition closing {Number : Type} (ms : Z) (m : App Number unit) : Prop :=
  forall d, fst (m d) = Fulfilled tt ->
            exists before,
              outputs (snd (m d)) = outputs d ++ before ++ [WaitForTimeout ms].


(** What a part of the script does from a session in [P]: it is
    fulfilled, with a value and a session in [Q]. *)
Definition leads {Number A : Type} (P : Session Number -> Prop)
  (m : App Number A) (Q : A -> Session Number -> Prop) : Prop :=
  forall d, P d -> exists a, fst (m d) = Fulfilled a /\ Q a (snd (m d)).

(** The session has seen [e] looks at the login, [t] scans of the table
    and the requests [f]. *)
Definition seen {Number : Type} (e t : nat) (f : list Fetch.Request)
  (d : Session Number) : Prop :=
  count is_extract d = e
  /\ count is_table_script d = t
  /\ fetched (outputs d) = f.

(** A page on which every click, load and wait goes through. *)
Definition obliging {Number : Type} (outside : Outside Number) : Prop :=
  (forall n url, goto outside n url = Returns tt)
  /\ (forall n instruction, act outside n instruction = Returns tt)
  /\ (forall n ms, waitForTimeout outside n ms = Returns tt).

(* ===================================================================== *)
(** ** A logger that throws *)
(* ===================================================================== *)

(** The [logger] of the options is a function of the caller's, and none
    of its three calls (lines 58, 92 and 238) is in a [try] block.  Above
    it is taken to return; here a call of it leaves the sink in some
    state and returns or throws. *)
Module Throwing.

Definition Logger (Sink : Type) : Type :=
  LogLine.t -> Sink -> Sink * option Thrown.

(** [logger(line)]. *)
Definition log {Sink : Type} (logger : Logger Sink) (line : LogLine.t)
  : M Sink unit :=
  fun w =>
    let (s, thrown) := logger line (sink w) in
    (match thrown with
     | None => Fulfilled tt
     | Some e => Rejected e
     end,
     {| sink := s; events := events w ++ [Logged line] |}).

(** The body of the method, lines 56-252, and then [settle] for lines
    254-290. *)
Fixpoint attempt {Sink : Type} (fuel : nat) (self : CustomOpenAIClient)
  (options : ChatCompletionOptions) (retries : Z)
  (logger : Logger Sink) {struct fuel} : M Sink Completion :=
  match fuel with
  | O => fun w => (Pending, w)
  | S fuel' =>
      log logger (creating_line self options) ;;
      log logger (openaiOptions_line self options) ;;
      let (formattedMessages, warnings) :=
        formatMessages (image options) (messages options) in
      warn_all warnings ;;
      response <- create (client self) (body self options formattedMessages) ;;
      log logger (response_line options response) ;;
      settle options retries response
        (attempt fuel' self options (retries - 1)%Z logger)
  end.

Definition createChatCompletion {Sink : Type} (self : CustomOpenAIClient)
  (options : ChatCompletionOptions) (retries : option Z)
  (logger : Logger Sink) : M Sink Completion :=
  let n := match retries with Some r => r | None => default_retries end in
  attempt (S (Z.to_nat n)) self options n logger.

End Throwing.

(** A logger that returns, as one that may throw. *)
Definition returning {Sink : Type} (logger : LogLine.t -> Sink -> Sink)
  : Throwing.Logger Sink :=
  fun line s => (logger line s, None).

(** A logger that keeps the records it is given and throws on the record
    of a response. *)
Definition choking : Throwing.Logger (list LogLine.t) :=
  fun line kept =>
    (kept ++ [line],
     if (LogLine.message line =? "response")%string
     then Some (Error "log is full")
     else None).

(* ===================================================================== *)
(** ** A keyboard with nobody at it *)
(* ===================================================================== *)

(** An [await] on a promise that is resolved by a call back, if the call
    back ever comes. *)
Definition asked {Number A : Type} (o : Output Number) (answer : option A)
  : App Number A :=
  fun d =>
    let d' := {| llm := llm d; outputs := outputs d ++ [o] |} in
    match answer with
    | Some a => (Fulfilled a, d')
    | None => (Pending, d')
    end.

(** The promise of [promptForCaptcha] is resolved in the call back of
    [rl.question], and nothing else resolves or rejects it.  Above the
    question is taken to be answered; here it may stay without an answer,
    and the script with it.  The functions are those of above that come
    to ask. *)
Module Unattended.

Section Script.

Context {Number : Type}.
Variable times : Number -> Number -> Number.
Variable chalk : Chalk.
Variable engine_message : Thrown -> string.
Variable error_string : Thrown -> string.
Variable RESEND_API_KEY : string.
Variable USERNAME : string.
Variable PASSWORD : string.
Variable clock : nat -> string * string.
Variable timestamp : nat -> string.
Variable outside : Outside Number.
(** The answer typed to a question, by the number of questions asked
    before, when somebody types one. *)
Variable typed : nat -> option string.

(** [promptForCaptcha] (lines 59-65). *)
Definition promptForCaptcha : App Number string :=
  fun d =>
    asked
      (Question
         (yellow_bold chalk
            (newline
             ++ "🔍 Please enter the CAPTCHA text shown in the browser: ")%string))
      (option_map Text.trim (typed (count is_question d))) d.

(** The [catch] block of [solveCaptchaAutomatically] (lines 149-163). *)
Definition fall_back (error : Thrown) : App Number string :=
  (stagehand_log "error"
     ("Error during automatic CAPTCHA recognition: "
      ++ error_message engine_message error)%string (Some 2%Z) [] ;;
   output (Announce
             ("Automatic CAPTCHA recognition failed: "
              ++ error_message engine_message error)%string
             "CAPTCHA Error") ;;
   output (Announce "Falling back to manual CAPTCHA input" "Manual Fallback") ;;
   output (ConsoleLog
             (yellow chalk
                "Please look at the browser window and enter the CAPTCHA text shown.")) ;;
   promptForCaptcha)%app.

(** [solveCaptchaAutomatically] (lines 103-164). *)
Definition solveCaptchaAutomatically : App Number string :=
  (stagehand_log "captcha" "Attempting automatic CAPTCHA recognition" None [] ;;
   try_catch (recognize_automatically times chalk outside) fall_back)%app.

(** Steps 1 to 6, up to the first look at the login (lines 177-219). *)
Definition log_in : App Number bool :=
  (announce "Starting course availability check" "PEC Course Monitor" ;;
   note "navigation" "Navigating to PEC website" ;;
   page_goto outside PEC_URL ;;
   note "action" "Clicking login with AIS credentials" ;;
   page_act outside "Click the button that says 'Login with AIS Credentials'" ;;
   page_waitForTimeout outside 2000 ;;
   note "action" "Entering username" ;;
   page_act outside
     ("Type " ++ dquote ++ USERNAME ++ dquote
      ++ " into the username field")%string ;;
   page_waitForTimeout outside 1000 ;;
   note "action" "Entering password" ;;
   page_act outside
     ("Type " ++ dquote ++ PASSWORD ++ dquote
      ++ " into the password field")%string ;;
   page_waitForTimeout outside 1000 ;;
   note "action" "Handling CAPTCHA automatically" ;;
   captchaText <- solveCaptchaAutomatically ;;
   page_act outside
     ("Type " ++ dquote ++ captchaText ++ dquote
      ++ " into the CAPTCHA input field")%string ;;
   page_waitForTimeout outside 1000 ;;
   note "action" "Clicking login button" ;;
   page_act outside "Click the 'Log in' button" ;;
   page_waitForTimeout outside 5000 ;;
   page_extract outside
     "Check if we are logged in by looking for user profile elements or dashboard elements")%app.

(** The branch on the login (lines 221-243). *)
Definition confirm_login (isLoggedIn : bool) : App Number unit :=
  (if negb isLoggedIn then
     announce
       "Automatic CAPTCHA recognition failed. Please enter CAPTCHA manually."
       "Manual CAPTCHA Required" ;;
     captchaTextManual <- promptForCaptcha ;;
     page_act outside
       ("Type " ++ dquote ++ captchaTextManual ++ dquote
        ++ " into the CAPTCHA input field")%string ;;
     page_waitForTimeout outside 1000 ;;
     isLoggedInManual <-
       page_extract outside
         "Check if we are logged in after manual CAPTCHA input" ;;
     (if negb isLoggedInManual then
        announce login_failed "Login Failed" ;;
        app_throw (Error login_failed)
      else app_ret tt) ;;
     announce "Login successful!" "Login Success"
   else announce "Login successful!" "Login Success")%app.

(** The [try] block of the loop (lines 176-475). *)
Definition check : App Number unit :=
  (isLoggedIn <- log_in ;;
   confirm_login isLoggedIn ;;
   status <- check_priority chalk outside ;;
   courses <- check_all chalk outside ;;
   report_and_leave chalk error_string RESEND_API_KEY clock timestamp outside
     status courses)%app.

(** One turn of the loop of [monitorCourseAvailability]. *)
Definition check_once : App Number unit :=
  try_catch check (retry_later engine_message outside).

End Script.

End Unattended.

(** A part of the script is left pending only by a question that nobody
    answers: the question is the last thing it did. *)
Definition stalling {Number A : Type} (typed : nat -> option string)
  (m : App Number A) : Prop :=
  forall d,
    fst (m d) = Pending ->
    exists before query,
      outputs (snd (m d)) = outputs d ++ before ++ [Question query]
      /\ typed (count is_question d
                + List.length (filter is_question before)) = None.
(* ===================================================================== *)
(** * Properties *)
(* ===================================================================== *)

(** ** The runtime services *)

Module LexerFacts.
Import Lexer.

Lemma skip_ws_length (l : list ascii) :
  List.length (skip_ws l) <= List.length l.
Proof.
  induction l as [|c l IH]; simpl; [lia|].
  destruct (is_ws c); simpl; lia.
Qed.

Lemma skip_ws_cons (l r : list ascii) (c : ascii) :
  skip_ws l = c :: r -> List.length r < List.length l.
Proof.
  intros H. pose proof (skip_ws_length l) as Hl.
  rewrite H in Hl. simpl in Hl. lia.
Qed.

Lemma digits_length (l : list ascii) :
  List.length (snd (digits l)) <= List.length l.
Proof.
  induction l as [|c l IH]; simpl; [lia|].
  destruct (is_digit c); simpl; [|lia].
  destruct (digits l) as [ds r]. simpl in *. lia.
Qed.

Lemma digits_rest (l ds r : list ascii) :
  digits l = (ds, r) -> List.length r <= List.length l.
Proof.
  intros H. pose proof (digits_length l) as Hl. rewrite H in Hl. exact Hl.
Qed.

Lemma strip_prefix_length (p l r : list ascii) :
  strip_prefix p l = Some r -> List.length r <= List.length l.
Proof.
  revert l. induction p as [|a p IH]; intros l H; simpl in H.
  - injection H as <-. lia.
  - destruct l as [|b l]; [discriminate|].
    destruct (a =? b)%char; [|discriminate].
    apply IH in H. simpl. lia.
Qed.

Lemma string_body_length (l s r : list ascii) :
  string_body l = Some (s, r) -> List.length r < List.length l.
Proof.
  remember (List.length l) as n eqn:Hn.
  revert l s r Hn.
  induction n as [n IH] using lt_wf_ind. intros l s r Hn H.
  destruct l as [|c rest]; simpl in H; [discriminate|].
  simpl in Hn.
  destruct (c =? "034")%char.
  { injection H as _ <-. lia. }
  destruct (c =? "\")%char.
  - destruct rest as [|e rest1]; [discriminate|].
    destruct (e =? "u")%char.
    + destruct rest1 as [|h1 [|h2 [|h3 [|h4 rest2]]]]; try discriminate.
      destruct (hex4 h1 h2 h3 h4); [|discriminate].
      destruct (string_body rest2) as [[s' r']|] eqn:E; [|discriminate].
      injection H as _ <-.
      apply (IH (List.length rest2)) in E; simpl in *; lia.
    + destruct (escape e); [|discriminate].
      destruct (string_body rest1) as [[s' r']|] eqn:E; [|discriminate].
      injection H as _ <-.
      apply (IH (List.length rest1)) in E; simpl in *; lia.
  - destruct (nat_of_ascii c <? 32); [discriminate|].
    destruct (string_body rest) as [[s' r']|] eqn:E; [|discriminate].
    injection H as _ <-.
    apply (IH (List.length rest)) in E; simpl in *; lia.
Qed.

Lemma number_length (l lit r : list ascii) :
  number l = Some (lit, r) -> List.length r < List.length l.
Proof.
  unfold number. intros H.
  assert (Hsign : forall sign l1,
    (match l with
     | c :: r => if (c =? "-")%char then ([c], r) else ([], l)
     | [] => ([], l)
     end) = (sign, l1) -> List.length l1 <= List.length l).
  { intros sign l1 E. destruct l as [|c r0].
    - injection E as _ <-. lia.
    - destruct (c =? "-")%char; injection E as _ <-; simpl; lia. }
  destruct (match l with
     | c :: r => if (c =? "-")%char then ([c], r) else ([], l)
     | [] => ([], l)
     end) as [sign l1] eqn:Es.
  specialize (Hsign _ _ eq_refl).
  destruct l1 as [|d r1]; [discriminate|].
  destruct (negb (is_digit d)); [discriminate|].
  simpl in Hsign.
  destruct (if (d =? "0")%char then ([d], r1)
            else let (ds, r0) := digits r1 in (d :: ds, r0))
    as [int r2] eqn:Ei.
  assert (H2 : List.length r2 <= List.length r1).
  { destruct (d =? "0")%char.
    - injection Ei as _ <-. lia.
    - destruct (digits r1) as [ds r0] eqn:Ed. injection Ei as _ <-.
      eapply digits_rest; eauto. }
  match type of H with
  | match ?f with _ => _ end = _ => destruct f as [[fr r5]|] eqn:Ef
  end; [|discriminate].
  assert (H5 : List.length r5 <= List.length r2).
  { destruct r2 as [|c r3].
    - injection Ef as _ <-. lia.
    - destruct (c =? ".")%char.
      + destruct (digits r3) as [ds r4] eqn:Ed.
        apply digits_rest in Ed.
        destruct ds; [discriminate|]. injection Ef as _ <-. simpl. lia.
      + injection Ef as _ <-. lia. }
  match type of H with
  | match ?f with _ => _ end = _ => destruct f as [[ex r9]|] eqn:Ee
  end; [|discriminate].
  injection H as _ <-.
  enough (List.length r9 <= List.length r5) by lia.
  destruct r5 as [|c r6].
  - injection Ee as _ <-. lia.
  - destruct ((c =? "e") || (c =? "E"))%char.
    + match type of Ee with
      | (let (_, _) := ?f in _) = _ => destruct f as [sg r7] eqn:Eg
      end.
      assert (H7 : List.length r7 <= List.length r6).
      { destruct r6 as [|s0 r0].
        - injection Eg as _ <-. lia.
        - destruct ((s0 =? "+") || (s0 =? "-"))%char;
            injection Eg as _ <-; simpl; lia. }
      destruct (digits r7) as [ds r8] eqn:Ed.
      apply digits_rest in Ed.
      destruct ds; [discriminate|]. injection Ee as _ <-. simpl. lia.
    + injection Ee as _ <-. lia.
Qed.

End LexerFacts.

Module ParserFacts.
Import Lexer Parser LexerFacts.

(** Collects what the lexer's equations in the context say on
    lengths. *)
Ltac lengths :=
  repeat match goal with
    | H : skip_ws _ = _ :: _ |- _ => apply skip_ws_cons in H
    | H : string_body _ = Some (_, _) |- _ => apply string_body_length in H
    | H : number _ = Some (_, _) |- _ => apply number_length in H
    | H : strip_prefix _ _ = Some _ |- _ => apply strip_prefix_length in H
    end;
  simpl List.length in *.

Ltac branch :=
  match goal with
  | |- context [match skip_ws ?l with _ => _ end] =>
      destruct (skip_ws l) eqn:?
  | |- context [match string_body ?l with _ => _ end] =>
      destruct (string_body l) as [[? ?]|] eqn:?
  | |- context [match strip_prefix ?p ?l with _ => _ end] =>
      destruct (strip_prefix p l) eqn:?
  | |- context [match number ?l with _ => _ end] =>
      destruct (number l) as [[? ?]|] eqn:?
  | |- context [if ?b then _ else _] => destruct b eqn:?
  end.

Ltac done_or_unexpected :=
  split; [discriminate|];
  let E := fresh in
  intros ? ? E; try discriminate E;
  injection E as _ <-; lengths; lia.

(** A nested call [f budget a t], by the induction hypothesis [IH] on
    it. *)
Ltac nested f IH :=
  match goal with
  | |- context [f ?b ?a ?t] =>
      let H1 := fresh in
      let H2 := fresh in
      let E := fresh in
      destruct (IH a t) as [H1 H2]; [lengths; lia|];
      split; [exact H1|];
      intros ? ? E; apply H2 in E; lengths; lia
  end.

(** With a budget of twice the length of the text and one more, the
    parser never runs out of it, and what it leaves is shorter than
    what it was given. *)
Lemma budget_enough (budget : nat) :
  (forall l, 2 * List.length l + 1 <= budget ->
     value budget l <> Exhausted /\
     forall v r, value budget l = Done v r -> List.length r < List.length l)
  /\ (forall acc l, 2 * List.length l + 2 <= budget ->
     elements budget acc l <> Exhausted /\
     forall v r, elements budget acc l = Done v r ->
                 List.length r < List.length l)
  /\ (forall acc l, 2 * List.length l + 2 <= budget ->
     members budget acc l <> Exhausted /\
     forall v r, members budget acc l = Done v r ->
                 List.length r < List.length l).
Proof.
  induction budget as [|budget (IHv & IHe & IHm)].
  { repeat split; intros; lia. }
  split; [|split].
  - intros l Hb. cbn [value].
    repeat branch; try done_or_unexpected;
      first [nested members IHm | nested elements IHe].
  - intros acc l Hb. cbn [elements].
    destruct (IHv l) as [Hv1 Hv2]; [lia|].
    destruct (value budget l) as [v r| |] eqn:Ev;
      [|split; [discriminate|intros; discriminate]|congruence].
    specialize (Hv2 _ _ eq_refl).
    repeat branch; try done_or_unexpected.
    all: nested elements IHe.
  - intros acc l Hb. cbn [members].
    repeat branch; try done_or_unexpected.
    all: match goal with
         | |- context [value ?b ?t] =>
             destruct (IHv t) as [Hv1 Hv2]; [lengths; lia|];
             destruct (value b t) as [v r| |] eqn:Ev;
               [|split; [discriminate|intros; discriminate]|congruence]
         end.
    all: specialize (Hv2 _ _ eq_refl).
    all: repeat branch; try done_or_unexpected.
    all: nested members IHm.
Qed.

(** [JSON_parse] gives its parser budget enough: [None] is always a
    syntax error of the text. *)
Lemma value_budget (text : string) :
  let l := list_ascii_of_string text in
  value (2 * List.length l + 1) l <> Exhausted.
Proof.
  intros l. apply (budget_enough (2 * List.length l + 1)). lia.
Qed.

End ParserFacts.

Example parse_not_json : JSON_parse "not json" = None.
Proof. reflexivity. Qed.

Example parse_isLoggedIn :
  JSON_parse isLoggedIn_false
  = Some (JObject [("isLoggedIn", JBool false)]).
Proof. reflexivity. Qed.

Example parse_nested :
  JSON_parse (" [1, -2.5e+3, " ++ quoted "a\nb" ++ ", null, {"
              ++ quoted "k" ++ ":[true]}] ")%string
  = Some (JArray [JNumber "1"; JNumber "-2.5e+3";
                  JString (String "a" (String "010" "b")); JNull;
                  JObject [("k", JArray [JBool true])]]).
Proof. reflexivity. Qed.

Example parse_rejects :
  map JSON_parse ["01"; "1."; "[1,]"; "{}x"; ""; " "; "nul"; "[1 2]"]
  = [None; None; None; None; None; None; None; None].
Proof. reflexivity. Qed.

Example base64_vectors :
  map Base64.encode
      [[]; [x66]; [x66; x6f]; [x66; x6f; x6f]; [x66; x6f; x6f; x62];
       [xff; xfe; xfd; x00]]%byte
  = [""; "Zg=="; "Zm8="; "Zm9v"; "Zm9vYg=="; "//79AA=="].
Proof. reflexivity. Qed.

(** ** The message normalizer *)

Lemma contentPart_idempotent (content : ContentPart) :
  contentPart (contentPart content) = contentPart content.
Proof.
  destruct content as [t [iu|] [tx|]]; unfold contentPart; simpl;
    try reflexivity.
  destruct (truthy_string tx) eqn:E; simpl; [rewrite E|]; reflexivity.
Qed.

Lemma contentPart_text_only (content : ContentPart) :
  is_text (contentPart content) = true ->
  type (contentPart content) = "text"
  /\ image_url (contentPart content) = None.
Proof.
  destruct content as [t [iu|] [tx|]]; unfold contentPart; simpl;
    try discriminate; try (intros _; split; reflexivity).
  destruct (truthy_string tx); intros _; split; reflexivity.
Qed.

Lemma filter_idempotent {A : Type} (f : A -> bool) (l : list A) :
  filter f (filter f l) = filter f l.
Proof.
  apply forallb_filter_id, forallb_filter.
Qed.

Lemma map_fixed {A : Type} (f : A -> A) (l : list A) :
  (forall x, In x l -> f x = x) -> map f l = l.
Proof.
  intros H. rewrite <- (map_id l) at 2. apply map_ext_in. exact H.
Qed.

Lemma contentPart_on_classified (parts : list ContentPart) :
  map contentPart (filter is_text (map contentPart parts))
  = filter is_text (map contentPart parts).
Proof.
  apply map_fixed. intros x Hx.
  apply filter_In in Hx. destruct Hx as [Hx _].
  apply in_map_iff in Hx. destruct Hx as [p [<- _]].
  apply contentPart_idempotent.
Qed.

(** C4.  An array-content message of role system or assistant is
    normalized to the text parts of its classified parts alone: none of
    the parts kept carries an image, the list may be empty, and the
    message is returned, not refused.  An array-content message of role
    user keeps every classified part, in place, an input part carrying an
    image being classified as an image part. *)
Theorem non_user_roles_keep_text_only
  (image : option Image) (parts : list ContentPart) :
  let texts := filter is_text (map contentPart parts) in
  formatMessage image {| role := system; content := Parts parts |}
  = ({| role := system; content := Parts texts |}, [])
  /\ formatMessage image {| role := assistant; content := Parts parts |}
     = ({| role := assistant; content := Parts texts |}, [])
  /\ Forall (fun part => type part = "text" /\ image_url part = None) texts
  /\ formatMessage image {| role := user; content := Parts parts |}
     = ({| role := user; content := Parts (map contentPart parts) |}, [])
  /\ List.length (map contentPart parts) = List.length parts
  /\ (forall t iu tx,
        contentPart {| type := t; image_url := Some iu; text := tx |}
        = imageContent (url iu)).
Proof.
  cbv zeta. repeat split.
  - apply Forall_forall. intros part Hin.
    apply filter_In in Hin. destruct Hin as [Hin Ht].
    apply in_map_iff in Hin. destruct Hin as [p [<- _]].
    apply contentPart_text_only, Ht.
  - apply length_map.
Qed.

Example system_message_loses_its_images :
  fst (formatMessage None
         {| role := system;
            content := Parts [imageContent "https://pec.edu.in/a.png"] |})
  = {| role := system; content := Parts [] |}.
Proof. reflexivity. Qed.

(** C5.  A user message with plain-string content and an attachment that
    is present — the test [image] of line 163 holds, which a string
    passes when it is not empty — becomes the text part with the string
    as it is, followed by one image part: with the string itself for a
    bare string, with the [url] for an object that has one, and for an
    object with a [buffer] with the data URI of its base64 text under the
    MIME type [image/jpeg], whatever the bytes are. *)
Theorem plain_user_message_with_attachment (s : string) :
  (forall u,
      truthy_image (Some (ImageString u)) = true ->
      formatMessage (Some (ImageString u)) {| role := user; content := Plain s |}
      = ({| role := user;
            content := Parts [textContent s; imageContent u] |}, []))
  /\ (forall u buffer,
      formatMessage (Some (ImageObject (Some u) buffer))
        {| role := user; content := Plain s |}
      = ({| role := user;
            content := Parts [textContent s; imageContent u] |}, []))
  /\ (forall buffer,
      formatMessage (Some (ImageObject None (Some buffer)))
        {| role := user; content := Plain s |}
      = ({| role := user;
            content :=
              Parts [textContent s;
                     imageContent
                       ("data:image/jpeg;base64," ++ Base64.encode buffer)] |},
         [])).
Proof.
  repeat split.
  intros u H. unfold formatMessage. simpl. simpl in H. rewrite H. reflexivity.
Qed.

Lemma plain_user_message_with_attachment_witness :
  formatMessage (Some (ImageString "https://pec.edu.in/captcha.png"))
    {| role := user; content := Plain "What's in this image?" |}
  = ({| role := user;
        content := Parts [textContent "What's in this image?";
                          imageContent "https://pec.edu.in/captcha.png"] |},
     []).
Proof.
  apply (proj1 (plain_user_message_with_attachment "What's in this image?")).
  reflexivity.
Defined.

Example buffer_attachment :
  fst (formatMessage (Some (ImageObject None (Some [x4d; x61; x6e]%byte)))
         {| role := user; content := Plain "What's in this image?" |})
  = {| role := user;
       content := Parts [textContent "What's in this image?";
                         imageContent "data:image/jpeg;base64,TWFu"] |}.
Proof. reflexivity. Qed.

(** The empty string is a falsy [image]: the message goes through as it
    is, without a warning. *)
Example empty_string_attachment :
  formatMessage (Some (ImageString ""))
    {| role := user; content := Plain "What's in this image?" |}
  = ({| role := user; content := Plain "What's in this image?" |}, []).
Proof. reflexivity. Qed.

(** An object with neither a [url] nor a [buffer] is warned about, and
    the message goes through as it is. *)
Example unsupported_attachment :
  formatMessage (Some (ImageObject None None))
    {| role := user; content := Plain "What's in this image?" |}
  = ({| role := user; content := Plain "What's in this image?" |},
     ["Unsupported image format provided"]).
Proof. reflexivity. Qed.

(** A plain-string message of another role is sent as a user message. *)
Example plain_system_message :
  formatMessage None {| role := system; content := Plain "Be brief." |}
  = ({| role := user; content := Plain "Be brief." |}, []).
Proof. reflexivity. Qed.

(** C6.  On a message whose content is an array the attachment is not
    looked at: whatever the attachment, present or not, the normalized
    message and the warnings are the same. *)
Theorem attachment_ignored_for_array_content
  (image image' : option Image) (r : Role) (parts : list ContentPart) :
  formatMessage image {| role := r; content := Parts parts |}
  = formatMessage image' {| role := r; content := Parts parts |}.
Proof.
  reflexivity.
Qed.

(** C7.  Normalizing the normalized form of an array-content message
    gives that form again, for every role and whatever the attachment of
    either pass; a classified part, the empty-text fallback included, is
    classified as itself. *)
Theorem array_normalization_idempotent
  (image image' : option Image) (r : Role) (parts : list ContentPart) :
  let once := fst (formatMessage image {| role := r; content := Parts parts |}) in
  fst (formatMessage image' once) = once
  /\ (forall part, contentPart (contentPart part) = contentPart part)
  /\ contentPart fallbackContent = fallbackContent.
Proof.
  cbv zeta. split; [|split; [exact contentPart_idempotent|reflexivity]].
  destruct r; unfold formatMessage; simpl.
  - rewrite contentPart_on_classified, filter_idempotent. reflexivity.
  - rewrite map_map.
    rewrite (map_ext _ _ contentPart_idempotent). reflexivity.
  - rewrite contentPart_on_classified, filter_idempotent. reflexivity.
Qed.

(** ** Traces *)

Lemma dispatches_app (a b : list Event) :
  dispatches (a ++ b) = dispatches a ++ dispatches b.
Proof.
  induction a as [|e a IH]; simpl; [reflexivity|].
  destruct e; simpl; rewrite IH; reflexivity.
Qed.

Lemma logged_app (a b : list Event) :
  logged (a ++ b) = logged a ++ logged b.
Proof.
  induction a as [|e a IH]; simpl; [reflexivity|].
  destruct e; simpl; rewrite IH; reflexivity.
Qed.

Lemma dispatches_warned (texts : list string) :
  dispatches (map Warned texts) = [].
Proof. induction texts; simpl; auto. Qed.

Lemma logged_warned (texts : list string) :
  logged (map Warned texts) = [].
Proof. induction texts; simpl; auto. Qed.

Lemma dispatches_request_block self options :
  dispatches (request_block self options) = [request self options].
Proof.
  unfold request_block. simpl.
  rewrite dispatches_app, dispatches_warned. reflexivity.
Qed.

Lemma dispatches_answered_block self options response :
  dispatches (answered_block self options response) = [request self options].
Proof.
  unfold answered_block.
  rewrite dispatches_app, dispatches_request_block. reflexivity.
Qed.

Lemma logged_request_block self options :
  logged (request_block self options)
  = [creating_line self options; openaiOptions_line self options].
Proof.
  unfold request_block. simpl.
  rewrite logged_app, logged_warned. reflexivity.
Qed.

Lemma logged_answered_block self options response :
  logged (answered_block self options response)
  = [creating_line self options; openaiOptions_line self options;
     response_line options response].
Proof.
  unfold answered_block.
  rewrite logged_app, logged_request_block. reflexivity.
Qed.

Lemma feed_app {Sink : Type} (logger : LogLine.t -> Sink -> Sink)
  (a b : list Event) (s : Sink) :
  feed logger (a ++ b) s = feed logger b (feed logger a s).
Proof.
  unfold feed. rewrite logged_app, fold_left_app. reflexivity.
Qed.

Lemma warn_all_run {Sink : Type} (texts : list string) (w : World Sink) :
  warn_all texts w
  = (Fulfilled tt,
     {| sink := sink w; events := events w ++ map Warned texts |}).
Proof.
  revert w. induction texts as [|t texts IH]; intros w; simpl.
  - unfold ret. rewrite app_nil_r. destruct w; reflexivity.
  - unfold bind, warn. rewrite IH. simpl.
    rewrite <- app_assoc. reflexivity.
Qed.

(** ** One attempt *)

(** An attempt with fuel left: the request goes out after the two records
    and the warnings; a rejection of the provider ends the call there,
    and an answer is logged and then settled, the nested call having one
    retry less. *)
Lemma attempt_S {Sink : Type} (fuel : nat) (self : CustomOpenAIClient)
  (options : ChatCompletionOptions) (retries : Z)
  (logger : LogLine.t -> Sink -> Sink) (w : World Sink) :
  attempt (S fuel) self options retries logger w
  = match client self (List.length (dispatches (events w)))
            (request self options) with
    | OpenAI.Resolves response =>
        settle options retries response
          (attempt fuel self options (retries - 1)%Z logger)
          (received self options logger response w)
    | OpenAI.Rejects reason =>
        (Rejected (TransportError reason), sent self options logger w)
    end.
Proof.
  cbn [attempt].
  unfold sent, received, answered_block, request_block, request.
  destruct (formatMessages (image options) (messages options))
    as [formattedMessages warnings].
  cbn [fst snd].
  unfold bind at 1. unfold log at 1. cbn [sink events].
  unfold bind at 1. unfold log at 1. cbn [sink events].
  unfold bind at 1. rewrite warn_all_run. cbn [sink events].
  unfold bind at 1. unfold create at 1. cbn [sink events].
  rewrite !dispatches_app, dispatches_warned. cbn [dispatches].
  rewrite !app_nil_r.
  destruct (client self (List.length (dispatches (events w)))
              (body self options formattedMessages)) as [response|reason].
  - unfold bind at 1. unfold log at 1. unfold emit. cbn [sink events].
    unfold settle.
    match goal with
    | |- _ ?w1 = _ ?w2 => replace w2 with w1; [reflexivity|]
    end.
    f_equal.
    + unfold feed. rewrite !logged_app, logged_warned. reflexivity.
    + rewrite <- !app_assoc. reflexivity.
  - unfold emit. cbn [sink events]. f_equal. f_equal.
    + unfold feed. rewrite !logged_app, logged_warned. reflexivity.
    + rewrite <- !app_assoc. reflexivity.
Qed.

Lemma events_received {Sink : Type} self options
  (logger : LogLine.t -> Sink -> Sink) response (w : World Sink) :
  dispatches (events (received self options logger response w))
  = dispatches (events w) ++ [request self options].
Proof.
  unfold received. cbn [events].
  rewrite dispatches_app, dispatches_answered_block. reflexivity.
Qed.

Lemma events_sent {Sink : Type} self options
  (logger : LogLine.t -> Sink -> Sink) (w : World Sink) :
  dispatches (events (sent self options logger w))
  = dispatches (events w) ++ [request self options].
Proof.
  unfold sent. cbn [events].
  rewrite dispatches_app, dispatches_request_block. reflexivity.
Qed.

(** The fuel [createChatCompletion] gives is the fuel of one attempt more
    than the call with one retry less gets. *)
Lemma fuel_of_retries (retries : Z) :
  (0 < retries)%Z -> Z.to_nat retries = S (Z.to_nat (retries - 1)).
Proof. lia. Qed.

Lemma createChatCompletion_call {Sink : Type} self options (n : Z)
  (logger : LogLine.t -> Sink -> Sink) :
  createChatCompletion self (call options n logger)
  = attempt (S (Z.to_nat n)) self options n logger.
Proof. reflexivity. Qed.

(** The call, in terms of its first attempt. *)
Lemma createChatCompletion_unfold {Sink : Type} self options (retries : Z)
  (logger : LogLine.t -> Sink -> Sink) (w : World Sink) :
  createChatCompletion self (call options retries logger) w
  = match client self (List.length (dispatches (events w)))
            (request self options) with
    | OpenAI.Resolves response =>
        settle options retries response
          (attempt (Z.to_nat retries) self options (retries - 1)%Z logger)
          (received self options logger response w)
    | OpenAI.Rejects reason =>
        (Rejected (TransportError reason), sent self options logger w)
    end.
Proof.
  rewrite createChatCompletion_call. apply attempt_S.
Qed.

(** A payload that parses and fails validation, with retries left: the
    call goes on as the call with one retry less and the same options,
    from the world in which the first answer is logged. *)
Lemma retry_reenters {Sink : Type} self options rm (retries : Z)
  (logger : LogLine.t -> Sink -> Sink) (w : World Sink)
  response choice rest text parsedData :
  response_model options = Some rm ->
  client self (List.length (dispatches (events w))) (request self options)
  = OpenAI.Resolves response ->
  OpenAI.choices response = choice :: rest ->
  OpenAI.content (OpenAI.message choice) = Some text ->
  truthy_string text = true ->
  JSON_parse text = Some parsedData ->
  validateZodSchema (schema rm) parsedData = false ->
  (0 < retries)%Z ->
  createChatCompletion self (call options retries logger) w
  = createChatCompletion self (call options (retries - 1) logger)
      (received self options logger response w).
Proof.
  intros Hrm Hc Hch Hco Ht Hp Hv Hr.
  rewrite createChatCompletion_unfold, Hc.
  unfold settle. rewrite Hrm, Hch, Hco, Ht, Hp, Hv. cbn [negb].
  replace (retries >? 0)%Z with true by lia.
  rewrite createChatCompletion_call.
  rewrite (fuel_of_retries retries Hr). reflexivity.
Qed.

(** The same payload with no retry left. *)
Lemma retry_exhausted {Sink : Type} self options rm (retries : Z)
  (logger : LogLine.t -> Sink -> Sink) (w : World Sink)
  response choice rest text parsedData :
  response_model options = Some rm ->
  client self (List.length (dispatches (events w))) (request self options)
  = OpenAI.Resolves response ->
  OpenAI.choices response = choice :: rest ->
  OpenAI.content (OpenAI.message choice) = Some text ->
  truthy_string text = true ->
  JSON_parse text = Some parsedData ->
  validateZodSchema (schema rm) parsedData = false ->
  (retries <= 0)%Z ->
  createChatCompletion self (call options retries logger) w
  = (Rejected InvalidSchema, received self options logger response w).
Proof.
  intros Hrm Hc Hch Hco Ht Hp Hv Hr.
  rewrite createChatCompletion_unfold, Hc.
  unfold settle. rewrite Hrm, Hch, Hco, Ht, Hp, Hv. cbn [negb].
  replace (retries >? 0)%Z with false by lia.
  reflexivity.
Qed.

(** ** The retry controller *)

(** The call always settles: the fuel it gives its attempts is never
    used up. *)
Lemma attempt_settles {Sink : Type} self options
  (logger : LogLine.t -> Sink -> Sink) (fuel : nat) :
  forall (retries : Z) (w : World Sink),
    Z.to_nat retries < fuel ->
    fst (attempt fuel self options retries logger w) <> Pending.
Proof.
  induction fuel as [|fuel IH]; intros retries w Hf; [lia|].
  rewrite attempt_S.
  destruct (client self _ _) as [response|reason]; [|discriminate].
  unfold settle.
  destruct (response_model options) as [rm|];
    destruct (OpenAI.choices response) as [|choice rest]; try discriminate.
  destruct (OpenAI.content (OpenAI.message choice)) as [text|];
    [|discriminate].
  destruct (negb (truthy_string text)); [discriminate|].
  destruct (JSON_parse text) as [parsedData|]; [|discriminate].
  destruct (negb (validateZodSchema (schema rm) parsedData)); [|discriminate].
  destruct (retries >? 0)%Z eqn:Hr; [|discriminate].
  apply IH. lia.
Qed.

Theorem createChatCompletion_settles {Sink : Type} self
  (args : CreateChatCompletionOptions Sink) (w : World Sink) :
  fst (createChatCompletion self args w) <> Pending.
Proof.
  unfold createChatCompletion. apply attempt_settles. lia.
Qed.

(** C1, as the code has it.  A schema is asked for and the first answer
    carries a non-empty payload that [JSON.parse] refuses: the call is
    rejected with the parser's [SyntaxError] after that one dispatch,
    whatever the number of retries left.  The failure is not
    [InvalidSchema], and no second request is sent. *)
Theorem unparsable_payload_is_not_retried {Sink : Type} self options rm
  (retries : Z) (logger : LogLine.t -> Sink -> Sink) (s : Sink)
  response choice rest text :
  response_model options = Some rm ->
  client self 0 (request self options) = OpenAI.Resolves response ->
  OpenAI.choices response = choice :: rest ->
  OpenAI.content (OpenAI.message choice) = Some text ->
  truthy_string text = true ->
  JSON_parse text = None ->
  let run := createChatCompletion self (call options retries logger) (fresh s) in
  fst run = Rejected (SyntaxError text)
  /\ attempts (snd run) = 1
  /\ SyntaxError text <> InvalidSchema.
Proof.
  intros Hrm Hc Hch Hco Ht Hp run. subst run.
  rewrite createChatCompletion_unfold. cbn [fresh events dispatches List.length].
  rewrite Hc. unfold settle. rewrite Hrm, Hch, Hco, Ht, Hp. cbn [negb].
  unfold throw, attempts. cbn [fst snd].
  rewrite events_received. repeat split. discriminate.
Qed.

Lemma unparsable_payload_is_not_retried_witness :
  let run :=
    createChatCompletion (gpt (constant (Some "not json")))
      (call (ask "Are we logged in?" (Some Bool_model)) 3 silent) (fresh tt) in
  fst run = Rejected (SyntaxError "not json")
  /\ attempts (snd run) = 1
  /\ SyntaxError "not json" <> InvalidSchema.
Proof.
  apply (unparsable_payload_is_not_retried
           (gpt (constant (Some "not json")))
           (ask "Are we logged in?" (Some Bool_model)) Bool_model 3 silent tt
           (reply (Some "not json"))
           {| OpenAI.message := {| OpenAI.content := Some "not json" |} |}
           [] "not json");
    reflexivity.
Defined.

(** C1, as it is stated, fails on the scenario it names: with one retry
    left, [not json] on the first answer and a conforming payload
    scripted for the second, a single request is sent and the call is
    rejected with a [SyntaxError]; it is not fulfilled with the second
    payload after two requests. *)
Lemma not_json_is_not_retried :
  let run :=
    createChatCompletion
      (gpt (scripted [Some "not json"; Some isLoggedIn_false]))
      (call (ask "Are we logged in?" (Some Bool_model)) 1 silent) (fresh tt) in
  fst run = Rejected (SyntaxError "not json")
  /\ attempts (snd run) = 1
  /\ ~ (attempts (snd run) = 2
        /\ exists usage,
            fst run
            = Fulfilled {| data := Parsed_data
                                     (JObject [("isLoggedIn", JBool false)]);
                           usage := usage |}).
Proof.
  cbv zeta.
  assert (H : attempts
                (snd (createChatCompletion
                   (gpt (scripted [Some "not json";
                                   Some isLoggedIn_false]))
                   (call (ask "Are we logged in?" (Some Bool_model)) 1 silent)
                   (fresh tt))) = 1) by reflexivity.
  split; [reflexivity|]. split; [exact H|].
  intros [H2 _]. rewrite H in H2. discriminate.
Qed.

(** The same script with a first payload that parses and does not
    validate: here the retry happens, and the second payload is the
    result. *)
Example mismatch_is_retried :
  let run :=
    createChatCompletion
      (gpt (scripted [Some isLoggedIn_1;
                      Some isLoggedIn_false]))
      (call (ask "Are we logged in?" (Some Bool_model)) 1 silent) (fresh tt) in
  fst run
  = Fulfilled {| data := Parsed_data (JObject [("isLoggedIn", JBool false)]);
                 usage := {| prompt_tokens := 0; completion_tokens := 0;
                             total_tokens := 0 |} |}
  /\ attempts (snd run) = 2.
Proof. split; reflexivity. Qed.

(** Every answer of the provider carries a payload that parses and that
    the schema refuses: the call as a chain of retries. *)
Lemma retry_chain {Sink : Type} self options rm
  (logger : LogLine.t -> Sink -> Sink) :
  response_model options = Some rm ->
  (forall n, exists response choice rest text parsedData,
      client self n (request self options) = OpenAI.Resolves response
      /\ OpenAI.choices response = choice :: rest
      /\ OpenAI.content (OpenAI.message choice) = Some text
      /\ truthy_string text = true
      /\ JSON_parse text = Some parsedData
      /\ validateZodSchema (schema rm) parsedData = false) ->
  forall (k : nat) (N : Z) (w : World Sink),
    (0 <= N)%Z -> Z.to_nat N = k ->
    let run := createChatCompletion self (call options N logger) w in
    fst run = Rejected InvalidSchema
    /\ dispatches (events (snd run))
       = dispatches (events w) ++ repeat (request self options) (S k).
Proof.
  intros Hrm Hbad k.
  induction k as [|k IH]; intros N w HN Hk run; subst run;
    destruct (Hbad (List.length (dispatches (events w))))
      as (response & choice & rest & text & parsedData
          & Hc & Hch & Hco & Ht & Hp & Hv).
  - rewrite (retry_exhausted self options rm N logger w
               response choice rest text parsedData) by (auto; lia).
    cbn [fst snd]. rewrite events_received. split; reflexivity.
  - rewrite (retry_reenters self options rm N logger w
               response choice rest text parsedData) by (auto; lia).
    destruct (IH (N - 1)%Z (received self options logger response w))
      as [Ho Hd]; [lia|lia|].
    split; [exact Ho|].
    rewrite Hd, events_received, <- app_assoc. reflexivity.
Qed.

(** C2.  A schema is asked for, the retry budget is [N >= 0], and every
    answer carries a payload that parses and that the schema refuses: the
    call is rejected with [InvalidSchema] after exactly [N + 1] requests,
    and each of them is the request built from the options the caller
    gave, unchanged.  With [N > 0] the call goes on, once the first
    answer is logged, as the call with the same options and [N - 1]. *)
Theorem retry_bound {Sink : Type} self options rm (N : Z)
  (logger : LogLine.t -> Sink -> Sink) (s : Sink) :
  (0 <= N)%Z ->
  response_model options = Some rm ->
  (forall n, exists response choice rest text parsedData,
      client self n (request self options) = OpenAI.Resolves response
      /\ OpenAI.choices response = choice :: rest
      /\ OpenAI.content (OpenAI.message choice) = Some text
      /\ truthy_string text = true
      /\ JSON_parse text = Some parsedData
      /\ validateZodSchema (schema rm) parsedData = false) ->
  let run := createChatCompletion self (call options N logger) (fresh s) in
  fst run = Rejected InvalidSchema
  /\ attempts (snd run) = Z.to_nat N + 1
  /\ dispatches (events (snd run))
     = repeat (request self options) (Z.to_nat N + 1)
  /\ ((0 < N)%Z ->
      exists response,
        client self 0 (request self options) = OpenAI.Resolves response
        /\ run = createChatCompletion self (call options (N - 1) logger)
                   (received self options logger response (fresh s))).
Proof.
  intros HN Hrm Hbad run.
  destruct (retry_chain self options rm logger Hrm Hbad
              (Z.to_nat N) N (fresh s) HN eq_refl) as [Ho Hd].
  fold run in Ho, Hd. cbn [fresh events dispatches app] in Hd.
  replace (Z.to_nat N + 1) with (S (Z.to_nat N)) by lia.
  repeat split; [exact Ho| |exact Hd|].
  - unfold attempts. rewrite Hd. apply repeat_length.
  - intros Hpos.
    destruct (Hbad 0) as (response & choice & rest & text & parsedData
                          & Hc & Hch & Hco & Ht & Hp & Hv).
    exists response. split; [exact Hc|].
    subst run.
    apply (retry_reenters self options rm N logger (fresh s)
             response choice rest text parsedData); auto.
Qed.

Lemma retry_bound_witness :
  let self := gpt (constant (Some isLoggedIn_1)) in
  let options := ask "Are we logged in?" (Some Bool_model) in
  let run := createChatCompletion self (call options 2 silent) (fresh tt) in
  fst run = Rejected InvalidSchema
  /\ attempts (snd run) = 3
  /\ dispatches (events (snd run)) = repeat (request self options) 3
  /\ run = createChatCompletion self (call options 1 silent)
             (received self options silent (reply (Some isLoggedIn_1))
                (fresh tt)).
Proof.
  cbv zeta.
  destruct (retry_bound (gpt (constant (Some isLoggedIn_1)))
              (ask "Are we logged in?" (Some Bool_model)) Bool_model 2
              silent tt) as (Ho & Ha & Hd & Hr).
  - lia.
  - reflexivity.
  - intros n.
    exists (reply (Some isLoggedIn_1)),
      {| OpenAI.message := {| OpenAI.content := Some isLoggedIn_1 |} |},
      [], isLoggedIn_1, (JObject [("isLoggedIn", JNumber "1")]).
    repeat split; reflexivity.
  - split; [exact Ho|]. split; [exact Ha|]. split; [exact Hd|].
    destruct Hr as (response & Hc & Hr); [lia|].
    injection Hc as <-. exact Hr.
Defined.

(** Without a [retries] argument the budget is 3: four requests. *)
Example default_budget :
  let run :=
    createChatCompletion (gpt (constant (Some isLoggedIn_1)))
      {| options := ask "Are we logged in?" (Some Bool_model);
         retries := None;
         logger := silent |}
      (fresh tt) in
  fst run = Rejected InvalidSchema /\ attempts (snd run) = 4.
Proof. split; reflexivity. Qed.

(** C3.  A schema is asked for and the first answer has a first choice
    whose content is [null] or the empty string: the call is rejected
    with [EmptyResponse] after that one dispatch.  The number of retries
    plays no part: the outcome and the trace are those of the call with
    any other number of retries. *)
Theorem empty_payload_is_not_retried {Sink : Type} self options rm
  (retries : Z) (logger : LogLine.t -> Sink -> Sink) (s : Sink)
  response choice rest :
  response_model options = Some rm ->
  client self 0 (request self options) = OpenAI.Resolves response ->
  OpenAI.choices response = choice :: rest ->
  (OpenAI.content (OpenAI.message choice) = None
   \/ OpenAI.content (OpenAI.message choice) = Some "") ->
  let run := createChatCompletion self (call options retries logger) (fresh s) in
  fst run = Rejected EmptyResponse
  /\ attempts (snd run) = 1
  /\ forall retries',
      createChatCompletion self (call options retries' logger) (fresh s) = run.
Proof.
  intros Hrm Hc Hch Hco run.
  assert (H : forall n,
             createChatCompletion self (call options n logger) (fresh s)
             = (Rejected EmptyResponse,
                received self options logger response (fresh s))).
  { intros n. rewrite createChatCompletion_unfold.
    cbn [fresh events dispatches List.length].
    rewrite Hc. unfold settle. rewrite Hrm, Hch.
    destruct Hco as [-> | ->]; reflexivity. }
  subst run. rewrite (H retries). cbn [fst snd].
  repeat split.
  - unfold attempts. rewrite events_received. reflexivity.
  - intros n. apply H.
Qed.

Lemma empty_payload_is_not_retried_witness :
  let run :=
    createChatCompletion (gpt (constant None))
      (call (ask "Are we logged in?" (Some Bool_model)) 3 silent) (fresh tt) in
  fst run = Rejected EmptyResponse
  /\ attempts (snd run) = 1
  /\ forall retries',
      createChatCompletion (gpt (constant None))
        (call (ask "Are we logged in?" (Some Bool_model)) retries' silent)
        (fresh tt) = run.
Proof.
  apply (empty_payload_is_not_retried (gpt (constant None))
           (ask "Are we logged in?" (Some Bool_model)) Bool_model 3 silent tt
           (reply None) {| OpenAI.message := {| OpenAI.content := None |} |} []).
  - reflexivity.
  - reflexivity.
  - reflexivity.
  - left. reflexivity.
Defined.

Example empty_string_payload :
  let run :=
    createChatCompletion (gpt (constant (Some "")))
      (call (ask "Are we logged in?" (Some Bool_model)) 3 silent) (fresh tt) in
  fst run = Rejected EmptyResponse /\ attempts (snd run) = 1.
Proof. split; reflexivity. Qed.

(** C9.  No schema is asked for.  The call is never rejected with
    [EmptyResponse]; when the first answer has a first choice the call is
    fulfilled after that one dispatch with the content of the choice as
    its data, [null] included, and with the counters of the answer, 0
    standing for the usage or any counter that is missing. *)
Theorem no_schema_never_empty_response {Sink : Type} self options
  (retries : Z) (logger : LogLine.t -> Sink -> Sink) (s : Sink) :
  response_model options = None ->
  let run := createChatCompletion self (call options retries logger) (fresh s) in
  fst run <> Rejected EmptyResponse
  /\ (forall response choice rest,
        client self 0 (request self options) = OpenAI.Resolves response ->
        OpenAI.choices response = choice :: rest ->
        fst run
        = Fulfilled
            {| data := Content (OpenAI.content (OpenAI.message choice));
               usage := usage_of response |}
        /\ attempts (snd run) = 1)
  /\ (forall choices,
        usage_of {| OpenAI.choices := choices; OpenAI.usage := None |}
        = {| prompt_tokens := 0; completion_tokens := 0; total_tokens := 0 |})
  /\ (forall choices p c t,
        usage_of
          {| OpenAI.choices := choices;
             OpenAI.usage :=
               Some {| OpenAI.prompt_tokens := p;
                       OpenAI.completion_tokens := c;
                       OpenAI.total_tokens := t |} |}
        = {| prompt_tokens := match p with Some n => n | None => 0%Z end;
             completion_tokens := match c with Some n => n | None => 0%Z end;
             total_tokens := match t with Some n => n | None => 0%Z end |}).
Proof.
  intros Hrm run. subst run.
  rewrite createChatCompletion_unfold.
  cbn [fresh events dispatches List.length].
  split; [|split; [|split; reflexivity]].
  - destruct (client self 0 (request self options)) as [response|reason];
      [|discriminate].
    unfold settle. rewrite Hrm.
    destruct (OpenAI.choices response); discriminate.
  - intros response choice rest Hc Hch. rewrite Hc.
    unfold settle. rewrite Hrm, Hch. cbn [fst snd ret].
    split; [reflexivity|].
    unfold attempts. rewrite events_received. reflexivity.
Qed.

Lemma no_schema_never_empty_response_witness :
  let run :=
    createChatCompletion (gpt (constant None))
      (call (ask "What do you see?" None) 3 silent) (fresh tt) in
  fst run
  = Fulfilled {| data := Content None;
                 usage := {| prompt_tokens := 0; completion_tokens := 0;
                             total_tokens := 0 |} |}
  /\ attempts (snd run) = 1.
Proof.
  apply (proj1 (proj2 (no_schema_never_empty_response (gpt (constant None))
                         (ask "What do you see?" None) 3 silent tt eq_refl))
           (reply None) {| OpenAI.message := {| OpenAI.content := None |} |} []);
    reflexivity.
Defined.

(** C10.  An answer with no choice makes the call fail with a
    [TypeError], after that one dispatch, whether a schema is asked for
    or not; a [TypeError] is none of [EmptyResponse], [InvalidSchema] and
    [TransportFailure].  When every answer of the provider has a choice,
    the call does not fail with a [TypeError]. *)
Theorem no_choice_is_a_type_error {Sink : Type} self options
  (retries : Z) (logger : LogLine.t -> Sink -> Sink) (s : Sink) :
  let run := createChatCompletion self (call options retries logger) (fresh s) in
  (forall response,
      client self 0 (request self options) = OpenAI.Resolves response ->
      OpenAI.choices response = [] ->
      fst run = Rejected TypeError /\ attempts (snd run) = 1)
  /\ TypeError <> EmptyResponse
  /\ TypeError <> InvalidSchema
  /\ (forall reason, TypeError <> TransportFailure reason)
  /\ ((forall n response,
         client self n (request self options) = OpenAI.Resolves response ->
         OpenAI.choices response <> []) ->
      fst run <> Rejected TypeError).
Proof.
  intros run.
  split; [|split; [discriminate|split; [discriminate|split; [discriminate|]]]].
  - intros response Hc Hch. subst run.
    rewrite createChatCompletion_unfold.
    cbn [fresh events dispatches List.length]. rewrite Hc.
    unfold settle. rewrite Hch.
    split.
    + destruct (response_model options); reflexivity.
    + unfold attempts.
      destruct (response_model options); cbn [snd throw];
        rewrite events_received; reflexivity.
  - intros Hall. subst run. rewrite createChatCompletion_call.
    generalize (fresh s). generalize (S (Z.to_nat retries)). clear s.
    generalize retries. clear retries.
    intros retries fuel. revert retries.
    induction fuel as [|fuel IH]; intros retries w; [discriminate|].
    rewrite attempt_S.
    destruct (client self _ _) as [response|reason] eqn:Hc; [|discriminate].
    apply Hall in Hc. unfold settle.
    destruct (response_model options) as [rm|];
      destruct (OpenAI.choices response) as [|choice rest];
      try congruence; try discriminate.
    destruct (OpenAI.content (OpenAI.message choice)) as [text|];
      [|discriminate].
    destruct (negb (truthy_string text)); [discriminate|].
    destruct (JSON_parse text) as [parsedData|]; [|discriminate].
    destruct (negb (validateZodSchema (schema rm) parsedData)); [|discriminate].
    destruct (retries >? 0)%Z; [apply IH|discriminate].
Qed.

Lemma no_choice_is_a_type_error_witness :
  (let run :=
     createChatCompletion (gpt choiceless)
       (call (ask "Are we logged in?" (Some Bool_model)) 3 silent) (fresh tt) in
   fst run = Rejected TypeError /\ attempts (snd run) = 1)
  /\ fst (createChatCompletion (gpt (constant (Some "7XK2")))
            (call (ask "Are we logged in?" (Some Bool_model)) 3 silent)
            (fresh tt))
     <> Rejected TypeError.
Proof.
  split.
  - apply (proj1 (no_choice_is_a_type_error (gpt choiceless)
                    (ask "Are we logged in?" (Some Bool_model)) 3 silent tt)
             {| OpenAI.choices := []; OpenAI.usage := None |});
      reflexivity.
  - apply (no_choice_is_a_type_error (gpt (constant (Some "7XK2")))
             (ask "Are we logged in?" (Some Bool_model)) 3 silent tt).
    intros n response H. injection H as <-. discriminate.
Defined.

Example no_choice_without_schema :
  fst (createChatCompletion (gpt choiceless)
         (call (ask "What do you see?" None) 3 silent) (fresh tt))
  = Rejected TypeError.
Proof. reflexivity. Qed.

(** ** The logging sink *)

(** The part of an attempt after the answer either is the nested call or
    stops in the world it was given, with an outcome that is settled and
    is no transport failure. *)
Lemma settle_cases {Sink : Type} options (retries : Z) response
  (again : M Sink Completion) (w : World Sink) :
  settle options retries response again w = again w
  \/ exists outcome,
      settle options retries response again w = (outcome, w)
      /\ outcome <> Pending
      /\ forall reason, outcome <> Rejected (TransportError reason).
Proof.
  unfold settle.
  destruct (response_model options) as [rm|];
    destruct (OpenAI.choices response) as [|choice rest];
    try (right; eexists; repeat split; discriminate).
  destruct (OpenAI.content (OpenAI.message choice)) as [text|];
    [|right; eexists; repeat split; discriminate].
  destruct (negb (truthy_string text));
    [right; eexists; repeat split; discriminate|].
  destruct (JSON_parse text) as [parsedData|];
    [|right; eexists; repeat split; discriminate].
  destruct (negb (validateZodSchema (schema rm) parsedData));
    [|right; eexists; repeat split; discriminate].
  destruct (retries >? 0)%Z;
    [left; reflexivity|right; eexists; repeat split; discriminate].
Qed.

(** Which of the two it is does not depend on the world, nor on what the
    nested call is. *)
Lemma settle_uniform {Sink Sink' : Type} options (retries : Z) response
  (again : M Sink Completion) (again' : M Sink' Completion)
  (w : World Sink) (w' : World Sink') :
  (settle options retries response again w = again w
   /\ settle options retries response again' w' = again' w')
  \/ exists outcome,
      settle options retries response again w = (outcome, w)
      /\ settle options retries response again' w' = (outcome, w').
Proof.
  unfold settle.
  destruct (response_model options) as [rm|];
    destruct (OpenAI.choices response) as [|choice rest];
    try (right; eexists; split; reflexivity).
  destruct (OpenAI.content (OpenAI.message choice)) as [text|];
    [|right; eexists; split; reflexivity].
  destruct (negb (truthy_string text));
    [right; eexists; split; reflexivity|].
  destruct (JSON_parse text) as [parsedData|];
    [|right; eexists; split; reflexivity].
  destruct (negb (validateZodSchema (schema rm) parsedData));
    [|right; eexists; split; reflexivity].
  destruct (retries >? 0)%Z;
    [left; split; reflexivity|right; eexists; split; reflexivity].
Qed.

(** The trace of a run is a row of answered attempts, one for each
    answer of the provider in turn, closed by the unanswered attempt
    exactly when the provider rejected the last request; the sink has
    been given the records of the trace, in order. *)
Lemma attempt_trace {Sink : Type} self options
  (logger : LogLine.t -> Sink -> Sink) (fuel : nat) :
  forall (retries : Z) (w : World Sink),
  exists responses tail,
    let run := attempt fuel self options retries logger w in
    let new := List.concat (map (answered_block self options) responses)
               ++ tail in
    let before := List.length (dispatches (events w)) in
    events (snd run) = events w ++ new
    /\ sink (snd run) = feed logger new (sink w)
    /\ (forall i response,
          nth_error responses i = Some response ->
          client self (before + i) (request self options)
          = OpenAI.Resolves response)
    /\ ((tail = []
         /\ forall reason, fst run <> Rejected (TransportError reason))
        \/ (tail = request_block self options
            /\ exists reason,
                fst run = Rejected (TransportError reason)
                /\ client self (before + List.length responses)
                     (request self options)
                   = OpenAI.Rejects reason)).
Proof.
  induction fuel as [|fuel IH]; intros retries w.
  { exists [], []. cbn. rewrite app_nil_r.
    repeat split; [intros [|i] response H; discriminate H|].
    left. split; [reflexivity|discriminate]. }
  cbv zeta. rewrite attempt_S.
  destruct (client self _ _) as [response|reason] eqn:Hc.
  - destruct (settle_cases options retries response
                (attempt fuel self options (retries - 1)%Z logger)
                (received self options logger response w))
      as [-> | (outcome & -> & _ & Hout)].
    + destruct (IH (retries - 1)%Z (received self options logger response w))
        as (responses & tail & He & Hs & Hr & Ht).
      exists (response :: responses), tail. cbv zeta in *.
      rewrite events_received, length_app in Hr, Ht.
      cbn [List.length] in Hr, Ht.
      rewrite He, Hs. cbn [map List.concat received events sink].
      rewrite <- !app_assoc, !feed_app.
      repeat split.
      * intros [|i] r Hi; cbn [nth_error] in Hi.
        -- injection Hi as <-. rewrite Nat.add_0_r. exact Hc.
        -- apply Hr in Hi. rewrite <- Hi. f_equal. lia.
      * destruct Ht as [Ht | (Ht & reason & Ho & Hj)]; [left; exact Ht|].
        right. split; [exact Ht|]. exists reason. split; [exact Ho|].
        rewrite <- Hj. f_equal. cbn [List.length]. lia.
    + exists [response], []. cbn [fst snd map List.concat received events sink].
      rewrite !app_nil_r.
      repeat split.
      * intros [|[|i]] r Hi; cbn [nth_error] in Hi; try discriminate Hi.
        injection Hi as <-. rewrite Nat.add_0_r. exact Hc.
      * left. split; [reflexivity|exact Hout].
  - exists [], (request_block self options).
    cbn [fst snd map List.concat sent events sink app List.length].
    repeat split.
    + intros [|i] r Hi; discriminate Hi.
    + right. split; [reflexivity|]. exists reason. split; [reflexivity|].
      rewrite Nat.add_0_r. exact Hc.
Qed.

(** The outcome and the trace of a run do not depend on the logger. *)
Lemma attempt_whatever_the_logger {Sink Sink' : Type} self options
  (logger : LogLine.t -> Sink -> Sink) (logger' : LogLine.t -> Sink' -> Sink')
  (fuel : nat) :
  forall (retries : Z) (w : World Sink) (w' : World Sink'),
    events w = events w' ->
    fst (attempt fuel self options retries logger w)
    = fst (attempt fuel self options retries logger' w')
    /\ events (snd (attempt fuel self options retries logger w))
       = events (snd (attempt fuel self options retries logger' w')).
Proof.
  induction fuel as [|fuel IH]; intros retries w w' Hw.
  { cbn. auto. }
  rewrite !attempt_S, Hw.
  destruct (client self _ _) as [response|reason].
  - destruct (settle_uniform options retries response
                (attempt fuel self options (retries - 1)%Z logger)
                (attempt fuel self options (retries - 1)%Z logger')
                (received self options logger response w)
                (received self options logger' response w'))
      as [[-> ->] | (outcome & -> & ->)].
    + apply IH. cbn [received events]. rewrite Hw. reflexivity.
    + cbn [fst snd received events]. rewrite Hw. auto.
  - cbn [fst snd sent events]. rewrite Hw. auto.
Qed.

(** An attempt with a logger that may throw: each of the three calls of
    the logger ends the attempt when it throws. *)
Lemma throwing_attempt_S {Sink : Type} (fuel : nat) (self : CustomOpenAIClient)
  (options : ChatCompletionOptions) (retries : Z)
  (logger : Throwing.Logger Sink) (w : World Sink) :
  Throwing.attempt (S fuel) self options retries logger w
  = let first := logger (creating_line self options) (sink w) in
    let second := logger (openaiOptions_line self options) (fst first) in
    match snd first with
    | Some e =>
        (Rejected e,
         {| sink := fst first;
            events := events w ++ [Logged (creating_line self options)] |})
    | None =>
        match snd second with
        | Some e =>
            (Rejected e,
             {| sink := fst second;
                events := events w
                          ++ [Logged (creating_line self options);
                              Logged (openaiOptions_line self options)] |})
        | None =>
            match client self (List.length (dispatches (events w)))
                    (request self options) with
            | OpenAI.Resolves response =>
                let third :=
                  logger (response_line options response) (fst second) in
                let w' :=
                  {| sink := fst third;
                     events := events w
                               ++ answered_block self options response |} in
                match snd third with
                | Some e => (Rejected e, w')
                | None =>
                    settle options retries response
                      (Throwing.attempt fuel self options (retries - 1)%Z
                         logger) w'
                end
            | OpenAI.Rejects reason =>
                (Rejected (TransportError reason),
                 {| sink := fst second;
                    events := events w ++ request_block self options |})
            end
        end
    end.
Proof.
  cbv zeta. cbn [Throwing.attempt].
  unfold answered_block, request_block, request.
  destruct (formatMessages (image options) (messages options))
    as [formattedMessages warnings].
  cbn [fst snd].
  unfold bind at 1. unfold Throwing.log at 1.
  destruct (logger (creating_line self options) (sink w)) as [s1 [e|]];
    cbn [fst snd sink events]; [reflexivity|].
  unfold bind at 1. unfold Throwing.log at 1. cbn [sink events].
  destruct (logger (openaiOptions_line self options) s1) as [s2 [e|]];
    cbn [fst snd sink events]; [rewrite <- !app_assoc; reflexivity|].
  unfold bind at 1. rewrite warn_all_run. cbn [sink events].
  unfold bind at 1. unfold create at 1. cbn [sink events].
  rewrite !dispatches_app, dispatches_warned. cbn [dispatches].
  rewrite !app_nil_r.
  destruct (client self (List.length (dispatches (events w)))
              (body self options formattedMessages)) as [response|reason].
  - unfold bind at 1. unfold Throwing.log at 1. unfold emit.
    cbn [sink events].
    destruct (logger (response_line options response) s2) as [s3 [e|]];
      cbn [fst snd]; rewrite <- !app_assoc; reflexivity.
  - unfold emit. cbn [sink events]. rewrite <- !app_assoc. reflexivity.
Qed.

Lemma settle_ext {Sink : Type} (options : ChatCompletionOptions)
  (retries : Z) (response : OpenAI.ChatCompletion)
  (again again' : M Sink Completion) (w : World Sink) :
  again w = again' w ->
  settle options retries response again w
  = settle options retries response again' w.
Proof.
  intros H. unfold settle.
  destruct (response_model options) as [rm|]; [|reflexivity].
  destruct (OpenAI.choices response) as [|choice rest]; [reflexivity|].
  destruct (OpenAI.content (OpenAI.message choice)) as [extractedData|];
    [|reflexivity].
  destruct (negb (truthy_string extractedData)); [reflexivity|].
  destruct (JSON_parse extractedData) as [parsedData|]; [|reflexivity].
  destruct (negb (validateZodSchema (schema rm) parsedData)); [|reflexivity].
  destruct (retries >? 0)%Z; [exact H|reflexivity].
Qed.

(** With a logger that returns, it is the attempt of above. *)
Lemma throwing_attempt_returning {Sink : Type} (self : CustomOpenAIClient)
  (options : ChatCompletionOptions) (logger : LogLine.t -> Sink -> Sink)
  (fuel : nat) :
  forall (retries : Z) (w : World Sink),
    Throwing.attempt fuel self options retries (returning logger) w
    = attempt fuel self options retries logger w.
Proof.
  induction fuel as [|fuel IH]; intros retries w; [reflexivity|].
  rewrite throwing_attempt_S, attempt_S. cbv zeta. unfold returning.
  cbn [fst snd].
  destruct (client self _ _) as [response|reason].
  - unfold received, answered_block, request_block, feed.
    rewrite !logged_app, logged_warned. cbn [logged app fold_left].
    apply settle_ext. apply IH.
  - unfold sent, request_block, feed.
    rewrite !logged_app, logged_warned. cbn [logged app fold_left].
    reflexivity.
Qed.

(** C8, as the code has it.  Each attempt gives the logger two records
    before its request goes out, the options record and then the
    [openaiOptions] record, and a third one right after the answer when
    there is an answer: the trace of a call is a row of such attempts,
    one for each answer of the provider in turn, the last one without
    its third record exactly when the provider rejected the request.
    The sink is given these records and nothing else, and as long as the
    logger returns neither the outcome nor the trace depends on it.  A
    logger that throws does change the outcome, since none of its calls
    is guarded: in any attempt, nested or not, the call is rejected with
    what the logger threw, before the request of the attempt when it is
    one of the first two records, and right after that request, whatever
    the answer and the budget, when it is the third; an attempt in which
    the logger returns three times goes on as [settle] says. *)
Theorem logger_around_each_dispatch {Sink : Type} self options (retries : Z)
  (logger : LogLine.t -> Sink -> Sink) (s : Sink) :
  let run := createChatCompletion self (call options retries logger) (fresh s) in
  (exists responses tail,
      events (snd run)
      = List.concat (map (answered_block self options) responses) ++ tail
      /\ (forall i response,
            nth_error responses i = Some response ->
            client self i (request self options) = OpenAI.Resolves response)
      /\ ((tail = []
           /\ forall reason, fst run <> Rejected (TransportError reason))
          \/ (tail = request_block self options
              /\ exists reason, fst run = Rejected (TransportError reason)))
      /\ sink (snd run) = feed logger (events (snd run)) s)
  /\ (forall response,
        answered_block self options response
        = [Logged (creating_line self options);
           Logged (openaiOptions_line self options)]
          ++ map Warned (snd (formatMessages (image options) (messages options)))
          ++ [Dispatched (request self options);
              Logged (response_line options response)])
  /\ request_block self options
     = [Logged (creating_line self options);
        Logged (openaiOptions_line self options)]
       ++ map Warned (snd (formatMessages (image options) (messages options)))
       ++ [Dispatched (request self options)]
  /\ (forall (Sink' : Type) (logger' : LogLine.t -> Sink' -> Sink') (s' : Sink'),
        let run' :=
          createChatCompletion self (call options retries logger') (fresh s') in
        fst run' = fst run /\ events (snd run') = events (snd run))
  /\ (forall w : World Sink,
        Throwing.createChatCompletion self options (Some retries)
          (returning logger) w
        = createChatCompletion self (call options retries logger) w)
  /\ (forall (unguarded : Throwing.Logger Sink) (fuel : nat) (budget : Z)
             (w : World Sink),
        let thrown :=
          Throwing.attempt (S fuel) self options budget unguarded w in
        let first := unguarded (creating_line self options) (sink w) in
        let second :=
          unguarded (openaiOptions_line self options) (fst first) in
        (forall e,
            snd first = Some e ->
            fst thrown = Rejected e
            /\ events (snd thrown)
               = events w ++ [Logged (creating_line self options)])
        /\ (forall e,
              snd first = None ->
              snd second = Some e ->
              fst thrown = Rejected e
              /\ events (snd thrown)
                 = events w
                   ++ [Logged (creating_line self options);
                       Logged (openaiOptions_line self options)])
        /\ (forall response,
              snd first = None ->
              snd second = None ->
              client self (List.length (dispatches (events w)))
                (request self options)
              = OpenAI.Resolves response ->
              let third :=
                unguarded (response_line options response) (fst second) in
              let w' :=
                {| sink := fst third;
                   events := events w
                             ++ answered_block self options response |} in
              (forall e,
                  snd third = Some e ->
                  fst thrown = Rejected e /\ snd thrown = w')
              /\ (snd third = None ->
                  thrown
                  = settle options budget response
                      (Throwing.attempt fuel self options (budget - 1)%Z
                         unguarded) w'))).
Proof.
  intros run. subst run. rewrite createChatCompletion_call.
  split; [|split; [|split; [|split; [|split]]]].
  5:{ intros w. unfold Throwing.createChatCompletion.
      apply throwing_attempt_returning. }
  5:{ intros unguarded fuel budget w. cbv zeta.
      rewrite throwing_attempt_S. cbv zeta.
      split; [|split].
      - intros e ->. auto.
      - intros e -> ->. auto.
      - intros response -> -> ->. split.
        + intros e ->. auto.
        + intros ->. reflexivity. }
  - destruct (attempt_trace self options logger (S (Z.to_nat retries))
                retries (fresh s)) as (responses & tail & He & Hs & Hr & Ht).
    cbv zeta in He, Hs, Hr, Ht.
    cbn [fresh events sink app dispatches List.length Nat.add] in He, Hs, Hr, Ht.
    exists responses, tail. rewrite He.
    repeat split; [exact Hr| |exact Hs].
    destruct Ht as [Ht | (Ht & reason & Ho & _)]; [left; exact Ht|].
    right. split; [exact Ht|]. exists reason. exact Ho.
  - intros response. unfold answered_block, request_block.
    rewrite <- !app_assoc. reflexivity.
  - reflexivity.
  - intros Sink' logger' s'. cbv zeta. rewrite createChatCompletion_call.
    apply attempt_whatever_the_logger. reflexivity.
Qed.

(** C8, as it is stated, fails on a call of one attempt: the logger is
    given three records, not two, and two of them before the request
    goes out. *)
Lemma logger_gets_three_records :
  let run :=
    createChatCompletion (gpt (constant (Some "7XK2")))
      (call (ask "What characters are shown?" None) 0 recorder) (fresh []) in
  attempts (snd run) = 1
  /\ map LogLine.message (sink (snd run))
     = ["creating chat completion"; "creating chat completion"; "response"]
  /\ map is_dispatch (events (snd run)) = [false; false; true; false]
  /\ map is_log (events (snd run)) = [true; true; false; true]
  /\ List.length (sink (snd run)) <> 2.
Proof.
  cbv zeta. repeat split. discriminate.
Qed.

(** A logger that throws on the record of the response: the answer is
    there, and the call is rejected with what the logger threw; the same
    call with a logger that returns is fulfilled. *)
Example a_throwing_logger_ends_the_call :
  let self := gpt (constant (Some "7XK2")) in
  let options := ask "What characters are shown?" None in
  let thrown :=
    Throwing.createChatCompletion self options (Some 3%Z) choking (fresh []) in
  let returned :=
    Throwing.createChatCompletion self options (Some 3%Z) (returning recorder)
      (fresh []) in
  fst thrown = Rejected (Error "log is full")
  /\ attempts (snd thrown) = 1
  /\ map LogLine.message (sink (snd thrown))
     = ["creating chat completion"; "creating chat completion"; "response"]
  /\ fst returned
     = Fulfilled {| data := Content (Some "7XK2");
                    usage := {| prompt_tokens := 0; completion_tokens := 0;
                                total_tokens := 0 |} |}
  /\ events (snd returned) = events (snd thrown).
Proof. cbv zeta. repeat split. Qed.


(* ===================================================================== *)
(** * More of the code *)
(* ===================================================================== *)

(** ** The retry controller, in general *)

(** The part of an attempt after the answer: the nested call when the
    answer is a mismatch and a retry is left, else the last word on the
    answer, in the same world. *)
Lemma settle_verdict {Sink : Type} options (retries : Z) response
  (again : M Sink Completion) (w : World Sink) :
  settle options retries response again w
  = if mismatch options response && (retries >? 0)%Z
    then again w
    else (last_word options response, w).
Proof.
  unfold last_word, settle, mismatch.
  destruct (response_model options) as [rm|];
    destruct (OpenAI.choices response) as [|choice rest]; try reflexivity.
  destruct (OpenAI.content (OpenAI.message choice)) as [text|];
    [|reflexivity].
  destruct (truthy_string text); [|reflexivity].
  destruct (JSON_parse text) as [parsedData|]; [|reflexivity].
  destruct (validateZodSchema (schema rm) parsedData); [reflexivity|].
  cbn [negb andb]. destruct (retries >? 0)%Z; reflexivity.
Qed.

Lemma last_word_mismatch options response :
  mismatch options response = true ->
  last_word options response = Rejected InvalidSchema.
Proof.
  unfold last_word, settle, mismatch.
  destruct (response_model options) as [rm|];
    destruct (OpenAI.choices response) as [|choice rest]; try discriminate.
  destruct (OpenAI.content (OpenAI.message choice)) as [text|];
    [|discriminate].
  destruct (truthy_string text); [|discriminate].
  destruct (JSON_parse text) as [parsedData|]; [|discriminate].
  destruct (validateZodSchema (schema rm) parsedData); [discriminate|].
  reflexivity.
Qed.

Lemma last_word_invalid options response :
  last_word options response = Rejected InvalidSchema ->
  mismatch options response = true.
Proof.
  unfold last_word, settle, mismatch.
  destruct (response_model options) as [rm|];
    destruct (OpenAI.choices response) as [|choice rest]; try discriminate.
  destruct (OpenAI.content (OpenAI.message choice)) as [text|];
    [|discriminate].
  destruct (truthy_string text); [|discriminate].
  destruct (JSON_parse text) as [parsedData|]; [|discriminate].
  destruct (validateZodSchema (schema rm) parsedData); [discriminate|].
  reflexivity.
Qed.

Lemma last_word_settled options response :
  last_word options response <> Pending
  /\ forall reason, last_word options response <> Rejected (TransportError reason).
Proof.
  unfold last_word, settle.
  destruct (response_model options) as [rm|];
    destruct (OpenAI.choices response) as [|choice rest];
    try (split; [discriminate|intros; discriminate]).
  destruct (OpenAI.content (OpenAI.message choice)) as [text|];
    [|split; [discriminate|intros; discriminate]].
  destruct (negb (truthy_string text));
    [split; [discriminate|intros; discriminate]|].
  destruct (JSON_parse text) as [parsedData|];
    [|split; [discriminate|intros; discriminate]].
  destruct (negb (validateZodSchema (schema rm) parsedData));
    split; try discriminate; intros; discriminate.
Qed.

(** A run, read off the answers of the provider: some number [k] of
    mismatches within the budget, each followed by a retry, and then the
    answer that decides, be it a rejection, an answer that is no
    mismatch, or the mismatch that finds the budget spent.  Every request
    is the same. *)
Lemma attempt_run {Sink : Type} self options
  (logger : LogLine.t -> Sink -> Sink) (fuel : nat) :
  forall (retries : Z) (w : World Sink),
    Z.to_nat retries < fuel ->
    exists k,
      let run := attempt fuel self options retries logger w in
      let before := List.length (dispatches (events w)) in
      k <= Z.to_nat retries
      /\ dispatches (events (snd run))
         = dispatches (events w) ++ repeat (request self options) (S k)
      /\ (forall i, i < k ->
            exists response,
              client self (before + i) (request self options)
              = OpenAI.Resolves response
              /\ mismatch options response = true)
      /\ match client self (before + k) (request self options) with
         | OpenAI.Rejects reason => fst run = Rejected (TransportError reason)
         | OpenAI.Resolves response =>
             fst run = last_word options response
             /\ (mismatch options response = true -> k = Z.to_nat retries)
         end.
Proof.
  induction fuel as [|fuel IH]; intros retries w Hf; [lia|].
  cbv zeta. rewrite attempt_S.
  destruct (client self (List.length (dispatches (events w)))
              (request self options)) as [response|reason] eqn:Hc.
  - rewrite settle_verdict.
    destruct (mismatch options response) eqn:Hm;
      [destruct (retries >? 0)%Z eqn:Hr|]; cbn [andb].
    + destruct (IH (retries - 1)%Z (received self options logger response w))
        as (k & Hk & Hd & Hi & Hl); [lia|].
      cbv zeta in Hd, Hi, Hl.
      rewrite events_received, length_app in Hi, Hl.
      cbn [List.length] in Hi, Hl.
      exists (S k). split; [lia|]. split; [|split].
      * rewrite Hd, events_received, <- app_assoc. reflexivity.
      * intros [|i] Hlt.
        -- exists response. rewrite Nat.add_0_r. auto.
        -- destruct (Hi i) as (r & Hr1 & Hr2); [lia|].
           exists r. split; [|exact Hr2]. rewrite <- Hr1. f_equal. lia.
      * replace (List.length (dispatches (events w)) + S k)
          with (List.length (dispatches (events w)) + 1 + k) by lia.
        destruct (client self (List.length (dispatches (events w)) + 1 + k)
                    (request self options)) as [r|reason]; [|exact Hl].
        destruct Hl as [Hl1 Hl2]. split; [exact Hl1|].
        intros H. apply Hl2 in H. lia.
    + exists 0. rewrite Nat.add_0_r, Hc. cbn [fst snd repeat].
      rewrite events_received.
      repeat split; [lia|intros i Hi; lia|]. intros _. lia.
    + exists 0. rewrite Nat.add_0_r, Hc. cbn [fst snd repeat].
      rewrite events_received.
      repeat split; [lia|intros i Hi; lia|]. congruence.
  - exists 0. rewrite Nat.add_0_r, Hc. cbn [fst snd repeat].
    rewrite events_sent.
    repeat split; [lia|intros i Hi; lia].
Qed.

(** The budget of a call: its [retries] argument, 3 when there is none,
    and none for a negative one. *)
Lemma createChatCompletion_attempt {Sink : Type} self
  (args : CreateChatCompletionOptions Sink) :
  exists n : Z,
    n = match retries args with Some r => r | None => 3%Z end
    /\ createChatCompletion self args
       = attempt (S (Z.to_nat n)) self (options args) n (logger args).
Proof.
  unfold createChatCompletion, default_retries.
  eexists. split; reflexivity.
Qed.

(** The same for a call from a fresh world. *)
Lemma call_run {Sink : Type} self
  (args : CreateChatCompletionOptions Sink) (s : Sink) :
  exists k,
    let run := createChatCompletion self args (fresh s) in
    let budget :=
      Z.to_nat match retries args with Some r => r | None => 3%Z end in
    k <= budget
    /\ dispatches (events (snd run)) = repeat (request self (options args)) (S k)
    /\ (forall i, i < k ->
          exists response,
            client self i (request self (options args))
            = OpenAI.Resolves response
            /\ mismatch (options args) response = true)
    /\ match client self k (request self (options args)) with
       | OpenAI.Rejects reason => fst run = Rejected (TransportError reason)
       | OpenAI.Resolves response =>
           fst run = last_word (options args) response
           /\ (mismatch (options args) response = true -> k = budget)
       end.
Proof.
  destruct (createChatCompletion_attempt self args) as (n & Hn & ->).
  rewrite <- Hn.
  destruct (attempt_run self (options args) (logger args) (S (Z.to_nat n))
              n (fresh s)) as (k & H); [lia|].
  exists k. exact H.
Qed.

(** When the first [k] answers are mismatches, [k] is within the budget
    and the answer after them is no mismatch, the run stops on that
    answer: [k + 1] requests, and the rejection or the last word of the
    answer as the outcome. *)
Lemma run_decided {Sink : Type} self
  (args : CreateChatCompletionOptions Sink) (s : Sink) (k : nat) :
  k <= Z.to_nat match retries args with Some r => r | None => 3%Z end ->
  (forall i, i < k ->
     exists response,
       client self i (request self (options args)) = OpenAI.Resolves response
       /\ mismatch (options args) response = true) ->
  match client self k (request self (options args)) with
  | OpenAI.Rejects _ => True
  | OpenAI.Resolves response => mismatch (options args) response = false
  end ->
  let run := createChatCompletion self args (fresh s) in
  attempts (snd run) = k + 1
  /\ fst run
     = match client self k (request self (options args)) with
       | OpenAI.Rejects reason => Rejected (TransportError reason)
       | OpenAI.Resolves response => last_word (options args) response
       end.
Proof.
  intros Hk Hbefore Hat run. subst run.
  destruct (call_run self args s) as (k' & Hk' & Hd & Hi & Hl).
  cbv zeta in Hk', Hd, Hi, Hl.
  assert (k' = k) as ->.
  { destruct (Nat.lt_trichotomy k' k) as [Hlt | [Heq | Hgt]]; [|exact Heq|].
    - destruct (Hbefore k' Hlt) as (r & Hr & Hm).
      rewrite Hr in Hl. destruct Hl as [_ Hl]. apply Hl in Hm. lia.
    - destruct (Hi k Hgt) as (r & Hr & Hm).
      rewrite Hr, Hm in Hat. discriminate. }
  unfold attempts. rewrite Hd, repeat_length. split; [lia|].
  destruct (client self k (request self (options args))) as [r|reason];
    [apply Hl|exact Hl].
Qed.

(** X1.  Whatever the provider answers, a call sends at least one request
    and at most one more than its budget allows (the [retries] argument,
    3 by default, a negative one counting as none); all its requests are
    the same request; and the call settles. *)
Theorem requests_within_budget {Sink : Type} self
  (args : CreateChatCompletionOptions Sink) (s : Sink) :
  let run := createChatCompletion self args (fresh s) in
  let budget :=
    Z.to_nat match retries args with Some r => r | None => 3%Z end in
  1 <= attempts (snd run) <= budget + 1
  /\ dispatches (events (snd run))
     = repeat (request self (options args)) (attempts (snd run))
  /\ fst run <> Pending.
Proof.
  cbv zeta.
  destruct (call_run self args s) as (k & Hk & Hd & _ & _).
  cbv zeta in Hk, Hd. unfold attempts. rewrite Hd, repeat_length.
  repeat split; try lia. apply createChatCompletion_settles.
Qed.

(** X2.  Without a schema the call never retries: one request, whatever
    comes back, and the outcome is read off the one answer: the
    provider's rejection, a [TypeError] when there is no choice, else the
    content of the first choice with the usage. *)
Theorem no_schema_single_request {Sink : Type} self
  (args : CreateChatCompletionOptions Sink) (s : Sink) :
  response_model (options args) = None ->
  let run := createChatCompletion self args (fresh s) in
  attempts (snd run) = 1
  /\ fst run
     = match client self 0 (request self (options args)) with
       | OpenAI.Rejects reason => Rejected (TransportError reason)
       | OpenAI.Resolves response =>
           match OpenAI.choices response with
           | [] => Rejected TypeError
           | choice :: _ =>
               Fulfilled
                 {| data := Content (OpenAI.content (OpenAI.message choice));
                    usage := usage_of response |}
           end
       end.
Proof.
  intros Hrm run. subst run.
  destruct (run_decided self args s 0) as [Ha Ho].
  - lia.
  - intros i Hi. lia.
  - destruct (client self 0 _) as [r|reason]; [|exact I].
    unfold mismatch. rewrite Hrm. reflexivity.
  - split; [exact Ha|]. rewrite Ho.
    destruct (client self 0 _) as [r|reason]; [|reflexivity].
    unfold last_word, settle. rewrite Hrm.
    destruct (OpenAI.choices r); reflexivity.
Qed.

Lemma no_schema_single_request_witness :
  let run :=
    createChatCompletion (gpt (scripted []))
      {| options := ask "What do you see?" None;
         retries := Some 5%Z; logger := silent |} (fresh tt) in
  attempts (snd run) = 1
  /\ fst run = Rejected (TransportError "script is over").
Proof.
  apply (no_schema_single_request (gpt (scripted []))
           {| options := ask "What do you see?" None;
              retries := Some 5%Z; logger := silent |} tt).
  reflexivity.
Defined.

(** X3.  A call with a schema that is fulfilled returns a value the
    schema accepts: its data is the value [JSON.parse] made of the first
    choice of the provider's last answer, as parsed and not as the schema
    may rewrite it, the schema accepts that value, and the usage is that
    of this last answer alone. *)
Theorem fulfilled_data_is_valid {Sink : Type} self
  (args : CreateChatCompletionOptions Sink) (s : Sink) rm result :
  response_model (options args) = Some rm ->
  let run := createChatCompletion self args (fresh s) in
  fst run = Fulfilled result ->
  exists response parsedData,
    client self (attempts (snd run) - 1) (request self (options args))
    = OpenAI.Resolves response
    /\ parsed_payload response = Some parsedData
    /\ validateZodSchema (schema rm) parsedData = true
    /\ result = {| data := Parsed_data parsedData;
                   usage := usage_of response |}.
Proof.
  intros Hrm run Hf. subst run.
  destruct (call_run self args s) as (k & Hk & Hd & _ & Hl).
  cbv zeta in Hk, Hd, Hl. unfold attempts.
  rewrite Hd, repeat_length.
  replace (S k - 1) with k by lia.
  destruct (client self k (request self (options args)))
    as [response|reason]; [|congruence].
  destruct Hl as [Hl _]. rewrite Hf in Hl.
  exists response.
  unfold last_word, settle in Hl. unfold parsed_payload.
  rewrite Hrm in Hl.
  destruct (OpenAI.choices response) as [|choice rest]; [discriminate|].
  destruct (OpenAI.content (OpenAI.message choice)) as [text|];
    [|discriminate].
  destruct (negb (truthy_string text)); [discriminate|].
  destruct (JSON_parse text) as [parsedData|]; [|discriminate].
  destruct (validateZodSchema (schema rm) parsedData) eqn:Hv;
    [|discriminate].
  cbn [negb fst ret] in Hl. injection Hl as ->.
  exists parsedData. auto.
Qed.

Lemma fulfilled_data_is_valid_witness :
  let self := gpt (scripted [Some isLoggedIn_1; Some isLoggedIn_false]) in
  let args := call (ask "Are we logged in?" (Some Bool_model)) 1 silent in
  exists response parsedData,
    client self
      (attempts (snd (createChatCompletion self args (fresh tt))) - 1)
      (request self (options args))
    = OpenAI.Resolves response
    /\ parsed_payload response = Some parsedData
    /\ validateZodSchema (schema Bool_model) parsedData = true
    /\ {| data := Parsed_data (JObject [("isLoggedIn", JBool false)]);
          usage := {| prompt_tokens := 0; completion_tokens := 0;
                      total_tokens := 0 |} |}
       = {| data := Parsed_data parsedData; usage := usage_of response |}.
Proof.
  cbv zeta.
  apply (fulfilled_data_is_valid
           (gpt (scripted [Some isLoggedIn_1; Some isLoggedIn_false]))
           (call (ask "Are we logged in?" (Some Bool_model)) 1 silent) tt
           Bool_model);
    reflexivity.
Defined.

(** X4.  [InvalidSchema] is raised only when the budget is spent: a call
    rejected with it asked for a schema and sent exactly one request more
    than its budget, each of them answered by a payload that parsed and
    that the schema refused. *)
Theorem invalid_schema_means_budget_spent {Sink : Type} self
  (args : CreateChatCompletionOptions Sink) (s : Sink) :
  let run := createChatCompletion self args (fresh s) in
  let budget :=
    Z.to_nat match retries args with Some r => r | None => 3%Z end in
  fst run = Rejected InvalidSchema ->
  attempts (snd run) = budget + 1
  /\ response_model (options args) <> None
  /\ forall i, i < budget + 1 ->
       exists response,
         client self i (request self (options args)) = OpenAI.Resolves response
         /\ mismatch (options args) response = true.
Proof.
  intros run budget Hf. subst run budget.
  destruct (call_run self args s) as (k & Hk & Hd & Hi & Hl).
  cbv zeta in Hk, Hd, Hi, Hl. unfold attempts.
  rewrite Hd, repeat_length.
  destruct (client self k (request self (options args)))
    as [response|reason] eqn:Hc; [|rewrite Hf in Hl; discriminate].
  destruct Hl as [Hl1 Hl2]. rewrite Hf in Hl1.
  symmetry in Hl1. apply last_word_invalid in Hl1.
  specialize (Hl2 Hl1). subst k.
  split; [lia|]. split.
  - intros Hrm. unfold mismatch in Hl1. rewrite Hrm in Hl1. discriminate.
  - intros i Hlt.
    destruct (Nat.eq_dec i
                (Z.to_nat match retries args with
                          | Some r => r | None => 3%Z end)) as [->|Hne].
    + exists response. auto.
    + apply Hi. lia.
Qed.

Lemma invalid_schema_means_budget_spent_witness :
  let self := gpt (constant (Some isLoggedIn_1)) in
  let args : CreateChatCompletionOptions unit :=
    {| options := ask "Are we logged in?" (Some Bool_model);
       retries := None; logger := silent |} in
  attempts (snd (createChatCompletion self args (fresh tt))) = 3 + 1
  /\ response_model (options args) <> None
  /\ forall i, i < 3 + 1 ->
       exists response,
         client self i (request self (options args)) = OpenAI.Resolves response
         /\ mismatch (options args) response = true.
Proof.
  cbv zeta.
  apply (invalid_schema_means_budget_spent
           (gpt (constant (Some isLoggedIn_1)))
           {| options := ask "Are we logged in?" (Some Bool_model);
              retries := None; logger := silent |} tt).
  reflexivity.
Defined.

(** X5.  Success after retries.  A schema is asked for, the first [k]
    answers are mismatches, [k] is within the budget, and the next answer
    carries a payload that parses to a value the schema accepts: the call
    is fulfilled with that value and the usage of that answer, after
    exactly [k + 1] requests. *)
Theorem conforming_answer_ends_the_retries {Sink : Type} self
  (args : CreateChatCompletionOptions Sink) (s : Sink) rm (k : nat)
  response choice rest text parsedData :
  response_model (options args) = Some rm ->
  k <= Z.to_nat match retries args with Some r => r | None => 3%Z end ->
  (forall i, i < k ->
     exists earlier,
       client self i (request self (options args)) = OpenAI.Resolves earlier
       /\ mismatch (options args) earlier = true) ->
  client self k (request self (options args)) = OpenAI.Resolves response ->
  OpenAI.choices response = choice :: rest ->
  OpenAI.content (OpenAI.message choice) = Some text ->
  truthy_string text = true ->
  JSON_parse text = Some parsedData ->
  validateZodSchema (schema rm) parsedData = true ->
  let run := createChatCompletion self args (fresh s) in
  fst run = Fulfilled {| data := Parsed_data parsedData;
                         usage := usage_of response |}
  /\ attempts (snd run) = k + 1.
Proof.
  intros Hrm Hk Hbefore Hc Hch Hco Ht Hp Hv run. subst run.
  destruct (run_decided self args s k Hk Hbefore) as [Ha Ho].
  - rewrite Hc. unfold mismatch. rewrite Hrm, Hch, Hco, Ht, Hp, Hv.
    reflexivity.
  - split; [|exact Ha]. rewrite Ho, Hc.
    unfold last_word, settle. rewrite Hrm, Hch, Hco, Ht, Hp, Hv.
    reflexivity.
Qed.

Lemma conforming_answer_ends_the_retries_witness :
  let run :=
    createChatCompletion
      (gpt (scripted [Some isLoggedIn_1; Some isLoggedIn_1;
                      Some isLoggedIn_false]))
      (call (ask "Are we logged in?" (Some Bool_model)) 2 silent) (fresh tt) in
  fst run
  = Fulfilled {| data := Parsed_data (JObject [("isLoggedIn", JBool false)]);
                 usage := usage_of (reply (Some isLoggedIn_false)) |}
  /\ attempts (snd run) = 2 + 1.
Proof.
  apply (conforming_answer_ends_the_retries
           (gpt (scripted [Some isLoggedIn_1; Some isLoggedIn_1;
                           Some isLoggedIn_false]))
           (call (ask "Are we logged in?" (Some Bool_model)) 2 silent) tt
           Bool_model 2 (reply (Some isLoggedIn_false))
           {| OpenAI.message := {| OpenAI.content := Some isLoggedIn_false |} |}
           [] isLoggedIn_false (JObject [("isLoggedIn", JBool false)]));
    try reflexivity.
  intros [|[|i]] Hi; [| |lia];
    exists (reply (Some isLoggedIn_1)); split; reflexivity.
Defined.

(** X6.  A rejection of the provider is never retried, at whatever
    attempt it comes: when the first [k] answers are mismatches within
    the budget and the provider rejects the next request, the call is
    rejected with the provider's reason after exactly [k + 1] requests. *)
Theorem transport_failure_is_not_retried {Sink : Type} self
  (args : CreateChatCompletionOptions Sink) (s : Sink) (k : nat) reason :
  k <= Z.to_nat match retries args with Some r => r | None => 3%Z end ->
  (forall i, i < k ->
     exists earlier,
       client self i (request self (options args)) = OpenAI.Resolves earlier
       /\ mismatch (options args) earlier = true) ->
  client self k (request self (options args)) = OpenAI.Rejects reason ->
  let run := createChatCompletion self args (fresh s) in
  fst run = Rejected (TransportFailure reason)
  /\ attempts (snd run) = k + 1.
Proof.
  intros Hk Hbefore Hc run. subst run.
  destruct (run_decided self args s k Hk Hbefore) as [Ha Ho].
  - rewrite Hc. exact I.
  - split; [|exact Ha]. rewrite Ho, Hc. reflexivity.
Qed.

Lemma transport_failure_is_not_retried_witness :
  let run :=
    createChatCompletion (gpt (scripted [Some isLoggedIn_1]))
      (call (ask "Are we logged in?" (Some Bool_model)) 3 silent) (fresh tt) in
  fst run = Rejected (TransportFailure "script is over")
  /\ attempts (snd run) = 1 + 1.
Proof.
  apply (transport_failure_is_not_retried (gpt (scripted [Some isLoggedIn_1]))
           (call (ask "Are we logged in?" (Some Bool_model)) 3 silent) tt 1
           "script is over").
  - vm_compute. lia.
  - intros [|i] Hi; [|lia].
    exists (reply (Some isLoggedIn_1)). split; reflexivity.
  - reflexivity.
Defined.

(** X7.  The client raises no transport failure of its own: a call
    rejected with one was rejected by the provider, with that reason, on
    the last request the call sent. *)
Theorem transport_failure_is_the_providers {Sink : Type} self
  (args : CreateChatCompletionOptions Sink) (s : Sink) reason :
  let run := createChatCompletion self args (fresh s) in
  fst run = Rejected (TransportFailure reason) ->
  client self (attempts (snd run) - 1) (request self (options args))
  = OpenAI.Rejects reason.
Proof.
  intros run Hf. subst run.
  destruct (call_run self args s) as (k & _ & Hd & _ & Hl).
  cbv zeta in Hd, Hl. unfold attempts. rewrite Hd, repeat_length.
  replace (S k - 1) with k by lia.
  destruct (client self k (request self (options args)))
    as [response|reason'].
  - destruct Hl as [Hl _]. rewrite Hf in Hl.
    destruct (last_word_settled (options args) response) as [_ Hn].
    exfalso. apply (Hn reason). symmetry. exact Hl.
  - rewrite Hf in Hl. injection Hl as ->. reflexivity.
Qed.

Lemma transport_failure_is_the_providers_witness :
  let self := gpt (scripted [Some isLoggedIn_1]) in
  let args := call (ask "Are we logged in?" (Some Bool_model)) 3 silent in
  client self (attempts (snd (createChatCompletion self args (fresh tt))) - 1)
    (request self (options args))
  = OpenAI.Rejects "script is over".
Proof.
  cbv zeta.
  apply (transport_failure_is_the_providers (gpt (scripted [Some isLoggedIn_1]))
           (call (ask "Are we logged in?" (Some Bool_model)) 3 silent) tt).
  reflexivity.
Defined.

(** X8.  An answer without a payload that parses ends a schema call at
    whatever attempt it comes, retries left or not: after [k] mismatches
    within the budget such an answer makes the call fail after [k + 1]
    requests, with a [TypeError] when it has no choice, with
    [EmptyResponse] when the content is [null] or empty, and with the
    parser's [SyntaxError] otherwise. *)
Theorem broken_answer_ends_the_retries {Sink : Type} self
  (args : CreateChatCompletionOptions Sink) (s : Sink) rm (k : nat) response :
  response_model (options args) = Some rm ->
  k <= Z.to_nat match retries args with Some r => r | None => 3%Z end ->
  (forall i, i < k ->
     exists earlier,
       client self i (request self (options args)) = OpenAI.Resolves earlier
       /\ mismatch (options args) earlier = true) ->
  client self k (request self (options args)) = OpenAI.Resolves response ->
  parsed_payload response = None ->
  let run := createChatCompletion self args (fresh s) in
  attempts (snd run) = k + 1
  /\ fst run
     = match OpenAI.choices response with
       | [] => Rejected TypeError
       | choice :: _ =>
           match OpenAI.content (OpenAI.message choice) with
           | None => Rejected EmptyResponse
           | Some text =>
               if truthy_string text then Rejected (SyntaxError text)
               else Rejected EmptyResponse
           end
       end.
Proof.
  intros Hrm Hk Hbefore Hc Hp run. subst run.
  destruct (run_decided self args s k Hk Hbefore) as [Ha Ho].
  - rewrite Hc. unfold mismatch. unfold parsed_payload in Hp. rewrite Hrm.
    destruct (OpenAI.choices response) as [|choice rest]; [reflexivity|].
    destruct (OpenAI.content (OpenAI.message choice)) as [text|];
      [|reflexivity].
    rewrite Hp. apply andb_false_r.
  - split; [exact Ha|]. rewrite Ho, Hc.
    unfold last_word, settle. unfold parsed_payload in Hp. rewrite Hrm.
    destruct (OpenAI.choices response) as [|choice rest]; [reflexivity|].
    destruct (OpenAI.content (OpenAI.message choice)) as [text|];
      [|reflexivity].
    rewrite Hp. destruct (truthy_string text); reflexivity.
Qed.

Lemma broken_answer_ends_the_retries_witness :
  let run :=
    createChatCompletion
      (gpt (scripted [Some isLoggedIn_1; Some "I cannot tell."]))
      (call (ask "Are we logged in?" (Some Bool_model)) 3 silent) (fresh tt) in
  attempts (snd run) = 1 + 1
  /\ fst run = Rejected (SyntaxError "I cannot tell.").
Proof.
  apply (broken_answer_ends_the_retries
           (gpt (scripted [Some isLoggedIn_1; Some "I cannot tell."]))
           (call (ask "Are we logged in?" (Some Bool_model)) 3 silent) tt
           Bool_model 1 (reply (Some "I cannot tell.")));
    try reflexivity.
  - vm_compute. lia.
  - intros [|i] Hi; [|lia].
    exists (reply (Some isLoggedIn_1)). split; reflexivity.
Defined.

(** ** The request builder and the log, over a run *)

Lemma logged_blocks self options responses line :
  In line (logged (List.concat (map (answered_block self options) responses))) ->
  line = creating_line self options
  \/ line = openaiOptions_line self options
  \/ exists response, line = response_line options response.
Proof.
  induction responses as [|r responses IH]; cbn [map List.concat logged].
  - intros [].
  - rewrite logged_app, logged_answered_block. intros H.
    apply in_app_or in H. destruct H as [H|H]; [|auto].
    cbn [In] in H. destruct H as [<-|[<-|[<-|[]]]]; eauto.
Qed.

(** The records a run gives the logger are the three records of its
    attempts. *)
Lemma logged_of_run {Sink : Type} self
  (args : CreateChatCompletionOptions Sink) (s : Sink) line :
  In line (logged (events (snd (createChatCompletion self args (fresh s))))) ->
  line = creating_line self (options args)
  \/ line = openaiOptions_line self (options args)
  \/ exists response, line = response_line (options args) response.
Proof.
  destruct (createChatCompletion_attempt self args) as (n & _ & ->).
  destruct (attempt_trace self (options args) (logger args) (S (Z.to_nat n))
              n (fresh s)) as (responses & tail & He & _ & _ & Ht).
  cbv zeta in He, Ht. cbn [fresh events app] in He.
  rewrite He, logged_app. intros H.
  apply in_app_or in H. destruct H as [H|H].
  - eapply logged_blocks; eauto.
  - destruct Ht as [[-> _] | [-> _]]; [destruct H|].
    rewrite logged_request_block in H. cbn [In] in H.
    destruct H as [<-|[<-|[]]]; auto.
Qed.

(** X9.  Every request a call sends is built the same way: it is not
    streamed, it names the client's model, it passes the caller's other
    parameters through, it has one message for each message of the
    caller, in order and each within the wire invariant, it carries a
    response format exactly when a schema is asked for and then under the
    schema's name, and its tools are the caller's tools one to one, each
    of type [function]. *)
Theorem every_request_is_well_formed {Sink : Type} self
  (args : CreateChatCompletionOptions Sink) (s : Sink) :
  let run := createChatCompletion self args (fresh s) in
  Forall
    (fun body =>
       OpenAI.stream body = false
       /\ OpenAI.model body = modelName self
       /\ OpenAI.params body = params (options args)
       /\ List.length (OpenAI.messages body)
          = List.length (messages (options args))
       /\ OpenAI.messages body
          = map (fun message => fst (formatMessage (image (options args)) message))
                (messages (options args))
       /\ option_map OpenAI.json_schema_name (OpenAI.response_format body)
          = option_map name (response_model (options args))
       /\ option_map (map (fun t => (OpenAI.name (OpenAI.function t),
                                     OpenAI.description (OpenAI.function t),
                                     OpenAI.parameters (OpenAI.function t),
                                     OpenAI.type t)))
                     (OpenAI.tools body)
          = option_map (map (fun t => (LLMTool.name t, LLMTool.description t,
                                       LLMTool.parameters t, "function")))
                       (tools (options args)))
    (dispatches (events (snd run))).
Proof.
  cbv zeta.
  destruct (call_run self args s) as (k & _ & Hd & _ & _).
  cbv zeta in Hd. rewrite Hd.
  apply Forall_forall. intros body Hin. apply repeat_spec in Hin. subst body.
  unfold request, body, formatMessages, responseFormat.
  cbn [OpenAI.stream OpenAI.model OpenAI.params OpenAI.messages
       OpenAI.response_format OpenAI.tools fst openaiOptions oo_params].
  repeat split.
  - rewrite !length_map. reflexivity.
  - rewrite map_map. reflexivity.
  - destruct (response_model (options args)); reflexivity.
  - destruct (tools (options args)) as [ts|]; [|reflexivity].
    cbn [option_map]. rewrite map_map. reflexivity.
Qed.

(** X10.  The attachment is never given to the logger: every options
    record of every log record of a run has no [image], and has the
    messages and the request id of the caller as they came. *)
Theorem attachment_is_never_logged {Sink : Type} self
  (args : CreateChatCompletionOptions Sink) (s : Sink) :
  let run := createChatCompletion self args (fresh s) in
  Forall
    (fun line =>
       Forall (fun o => image o = None
                        /\ messages o = messages (options args)
                        /\ requestId o = requestId (options args))
              (logged_options line))
    (logged (events (snd run))).
Proof.
  cbv zeta. apply Forall_forall. intros line Hin.
  apply logged_of_run in Hin.
  destruct Hin as [-> | [-> | [response ->]]]; cbn.
  - repeat constructor.
  - constructor.
  - constructor.
Qed.

Example attachment_is_sent_and_not_logged :
  let options :=
    {| messages := [{| role := user; content := Plain "What's in this image?" |}];
       image := Some (ImageObject None (Some [x4d; x61; x6e]%byte));
       requestId := Some "r-1";
       response_model := None;
       tools := None;
       params := [] |} in
  let run :=
    createChatCompletion (gpt (constant (Some "7XK2")))
      (call options 0 recorder) (fresh []) in
  map OpenAI.messages (dispatches (events (snd run)))
  = [[{| role := user;
         content := Parts [textContent "What's in this image?";
                           imageContent "data:image/jpeg;base64,TWFu"] |}]]
  /\ flat_map logged_options (sink (snd run))
     = [{| messages := [{| role := user;
                           content := Plain "What's in this image?" |}];
           image := None;
           requestId := Some "r-1";
           response_model := None;
           tools := None;
           params := [] |}].
Proof. split; reflexivity. Qed.

(** ** The normalizer, on whole message lists *)

Lemma formatMessage_wire_ok (image : option Image) (message : ChatMessage) :
  wire_ok (fst (formatMessage image message)).
Proof.
  destruct message as [r [s|parts]]; unfold formatMessage;
    cbn [content role].
  - destruct r; [exact I| |exact I].
    destruct image as [img|]; [|exact I].
    destruct (truthy_image (Some img)); [|exact I].
    destruct (imageUrl img); exact I.
  - assert (H : Forall (fun part => type part = "text" /\ image_url part = None)
                  (filter is_text (map contentPart parts))).
    { apply Forall_forall. intros part Hin.
      apply filter_In in Hin. destruct Hin as [Hin Ht].
      apply in_map_iff in Hin. destruct Hin as [p [<- _]].
      apply contentPart_text_only, Ht. }
    destruct r; [exact H|exact I|exact H].
Qed.

(** X11.  Whatever the caller's messages and attachment, on the wire a
    message of role system or assistant has an array content made of text
    parts that carry no image: plain-string messages all leave as user
    messages, and the array messages of the other roles are filtered. *)
Theorem wire_messages_ok (image : option Image) (messages : list ChatMessage) :
  Forall wire_ok (fst (formatMessages image messages))
  /\ Forall (fun message =>
               forall s, content message = Plain s -> role message = user)
            (fst (formatMessages image messages)).
Proof.
  unfold formatMessages. cbn [fst]. rewrite map_map. split.
  - apply Forall_forall. intros m Hin. apply in_map_iff in Hin.
    destruct Hin as [message [<- _]]. apply formatMessage_wire_ok.
  - apply Forall_forall. intros m Hin. apply in_map_iff in Hin.
    destruct Hin as [message [<- _]].
    pose proof (formatMessage_wire_ok image message) as H.
    unfold wire_ok in H. intros s Hs. rewrite Hs in H.
    destruct (role (fst (formatMessage image message)));
      [destruct H|reflexivity|destruct H].
Qed.

Lemma formatMessages_cons image message messages :
  formatMessages image (message :: messages)
  = (fst (formatMessage image message) :: fst (formatMessages image messages),
     snd (formatMessage image message) ++ snd (formatMessages image messages)).
Proof. reflexivity. Qed.

(** X12.  A supported attachment is merged into every plain-string user
    message of the list, not into the first alone: each becomes its text
    followed by the image, every other message is normalized as it is
    without an attachment, and nothing is warned about. *)
Theorem attachment_reaches_every_plain_user_message
  (img : Image) (u : string) (messages : list ChatMessage) :
  truthy_image (Some img) = true ->
  imageUrl img = Some u ->
  formatMessages (Some img) messages
  = (map (fun message =>
            match role message, content message with
            | user, Plain s =>
                {| role := user;
                   content := Parts [textContent s; imageContent u] |}
            | _, _ => fst (formatMessage None message)
            end) messages,
     []).
Proof.
  intros Ht Hu. induction messages as [|message messages IH]; [reflexivity|].
  rewrite formatMessages_cons, IH. cbn [fst snd map]. rewrite app_nil_r.
  destruct message as [r [s|parts]]; unfold formatMessage;
    cbn [content role].
  - destruct r; try reflexivity. rewrite Ht, Hu. reflexivity.
  - destruct r; reflexivity.
Qed.

Lemma attachment_reaches_every_plain_user_message_witness :
  formatMessages (Some (ImageObject (Some "https://pec.edu.in/c.png") None))
    [{| role := user; content := Plain "first" |};
     {| role := system; content := Plain "be brief" |};
     {| role := user; content := Plain "second" |}]
  = ([{| role := user;
         content := Parts [textContent "first";
                           imageContent "https://pec.edu.in/c.png"] |};
      {| role := user; content := Plain "be brief" |};
      {| role := user;
         content := Parts [textContent "second";
                           imageContent "https://pec.edu.in/c.png"] |}],
     []).
Proof.
  apply (attachment_reaches_every_plain_user_message
           (ImageObject (Some "https://pec.edu.in/c.png") None)
           "https://pec.edu.in/c.png"
           [{| role := user; content := Plain "first" |};
            {| role := system; content := Plain "be brief" |};
            {| role := user; content := Plain "second" |}]);
    reflexivity.
Defined.

(** X13.  An attachment of an unsupported shape changes no message: the
    list is normalized as it is without an attachment, and the warning is
    written once for each plain-string user message, that many times and
    no more. *)
Theorem unsupported_attachment_only_warns
  (img : Image) (messages : list ChatMessage) :
  truthy_image (Some img) = true ->
  imageUrl img = None ->
  formatMessages (Some img) messages
  = (fst (formatMessages None messages),
     repeat "Unsupported image format provided"
            (List.length (filter plain_user messages))).
Proof.
  intros Ht Hu. induction messages as [|message messages IH]; [reflexivity|].
  rewrite !formatMessages_cons, IH. cbn [fst snd filter].
  destruct message as [r [s|parts]]; unfold formatMessage, plain_user;
    cbn [content role].
  - destruct r; try reflexivity. rewrite Ht, Hu. reflexivity.
  - destruct r; reflexivity.
Qed.

Lemma unsupported_attachment_only_warns_witness :
  formatMessages (Some ImageOther)
    [{| role := user; content := Plain "first" |};
     {| role := assistant; content := Plain "noted" |};
     {| role := user; content := Plain "second" |}]
  = ([{| role := user; content := Plain "first" |};
      {| role := user; content := Plain "noted" |};
      {| role := user; content := Plain "second" |}],
     ["Unsupported image format provided";
      "Unsupported image format provided"]).
Proof.
  apply (unsupported_attachment_only_warns ImageOther
           [{| role := user; content := Plain "first" |};
            {| role := assistant; content := Plain "noted" |};
            {| role := user; content := Plain "second" |}]);
    reflexivity.
Defined.

Lemma contentPart_textContent (s : string) :
  contentPart (textContent s) = textContent s.
Proof.
  unfold contentPart, textContent. cbn [image_url text].
  destruct (truthy_string s) eqn:E; [reflexivity|].
  unfold truthy_string in E. apply negb_false_iff, String.eqb_eq in E.
  subst s. reflexivity.
Qed.

(** X14.  Normalizing a normalized list again changes nothing, provided
    the list had no attachment to merge or every plain-string message in
    it was a user message; and without an attachment nothing is warned
    about.  (A plain-string system message leaves as a user message, so
    with an attachment the second pass would merge the image into it.) *)
Theorem normalization_idempotent
  (image : option Image) (messages : list ChatMessage) :
  negb (truthy_image image)
  || forallb (fun message =>
                match content message with
                | Plain _ => plain_user message
                | Parts _ => true
                end) messages = true ->
  fst (formatMessages image (fst (formatMessages image messages)))
  = fst (formatMessages image messages)
  /\ (truthy_image image = false -> snd (formatMessages image messages) = []).
Proof.
  intros H. split.
  - induction messages as [|message messages IH]; [reflexivity|].
    rewrite formatMessages_cons. cbn [fst].
    rewrite formatMessages_cons. cbn [fst].
    assert (Hrest : negb (truthy_image image)
                    || forallb (fun message =>
                                  match content message with
                                  | Plain _ => plain_user message
                                  | Parts _ => true
                                  end) messages = true).
    { destruct (negb (truthy_image image)); [reflexivity|].
      cbn [orb forallb] in H |- *. apply andb_prop in H. apply H. }
    rewrite (IH Hrest). f_equal.
    assert (Hm : truthy_image image = false
                 \/ match content message with
                    | Plain _ => plain_user message
                    | Parts _ => true
                    end = true).
    { destruct (truthy_image image); [right|left; reflexivity].
      cbn [negb orb forallb] in H. apply andb_prop in H. apply H. }
    clear H Hrest IH.
    destruct message as [r [s|parts]]; unfold formatMessage, plain_user in *;
      cbn [content role] in *.
    + destruct r.
      * destruct Hm as [Hm|Hm]; [|discriminate].
        cbn [fst content role].
        destruct image as [img|]; [rewrite Hm|]; reflexivity.
      * destruct image as [img|]; [|reflexivity].
        destruct (truthy_image (Some img)) eqn:Ht;
          [|reflexivity].
        destruct (imageUrl img) as [u|] eqn:Hu; cbn [fst content role].
        -- cbn [map]. rewrite contentPart_textContent. reflexivity.
        -- reflexivity.
      * destruct Hm as [Hm|Hm]; [|discriminate].
        cbn [fst content role].
        destruct image as [img|]; [rewrite Hm|]; reflexivity.
    + destruct r; cbn [fst content role].
      * rewrite contentPart_on_classified, filter_idempotent. reflexivity.
      * rewrite map_map, (map_ext _ _ contentPart_idempotent). reflexivity.
      * rewrite contentPart_on_classified, filter_idempotent. reflexivity.
  - intros Ht. clear H.
    induction messages as [|message messages IH]; [reflexivity|].
    rewrite formatMessages_cons. cbn [snd]. rewrite IH, app_nil_r.
    destruct message as [r [s|parts]]; unfold formatMessage;
      cbn [content role].
    + destruct r; try reflexivity.
      destruct image as [img|]; [rewrite Ht|]; reflexivity.
    + destruct r; reflexivity.
Qed.

Lemma normalization_idempotent_witness :
  let messages :=
    [{| role := system;
        content := Parts [textContent "be brief"; imageContent "x.png"] |};
     {| role := user; content := Plain "What's in this image?" |}] in
  let image := Some (ImageObject None (Some [x4d; x61; x6e]%byte)) in
  fst (formatMessages image (fst (formatMessages image messages)))
  = fst (formatMessages image messages).
Proof.
  cbv zeta.
  apply (normalization_idempotent
           (Some (ImageObject None (Some [x4d; x61; x6e]%byte)))
           [{| role := system;
               content := Parts [textContent "be brief"; imageContent "x.png"] |};
            {| role := user; content := Plain "What's in this image?" |}]).
  reflexivity.
Defined.

(** With an attachment and a plain-string system message the second pass
    is not the first. *)
Example second_pass_merges_into_a_system_message :
  let messages := [{| role := system; content := Plain "be brief" |}] in
  let image := Some (ImageString "https://pec.edu.in/c.png") in
  fst (formatMessages image messages)
  = [{| role := user; content := Plain "be brief" |}]
  /\ fst (formatMessages image (fst (formatMessages image messages)))
     = [{| role := user;
           content := Parts [textContent "be brief";
                             imageContent "https://pec.edu.in/c.png"] |}].
Proof. split; reflexivity. Qed.

(** ** The CAPTCHA reader *)

Lemma filter_all {A : Type} (f : A -> bool) (l : list A) :
  forallb f l = true -> filter f l = l.
Proof. apply forallb_filter_id. Qed.

Lemma filter_shorter {A : Type} (f : A -> bool) (l : list A) :
  List.length (filter f l) <= List.length l.
Proof.
  induction l as [|a l IH]; simpl; [lia|].
  destruct (f a); simpl; lia.
Qed.

Lemma length_chars (s : string) :
  List.length (list_ascii_of_string s) = String.length s.
Proof.
  induction s as [|c s IH]; simpl; [reflexivity|]. rewrite IH. reflexivity.
Qed.

(** X15.  The text the CAPTCHA reader makes of an answer holds letters
    and digits only, in the order they had; cleaning a cleaned text
    changes nothing, a text of letters and digits is kept whole, and the
    result is never longer than the answer. *)
Theorem captcha_text_is_clean (s : string) :
  forallb is_alphanumeric (list_ascii_of_string (alphanumeric s)) = true
  /\ alphanumeric (alphanumeric s) = alphanumeric s
  /\ String.length (alphanumeric s) <= String.length s
  /\ (forallb is_alphanumeric (list_ascii_of_string s) = true ->
      alphanumeric s = s).
Proof.
  unfold alphanumeric.
  rewrite !list_ascii_of_string_of_list_ascii.
  split; [apply forallb_filter|]. split; [|split].
  - rewrite filter_idempotent. reflexivity.
  - rewrite <- !length_chars.
    rewrite list_ascii_of_string_of_list_ascii. apply filter_shorter.
  - intros H. rewrite (filter_all _ _ H).
    apply string_of_list_ascii_of_string.
Qed.

Lemma captcha_text_is_clean_witness :
  alphanumeric "7XK2" = "7XK2".
Proof.
  apply (captcha_text_is_clean "7XK2"). reflexivity.
Defined.

Example captcha_text_examples :
  map alphanumeric ["7XK2"; " 7 x-K2. "; "The text is: A1b2"; ""]
  = ["7XK2"; "7xK2"; "ThetextisA1b2"; ""].
Proof. reflexivity. Qed.

(** X16.  One reading of a CAPTCHA is one request, whatever comes back,
    the default budget of three retries notwithstanding: the request goes
    to [gpt-4o], unstreamed and without a response format, and its one
    message is the caller's, unchanged by the normalizer: the prompt and
    the screenshot as a PNG data URI.  The reading fails with the
    provider's rejection or, on an answer without a choice, with a
    [TypeError]; else it is the letters and digits of the first choice's
    content, the empty text for [null]. *)
Theorem recognizeCaptcha_is_one_request
  (openai : OpenAI.Client) (imageBuffer : list byte) :
  let run := recognizeCaptchaWithLLM openai imageBuffer (fresh tt) in
  let sent_body :=
    {| OpenAI.params :=
         [("max_tokens", JNumber "20"); ("temperature", JNumber "0.1")];
       OpenAI.model := "gpt-4o";
       OpenAI.messages :=
         [{| role := user;
             content :=
               Parts [textContent captcha_prompt;
                      imageContent ("data:image/png;base64,"
                                    ++ Base64.encode imageBuffer)%string] |}];
       OpenAI.response_format := None;
       OpenAI.stream := false;
       OpenAI.tools := None |} in
  dispatches (events (snd run)) = [sent_body]
  /\ fst run
     = match openai 0 sent_body with
       | OpenAI.Rejects reason => Rejected (TransportError reason)
       | OpenAI.Resolves response =>
           match OpenAI.choices response with
           | [] => Rejected TypeError
           | choice :: _ =>
               match OpenAI.content (OpenAI.message choice) with
               | Some text => Fulfilled (alphanumeric text)
               | None => Fulfilled ""
               end
           end
       end.
Proof.
  cbv zeta. unfold recognizeCaptchaWithLLM.
  set (llm := {| modelName := "gpt-4o"; client := openai |}).
  set (args := {| options := captcha_options imageBuffer;
                  retries := None; logger := silent |}).
  destruct (call_run llm args tt) as (k & _ & Hd & Hi & Hl).
  cbv zeta in Hd, Hi, Hl.
  assert (k = 0) as ->.
  { destruct k as [|k]; [reflexivity|].
    destruct (Hi 0) as (r & _ & Hm); [lia|]. discriminate Hm. }
  change (request llm (options args))
    with {| OpenAI.params :=
              [("max_tokens", JNumber "20"); ("temperature", JNumber "0.1")];
            OpenAI.model := "gpt-4o";
            OpenAI.messages :=
              [{| role := user;
                  content :=
                    Parts [textContent captcha_prompt;
                           imageContent ("data:image/png;base64,"
                                         ++ Base64.encode imageBuffer)%string] |}];
            OpenAI.response_format := None;
            OpenAI.stream := false;
            OpenAI.tools := None |} in Hd, Hl.
  change (client llm) with openai in Hl.
  unfold bind.
  destruct (createChatCompletion llm args (fresh tt)) as [outcome w] eqn:Hrun.
  cbn [fst snd] in Hd, Hl.
  destruct (openai 0 _) as [response|reason].
  - destruct Hl as [Hl _]. subst outcome.
    unfold last_word, settle. cbn [options args response_model captcha_options].
    destruct (OpenAI.choices response) as [|choice rest];
      cbn [fst throw ret snd]; [auto|].
    cbn [data captcha_text].
    destruct (OpenAI.content (OpenAI.message choice)); auto.
  - subst outcome. cbn [fst snd]. auto.
Qed.

Example captcha_reading :
  fst (recognizeCaptchaWithLLM (constant (Some "The characters are: 7X-K2"))
         [x4d; x61; x6e]%byte (fresh tt))
  = Fulfilled "Thecharactersare7XK2".
Proof. reflexivity. Qed.

(** ** Texts *)

Module TextFacts.
Import Text.

Lemma strip_prefix_app (p l r : list ascii) :
  Lexer.strip_prefix p l = Some r -> l = p ++ r.
Proof.
  revert l. induction p as [|a p IH]; intros l H; simpl in H.
  - injection H as <-. reflexivity.
  - destruct l as [|b l]; [discriminate|].
    destruct (a =? b)%char eqn:E; [|discriminate].
    apply Ascii.eqb_eq in E. subst b. rewrite (IH _ H). reflexivity.
Qed.

Lemma strip_prefix_self (p r : list ascii) :
  Lexer.strip_prefix p (p ++ r) = Some r.
Proof.
  induction p as [|a p IH]; simpl; [reflexivity|].
  rewrite Ascii.eqb_refl. exact IH.
Qed.

Lemma after_one_app seqs (l r : list ascii) :
  after_one seqs l = Some r -> exists p, l = p ++ r.
Proof.
  induction seqs as [|p ps IH]; simpl; [discriminate|].
  destruct (Lexer.strip_prefix p l) as [rest|] eqn:E.
  - intros H. injection H as <-. exists p. apply strip_prefix_app, E.
  - exact IH.
Qed.

(** What [strip] returns is the end of what it was given. *)
Lemma strip_is_suffix seqs (n : nat) :
  forall l, exists pre, l = pre ++ strip seqs n l.
Proof.
  induction n as [|n IH]; intros l; simpl.
  - exists []. reflexivity.
  - destruct l as [|c rest]; [exists []; reflexivity|].
    destruct (is_space c).
    + destruct (IH rest) as [pre Hp]. exists (c :: pre).
      simpl. rewrite <- Hp. reflexivity.
    + destruct (after_one seqs (c :: rest)) as [rest'|] eqn:E.
      * apply after_one_app in E. destruct E as [p Hp].
        destruct (IH rest') as [pre Hpre].
        exists (p ++ pre). rewrite <- app_assoc, <- Hpre. exact Hp.
      * exists []. reflexivity.
Qed.

(** A trimmed text is a part of the text. *)
Lemma trim_is_part (s : string) :
  exists pre post,
    list_ascii_of_string s = pre ++ list_ascii_of_string (trim s) ++ post.
Proof.
  unfold trim, trim_end, trim_start.
  rewrite list_ascii_of_string_of_list_ascii.
  set (l := list_ascii_of_string s).
  destruct (strip_is_suffix wide_spaces (List.length l) l) as [pre Hpre].
  set (m := strip wide_spaces (List.length l) l) in *.
  destruct (strip_is_suffix (map (@rev ascii) wide_spaces) (List.length m)
              (rev m)) as [post Hpost].
  exists pre, (rev post).
  rewrite <- rev_app_distr, <- Hpost, rev_involutive. exact Hpre.
Qed.

Lemma includes_chars_app (needle pre post : list ascii) :
  includes_chars needle (pre ++ needle ++ post) = true.
Proof.
  induction pre as [|c pre IH].
  - destruct needle as [|a needle]; [destruct post; reflexivity|].
    cbn [app includes_chars].
    change (a :: needle ++ post) with ((a :: needle) ++ post).
    rewrite strip_prefix_self. reflexivity.
  - cbn [app includes_chars].
    destruct (Lexer.strip_prefix needle (c :: pre ++ needle ++ post));
      [reflexivity|exact IH].
Qed.

(** A text includes what it is trimmed to. *)
Lemma includes_trim (s : string) : includes s (trim s) = true.
Proof.
  unfold includes. destruct (trim_is_part s) as (pre & post & ->).
  apply includes_chars_app.
Qed.

End TextFacts.

Example trim_examples :
  map Text.trim
      ["CS6701"; "  CS6701 "; String "009" (String "010" "a b");
       String (ascii_of_nat 194) (String (ascii_of_nat 160) "x");
       String "x" (String (ascii_of_nat 226)
                     (String (ascii_of_nat 128) (String (ascii_of_nat 137) "")));
       "   "; ""]
  = ["CS6701"; "CS6701"; "a b"; "x"; "x"; ""; ""].
Proof. reflexivity. Qed.

Module TrimFacts.
Import Text TextFacts.

Lemma after_one_shorter seqs (l r : list ascii) :
  Forall (fun p => p <> []) seqs ->
  after_one seqs l = Some r -> List.length r < List.length l.
Proof.
  induction seqs as [|p ps IH]; simpl; [discriminate|].
  intros Hne. inversion Hne as [|? ? Hp Hps]; subst.
  destruct (Lexer.strip_prefix p l) as [rest|] eqn:E.
  - intros H. injection H as <-. apply strip_prefix_app in E. subst l.
    rewrite length_app. destruct p; [congruence|]. simpl. lia.
  - apply IH, Hps.
Qed.

(** With as many removals allowed as the text is long, [strip] leaves
    nothing to remove. *)
Lemma strip_settled seqs (n : nat) :
  Forall (fun p => p <> []) seqs ->
  forall l, List.length l <= n ->
            strip seqs 1 (strip seqs n l) = strip seqs n l.
Proof.
  intros Hne. induction n as [|n IH]; intros l Hl.
  - destruct l; [reflexivity|simpl in Hl; lia].
  - cbn [strip]. destruct l as [|c rest]; [reflexivity|].
    simpl in Hl.
    destruct (is_space c) eqn:Ec; [apply IH; lia|].
    destruct (after_one seqs (c :: rest)) as [rest'|] eqn:E.
    + apply IH. apply (after_one_shorter _ _ _ Hne) in E. simpl in E. lia.
    + cbn [strip]. rewrite Ec, E. reflexivity.
Qed.

Lemma wide_spaces_nonempty : Forall (fun p : list ascii => p <> []) wide_spaces.
Proof. repeat constructor; discriminate. Qed.

Lemma trim_start_settled (l : list ascii) :
  strip wide_spaces 1 (trim_start l) = trim_start l.
Proof.
  apply strip_settled; [exact wide_spaces_nonempty|lia].
Qed.

End TrimFacts.

(** ** The course table *)

Lemma row_course_some (row : Element.Row) (course : Course) :
  row_course row = Some course ->
  exists name,
    3 <= List.length (Element.cells row)
    /\ code_and_name (Element.cells row) = Some (courseCode course, name)
    /\ courseName course = name
    /\ isVisible course = true
    /\ match Element.checkbox row with
       | Some checkbox =>
           isSelectable course = negb (Element.disabled checkbox)
           /\ checkboxState course
              = (if Element.checked checkbox then "checked" else "unchecked")
           /\ onclick course = onclick_or_none checkbox
       | None =>
           isSelectable course = false
           /\ checkboxState course = "not_found"
           /\ onclick course = "none"
       end.
Proof.
  unfold row_course.
  destruct (List.length (Element.cells row) <? 3) eqn:E; [discriminate|].
  apply Nat.ltb_ge in E.
  destruct (code_and_name (Element.cells row)) as [[code name]|];
    [|discriminate].
  intros H. injection H as <-. exists name.
  destruct (Element.checkbox row); cbn; repeat split; assumption.
Qed.

Lemma code_and_name_code cells code name :
  code_and_name cells = Some (code, name) ->
  is_course_code code = true
  /\ exists cell, In cell cells /\ cell_text cell = code.
Proof.
  induction cells as [|cell rest IH]; simpl; [discriminate|].
  destruct (is_course_code (cell_text cell)) eqn:E.
  - intros H. injection H as <- _. split; [exact E|]. exists cell. auto.
  - intros H. destruct (IH H) as [Hc (c & Hin & Ht)].
    split; [exact Hc|]. exists c. auto.
Qed.

Lemma allCourses_In rows course :
  In course (allCourses rows) <->
  exists row, In row rows /\ row_course row = Some course.
Proof.
  induction rows as [|row rows IH]; simpl.
  - split; [intros []|intros (r & [] & _)].
  - destruct (row_course row) as [c|] eqn:E.
    + simpl. rewrite IH. split.
      * intros [<-|(r & Hin & Hr)]; eauto.
      * intros (r & [<-|Hin] & Hr); [left; congruence|right; eauto].
    + rewrite IH. split.
      * intros (r & Hin & Hr). eauto.
      * intros (r & [<-|Hin] & Hr); [congruence|eauto].
Qed.

Lemma is_course_code_length (code : string) :
  is_course_code code = true -> String.length code = 6.
Proof.
  unfold is_course_code. rewrite <- length_chars.
  destruct (list_ascii_of_string code) as [|a [|b [|c [|d [|e [|f [|g l]]]]]]];
    try discriminate.
  reflexivity.
Qed.

Lemma onclick_or_none_truthy (checkbox : Element.Checkbox) :
  truthy_string (onclick_or_none checkbox) = true.
Proof.
  unfold onclick_or_none.
  destruct (Element.onclick checkbox) as [value|]; [|reflexivity].
  destruct (truthy_string value) eqn:E; [exact E|reflexivity].
Qed.

(** X17.  Every course the scan lists is well formed: its code is two
    capital letters and four digits and nothing else, it is marked
    visible, its checkbox state is one of [checked], [unchecked] and
    [not_found], it is selectable only when a checkbox was found, a
    course without a checkbox has [none] as its [onclick], and the
    [onclick] is never empty.  The scan lists at most one course for each
    row. *)
Theorem listed_courses_are_well_formed (courseRows : list Element.Row) :
  Forall
    (fun course =>
       is_course_code (courseCode course) = true
       /\ String.length (courseCode course) = 6
       /\ isVisible course = true
       /\ In (checkboxState course) ["checked"; "unchecked"; "not_found"]
       /\ (if isSelectable course
           then negb (checkboxState course =? "not_found")%string
           else true) = true
       /\ (if (checkboxState course =? "not_found")%string
           then (onclick course =? "none")%string
           else true) = true
       /\ truthy_string (onclick course) = true)
    (allCourses courseRows)
  /\ List.length (allCourses courseRows) <= List.length courseRows.
Proof.
  split.
  - apply Forall_forall. intros course Hin.
    apply allCourses_In in Hin. destruct Hin as (row & _ & Hrow).
    apply row_course_some in Hrow.
    destruct Hrow as (name & _ & Hcode & _ & Hv & Hbox).
    apply code_and_name_code in Hcode. destruct Hcode as [Hcode _].
    split; [exact Hcode|]. split; [apply is_course_code_length, Hcode|].
    split; [exact Hv|].
    destruct (Element.checkbox row) as [checkbox|];
      destruct Hbox as (-> & -> & ->).
    + destruct (Element.checked checkbox);
        destruct (negb (Element.disabled checkbox));
        cbn; rewrite onclick_or_none_truthy; auto 6.
    + cbn. auto 6.
  - induction courseRows as [|row rows IH]; simpl; [lia|].
    destruct (row_course row); simpl; lia.
Qed.

Lemma mentions_of_code (row : Element.Row) (course : Course) :
  row_course row = Some course ->
  courseCode course = "CS6701" ->
  mentions_CS6701 row = true.
Proof.
  intros Hrow Hcode. apply row_course_some in Hrow.
  destruct Hrow as (name & _ & Hcn & _).
  apply code_and_name_code in Hcn. destruct Hcn as [_ (cell & Hin & Ht)].
  unfold mentions_CS6701. apply existsb_exists. exists cell.
  split; [exact Hin|].
  destruct cell as [textContent|]; cbn [cell_text] in Ht.
  - rewrite <- Hcode, <- Ht. apply TextFacts.includes_trim.
  - rewrite Hcode in Ht. discriminate.
Qed.

(** X18.  The two scripts agree on the presence of the priority course:
    when the scan of all courses lists a course with the code [CS6701],
    the priority check reports the course as visible. *)
Theorem listed_CS6701_is_visible
  (courseRows : list Element.Row) (course : Course) :
  In course (allCourses courseRows) ->
  courseCode course = "CS6701" ->
  Priority.isVisible (cs6701Status courseRows) = true.
Proof.
  intros Hin Hcode. apply allCourses_In in Hin.
  destruct Hin as (row & Hin & Hrow).
  pose proof (mentions_of_code row course Hrow Hcode) as Hm.
  unfold cs6701Status.
  destruct (find mentions_CS6701 courseRows) as [found|] eqn:Hf.
  - destruct (Element.checkbox found); reflexivity.
  - apply (find_none _ _ Hf) in Hin. congruence.
Qed.

Lemma listed_CS6701_is_visible_witness :
  Priority.isVisible
    (cs6701Status
       [{| Element.cells := [Some "Sr."; Some "Code"; Some "Course"];
           Element.checkbox := None |};
        {| Element.cells := [Some "1"; Some " CS6701 ";
                             Some "COMPUTER NETWORKS"];
           Element.checkbox :=
             Some {| Element.disabled := true; Element.checked := false;
                     Element.onclick := Some "chkcontrol0(1)" |} |}])
  = true.
Proof.
  apply (listed_CS6701_is_visible
           [{| Element.cells := [Some "Sr."; Some "Code"; Some "Course"];
               Element.checkbox := None |};
            {| Element.cells := [Some "1"; Some " CS6701 ";
                                 Some "COMPUTER NETWORKS"];
               Element.checkbox :=
                 Some {| Element.disabled := true; Element.checked := false;
                         Element.onclick := Some "chkcontrol0(1)" |} |}]
           {| courseCode := "CS6701"; courseName := "COMPUTER NETWORKS";
              isSelectable := false; isVisible := true;
              checkboxState := "unchecked"; onclick := "chkcontrol0(1)" |}).
  - left. reflexivity.
  - reflexivity.
Defined.

Lemma find_after_misses {A : Type} (f : A -> bool) (before after : list A) (x : A) :
  forallb (fun a => negb (f a)) before = true ->
  f x = true ->
  find f (before ++ x :: after) = Some x.
Proof.
  intros Hb Hx. induction before as [|a before IH]; simpl.
  - rewrite Hx. reflexivity.
  - simpl in Hb. apply andb_prop in Hb. destruct Hb as [Ha Hb].
    apply negb_true_iff in Ha. rewrite Ha. apply IH, Hb.
Qed.

(** X19.  The two scripts agree on the priority course when they look at
    the same row: if no row before it mentions [CS6701] and the scan of
    all courses reads the course [CS6701] off the row, the priority check
    reports the course visible, with the selectability and the checkbox
    state the scan lists for it, and with the same [onclick] when the row
    has a checkbox. *)
Theorem priority_status_agrees_with_listing
  (before after : list Element.Row) (row : Element.Row) (course : Course) :
  forallb (fun r => negb (mentions_CS6701 r)) before = true ->
  row_course row = Some course ->
  courseCode course = "CS6701" ->
  let status := cs6701Status (before ++ row :: after) in
  Priority.isVisible status = true
  /\ Priority.isSelectable status = isSelectable course
  /\ Priority.checkboxState status = checkboxState course
  /\ Priority.onclick status
     = match Element.checkbox row with
       | Some _ => Some (onclick course)
       | None => None
       end.
Proof.
  intros Hb Hrow Hcode status. subst status.
  pose proof (mentions_of_code row course Hrow Hcode) as Hm.
  unfold cs6701Status. rewrite (find_after_misses _ _ _ _ Hb Hm).
  apply row_course_some in Hrow.
  destruct Hrow as (name & _ & _ & _ & _ & Hbox).
  destruct (Element.checkbox row) as [checkbox|];
    destruct Hbox as (H1 & H2 & H3); rewrite H1, H2, ?H3; cbn; auto.
Qed.

Lemma priority_status_agrees_with_listing_witness :
  let row :=
    {| Element.cells := [Some "1"; Some " CS6701 "; Some "COMPUTER NETWORKS"];
       Element.checkbox :=
         Some {| Element.disabled := false; Element.checked := false;
                 Element.onclick := Some "chkcontrol0(1)" |} |} in
  let status :=
    cs6701Status
      ([{| Element.cells := [Some "Sr."; Some "Code"; Some "Course"];
           Element.checkbox := None |}] ++ row :: []) in
  Priority.isVisible status = true
  /\ Priority.isSelectable status = true
  /\ Priority.checkboxState status = "unchecked"
  /\ Priority.onclick status = Some "chkcontrol0(1)".
Proof.
  cbv zeta.
  apply (priority_status_agrees_with_listing
           [{| Element.cells := [Some "Sr."; Some "Code"; Some "Course"];
               Element.checkbox := None |}]
           []
           {| Element.cells := [Some "1"; Some " CS6701 ";
                                Some "COMPUTER NETWORKS"];
              Element.checkbox :=
                Some {| Element.disabled := false; Element.checked := false;
                        Element.onclick := Some "chkcontrol0(1)" |} |}
           {| courseCode := "CS6701"; courseName := "COMPUTER NETWORKS";
              isSelectable := true; isVisible := true;
              checkboxState := "unchecked"; onclick := "chkcontrol0(1)" |});
    reflexivity.
Defined.

(** A row that holds the code and the name in one cell is seen by the
    priority check and is not listed by the scan. *)
Example one_cell_for_code_and_name :
  let courseRows :=
    [{| Element.cells := [Some "1"; Some "CS6701 COMPUTER NETWORKS";
                          Some "4 credits"];
        Element.checkbox :=
          Some {| Element.disabled := false; Element.checked := false;
                  Element.onclick := None |} |}] in
  Priority.isVisible (cs6701Status courseRows) = true
  /\ Priority.onclick (cs6701Status courseRows) = Some "none"
  /\ allCourses courseRows = [].
Proof. repeat split. Qed.

(** ** The CAPTCHA solver *)

(** A reading of a CAPTCHA settles, and sends one request. *)
Lemma recognizeCaptcha_settles (openai : OpenAI.Client)
  (imageBuffer : list byte) :
  fst (recognizeCaptchaWithLLM openai imageBuffer (fresh tt)) <> Pending
  /\ attempts (snd (recognizeCaptchaWithLLM openai imageBuffer (fresh tt))) = 1.
Proof.
  unfold recognizeCaptchaWithLLM.
  set (llm := {| modelName := "gpt-4o"; client := openai |}).
  set (args := {| options := captcha_options imageBuffer;
                  retries := None; logger := silent |}).
  destruct (call_run llm args tt) as (k & _ & Hd & Hi & _).
  cbv zeta in Hd, Hi.
  assert (k = 0) as ->.
  { destruct k as [|k]; [reflexivity|].
    destruct (Hi 0) as (r & _ & Hm); [lia|]. discriminate Hm. }
  pose proof (createChatCompletion_settles llm args (fresh tt)) as Hs.
  unfold bind.
  destruct (createChatCompletion llm args (fresh tt)) as [outcome w].
  cbn [fst snd] in *. unfold attempts.
  destruct outcome as [response|e|]; cbn [fst snd]; rewrite ?Hd.
  - split; [|reflexivity].
    destruct (data response) as [[]|[|]]; discriminate.
  - split; [discriminate|reflexivity].
  - congruence.
Qed.

(** With somebody at the keyboard who answers every question, the script
    is the one of above. *)
Lemma attended_solveCaptcha {Number : Type}
  (times : Number -> Number -> Number) (chalk : Chalk)
  (engine_message : Thrown -> string) (outside : Outside Number) :
  Unattended.solveCaptchaAutomatically times chalk engine_message outside
    (fun n => Some (keyboard outside n))
  = solveCaptchaAutomatically times chalk engine_message outside.
Proof. reflexivity. Qed.

(** X20.  Solving a CAPTCHA never throws, whatever is thrown in its [try]
    block.  The calls into the page and the model being taken to settle,
    it ends with the text read by the model when the image is found, the
    screenshot is taken and the reading is fulfilled; otherwise it asks
    at the keyboard, once, and it ends with the answer typed, trimmed, or
    stays pending when nobody answers.  A text read by the model is
    returned as it is, the empty one too, and then the keyboard is not
    asked.  The page is searched once, and the model receives a request
    only for a screenshot that was taken, one at most. *)
Theorem solveCaptcha_never_throws {Number : Type}
  (times : Number -> Number -> Number) (chalk : Chalk)
  (engine_message : Thrown -> string) (outside : Outside Number)
  (typed : nat -> option string) :
  let run :=
    Unattended.solveCaptchaAutomatically times chalk engine_message outside
      typed (blank Number) in
  let reading :=
    match find_captcha outside 0 with
    | Returns (Some captchaInfo) =>
        match take_screenshot outside 0 (clip_of times captchaInfo) with
        | Returns screenshotBuffer =>
            match fst (recognizeCaptchaWithLLM (openai outside)
                         screenshotBuffer (fresh tt)) with
            | Fulfilled captchaText => Some captchaText
            | _ => None
            end
        | Throws _ => None
        end
    | _ => None
    end in
  fst run
  = match reading with
    | Some text => Fulfilled text
    | None =>
        match typed 0 with
        | Some answer => Fulfilled (Text.trim answer)
        | None => Pending
        end
    end
  /\ count is_question (snd run)
     = match reading with Some _ => 0 | None => 1 end
  /\ count is_evaluate (snd run) = 1
  /\ count is_screenshot (snd run)
     = match find_captcha outside 0 with
       | Returns (Some _) => 1
       | _ => 0
       end
  /\ attempts (llm (snd run))
     = match find_captcha outside 0 with
       | Returns (Some captchaInfo) =>
           match take_screenshot outside 0 (clip_of times captchaInfo) with
           | Returns _ => 1
           | Throws _ => 0
           end
       | _ => 0
       end.
Proof.
  cbv zeta.
  unfold Unattended.solveCaptchaAutomatically, recognize_automatically,
    Unattended.fall_back, Unattended.promptForCaptcha, asked, stagehand_log,
    try_catch, app_bind, output, await, app_throw, app_ret, with_llm, blank,
    count.
  cbn [outputs llm app filter is_evaluate is_screenshot is_question
       List.length].
  destruct (find_captcha outside 0) as [[captchaInfo|]|e];
    cbn [outputs llm app filter is_evaluate is_screenshot is_question
         List.length fst snd];
    [|destruct (typed 0); repeat split; auto
     |destruct (typed 0); repeat split; auto].
  destruct (take_screenshot outside 0 (clip_of times captchaInfo))
    as [screenshotBuffer|e];
    cbn [outputs llm app filter is_evaluate is_screenshot is_question
         List.length fst snd];
    [|destruct (typed 0); repeat split; auto].
  destruct (recognizeCaptcha_settles (openai outside) screenshotBuffer)
    as [Hs Ha].
  destruct (recognizeCaptchaWithLLM (openai outside) screenshotBuffer
              (fresh tt)) as [outcome w].
  cbn [fst snd] in Hs, Ha.
  destruct outcome as [captchaText|e|]; [| |congruence];
    cbn [outputs llm app filter is_evaluate is_screenshot is_question
         List.length fst snd];
    [|destruct (typed 0)]; repeat split; auto.
Qed.

(** With nobody at the keyboard, a solver that cannot find the image
    stays at its question. *)
Example nobody_at_the_keyboard :
  let outside : Outside nat :=
    calm (constant (Some "7XK2")) (fun _ => Returns None)
      (fun _ => "") (fun _ _ => Throws (Error "offline"))
      (fun _ _ => Returns true) (fun _ => Returns []) in
  let run :=
    Unattended.solveCaptchaAutomatically Nat.mul plain (fun _ => "") outside
      (fun _ => None) (blank nat) in
  fst run = Pending
  /\ count is_question (snd run) = 1
  /\ map is_question (outputs (snd run))
     = [false; false; false; false; false; false; true].
Proof. vm_compute. repeat split. Qed.

(** A reading that comes back empty is no failure: the solver returns the
    empty text and does not ask the keyboard. *)
Example empty_reading_is_returned :
  let outside : Outside nat :=
    calm (constant None)
      (fun _ =>
         Returns (Some {| CaptchaInfo.x := 10; CaptchaInfo.y := 20;
                          CaptchaInfo.width := 120; CaptchaInfo.height := 40;
                          CaptchaInfo.devicePixelRatio := 2 |}))
      (fun _ => " 7XK2 ") (fun _ _ => Throws (Error "offline"))
      (fun _ _ => Returns true) (fun _ => Returns []) in
  let run :=
    solveCaptchaAutomatically Nat.mul plain (fun _ => "") outside (blank nat) in
  fst run = Fulfilled ""
  /\ count is_question (snd run) = 0
  /\ filter is_screenshot (outputs (snd run))
     = [Screenshot {| Clip.x := 20; Clip.y := 40;
                      Clip.width := 240; Clip.height := 80 |}].
Proof. repeat split. Qed.

(** Without an image on the page the provider is not asked: the typed
    answer is returned. *)
Example missing_image_falls_back :
  let outside : Outside nat :=
    calm (constant (Some "7XK2")) (fun _ => Returns None)
      (fun _ => " 7XK2 ") (fun _ _ => Throws (Error "offline"))
      (fun _ _ => Returns true) (fun _ => Returns []) in
  let run :=
    solveCaptchaAutomatically Nat.mul plain (fun _ => "") outside (blank nat) in
  fst run = Fulfilled "7XK2"
  /\ attempts (llm (snd run)) = 0
  /\ filter is_announce (outputs (snd run))
     = [Announce "Automatic CAPTCHA recognition failed: Could not find CAPTCHA image"
          "CAPTCHA Error";
        Announce "Falling back to manual CAPTCHA input" "Manual Fallback"].
Proof. repeat split. Qed.

(** ** The e-mail report *)

Lemma fetched_app {Number : Type} (a b : list (Output Number)) :
  fetched (a ++ b) = fetched a ++ fetched b.
Proof.
  induction a as [|o a IH]; simpl; [reflexivity|].
  destruct o; simpl; rewrite ?IH; reflexivity.
Qed.

Lemma fetched_length {Number : Type} (l : list (Output Number)) :
  List.length (filter is_fetch l) = List.length (fetched l).
Proof.
  induction l as [|o l IH]; simpl; [reflexivity|].
  destruct o; simpl; rewrite ?IH; reflexivity.
Qed.

Section EmailFacts.

Context {Number : Type}.
Variable chalk : Chalk.
Variable RESEND_API_KEY : string.
Variable error_string : Thrown -> string.
Variable clock : nat -> string * string.
Variable outside : Outside Number.
Variable emailBody : string.

(** The request of the turn that finds [n] requests sent. *)
Let request_at (n : nat) (email : string) : Fetch.Request :=
  email_request RESEND_API_KEY
    {| EmailReq.email := email;
       EmailReq.subject := subject_at clock n;
       EmailReq.body := emailBody |}.

(** The announcement of that turn. *)
Let announcement_at (n : nat) (email : string) : Output Number :=
  if answered (network outside n (request_at n email))
  then Announce ("📧 Email summary sent to " ++ email)%string
                "Email Notification"
  else Announce ("❌ Failed to send email summary to " ++ email)%string
                "Email Error".

(** One turn of the loop: it is fulfilled, it sends its one request, and
    it makes its one announcement. *)
Lemma send_summary_turn (email : string) (d : Session Number) :
  let run :=
    send_summary chalk RESEND_API_KEY error_string clock outside
      emailBody email d in
  let n := List.length (fetched (outputs d)) in
  fst run = Fulfilled tt
  /\ llm (snd run) = llm d
  /\ fetched (outputs (snd run))
     = fetched (outputs d) ++ [request_at n email]
  /\ filter is_announce (outputs (snd run))
     = filter is_announce (outputs d) ++ [announcement_at n email].
Proof.
  cbv zeta. subst request_at announcement_at. cbv beta.
  unfold send_summary, sendEmail, try_catch, app_bind, await, settled,
    stagehand_log, output, app_ret, count, answered.
  rewrite fetched_length.
  destruct (network outside _ _) as [res|e]; cbn [fst snd outputs llm].
  - destruct (Fetch.ok res).
    + destruct (Fetch.json res) as [data|e]; cbn [fst snd outputs llm];
        rewrite !fetched_app, !filter_app; cbn; rewrite ?app_nil_r;
        repeat split; rewrite <- ?app_assoc; reflexivity.
    + cbn [fst snd outputs llm].
      rewrite !fetched_app, !filter_app; cbn; rewrite ?app_nil_r.
      repeat split; rewrite <- ?app_assoc; reflexivity.
  - rewrite !fetched_app, !filter_app; cbn; rewrite ?app_nil_r.
    repeat split; rewrite <- ?app_assoc; reflexivity.
Qed.

Lemma send_summaries_run (addresses : list string) :
  forall d : Session Number,
    let run :=
      send_summaries chalk RESEND_API_KEY error_string clock outside
        emailBody addresses d in
    let n := List.length (fetched (outputs d)) in
    fst run = Fulfilled tt
    /\ llm (snd run) = llm d
    /\ fetched (outputs (snd run))
       = fetched (outputs d) ++ turns request_at n addresses
    /\ filter is_announce (outputs (snd run))
       = filter is_announce (outputs d) ++ turns announcement_at n addresses.
Proof.
  induction addresses as [|email rest IH]; intros d; cbv zeta.
  - cbn. rewrite !app_nil_r. auto.
  - cbn [send_summaries turns]. unfold app_bind.
    destruct (send_summary_turn email d) as (Ho & Hl & Hf & Ha).
    cbv zeta in Ho, Hl, Hf, Ha.
    destruct (send_summary chalk RESEND_API_KEY error_string clock outside
                emailBody email d) as [outcome d'].
    cbn [fst snd] in Ho, Hl, Hf, Ha. subst outcome.
    destruct (IH d') as (Ho' & Hl' & Hf' & Ha'). cbv zeta in Ho', Hl', Hf', Ha'.
    rewrite Hf, length_app in Hf', Ha'. cbn [List.length] in Hf', Ha'.
    replace (List.length (fetched (outputs d)) + 1)
      with (S (List.length (fetched (outputs d)))) in Hf', Ha' by lia.
    rewrite Ho', Hl', Hf', Ha', Hl, Ha, <- !app_assoc. auto.
Qed.

(** X21.  The report loop tries every address, whatever happens to the
    others, and never fails: it sends one request for each address, in
    order, each a POST to the Resend endpoint with that address as its
    only recipient and the report as its body; and it makes one
    announcement for each address, of a sent report when the request was
    answered (and, for an [ok] answer, its body could be read) and of a
    failure otherwise.  An answer that is not [ok] is thus announced as a
    sent report. *)
Theorem every_address_is_tried (addresses : list string) :
  let run :=
    send_summaries chalk RESEND_API_KEY error_string clock outside
      emailBody addresses (blank Number) in
  fst run = Fulfilled tt
  /\ fetched (outputs (snd run))
     = turns (fun n email =>
                {| Fetch.url := "https://api.resend.com/emails";
                   Fetch.method := "POST";
                   Fetch.headers :=
                     [("Content-Type", "application/json");
                      ("Authorization", ("Bearer " ++ RESEND_API_KEY)%string)];
                   Fetch.body :=
                     JObject
                       [("from",
                         JString "PEC Course Monitor <noreply@sarthakkapila.com>");
                        ("to", JArray [JString email]);
                        ("subject", JString (subject_at clock n));
                        ("html", JString emailBody)] |})
             0 addresses
  /\ filter is_announce (outputs (snd run))
     = turns (fun n email =>
                if answered
                     (network outside n
                        (email_request RESEND_API_KEY
                           {| EmailReq.email := email;
                              EmailReq.subject := subject_at clock n;
                              EmailReq.body := emailBody |}))
                then Announce ("📧 Email summary sent to " ++ email)%string
                              "Email Notification"
                else Announce ("❌ Failed to send email summary to " ++ email)%string
                              "Email Error")
             0 addresses
  /\ List.length (fetched (outputs (snd run))) = List.length addresses.
Proof.
  cbv zeta.
  destruct (send_summaries_run addresses (blank Number)) as (Ho & _ & Hf & Ha).
  cbv zeta in Ho, Hf, Ha. cbn [blank outputs fetched filter app List.length] in Hf, Ha.
  split; [exact Ho|]. split; [exact Hf|]. split; [exact Ha|].
  rewrite Hf. clear. generalize 0.
  induction addresses as [|email rest IH]; intros n; cbn; [reflexivity|].
  rewrite IH. reflexivity.
Qed.

End EmailFacts.

(** The two addresses of the script, the first request failing on the
    network and the second answered with an error status: both are
    tried, and the second is announced as sent. *)
Example report_to_both_addresses :
  let outside : Outside nat :=
    calm (constant None) (fun _ => Returns None) (fun _ => "")
      (fun n _ =>
         match n with
         | 0 => Throws (Error "fetch failed")
         | _ => Returns {| Fetch.ok := false; Fetch.json := Returns JNull |}
         end)
      (fun _ _ => Returns true) (fun _ => Returns []) in
  let run :=
    send_summaries plain "re_123" (fun _ => "Error: fetch failed")
      (fun _ => ("11/3/2026", "7:14:00 AM")) outside "<h2>Summary</h2>"
      emailAddresses (blank nat) in
  fst run = Fulfilled tt
  /\ filter is_announce (outputs (snd run))
     = [Announce "❌ Failed to send email summary to sarthakkapila1@gmail.com"
          "Email Error";
        Announce "📧 Email summary sent to ekomsaidha1@gmail.com"
          "Email Notification"]
  /\ List.length (fetched (outputs (snd run))) = 2.
Proof. repeat split. Qed.

(** ** One check of the monitor *)

(** Three properties of a part of the script, each kept by the ways of
    putting parts together: it settles; it only adds to the outputs; it
    adds no output of a given kind. *)
Section Frames.

Context {Number : Type}.

Lemma settling_ret {A} (a : A) : settling (app_ret (Number:=Number) a).
Proof. intros d. discriminate. Qed.

Lemma settling_throw {A} (e : Thrown) :
  settling (app_throw (Number:=Number) (A:=A) e).
Proof. intros d. discriminate. Qed.

Lemma settling_output (o : Output Number) : settling (output o).
Proof. intros d. discriminate. Qed.

Lemma settling_await {A} (o : Output Number)
  (answer : Session Number -> Outcome A) :
  settling (fun d => await o (answer d) d).
Proof. intros d. unfold await. destruct (answer d); discriminate. Qed.

Lemma settling_bind {A B} (m : App Number A) (f : A -> App Number B) :
  settling m -> (forall a, settling (f a)) -> settling (app_bind m f).
Proof.
  intros Hm Hf d. unfold app_bind. specialize (Hm d).
  destruct (m d) as [[a|e|] d']; cbn [fst] in *;
    [apply Hf|discriminate|congruence].
Qed.

Lemma settling_try {A} (m : App Number A) (h : Thrown -> App Number A) :
  settling m -> (forall e, settling (h e)) -> settling (try_catch m h).
Proof.
  intros Hm Hh d. unfold try_catch. specialize (Hm d).
  destruct (m d) as [[a|e|] d']; cbn [fst] in *;
    [discriminate|apply Hh|congruence].
Qed.

Lemma adding_ret {A} (a : A) : adding (app_ret (Number:=Number) a).
Proof. intros d. exists []. cbn. rewrite app_nil_r. reflexivity. Qed.

Lemma adding_throw {A} (e : Thrown) :
  adding (app_throw (Number:=Number) (A:=A) e).
Proof. intros d. exists []. cbn. rewrite app_nil_r. reflexivity. Qed.

Lemma adding_output (o : Output Number) : adding (output o).
Proof. intros d. exists [o]. reflexivity. Qed.

Lemma adding_await {A} (o : Output Number)
  (answer : Session Number -> Outcome A) :
  adding (fun d => await o (answer d) d).
Proof.
  intros d. exists [o]. unfold await. destruct (answer d); reflexivity.
Qed.

Lemma adding_with_llm {A} (m : M unit A) :
  adding (with_llm (Number:=Number) m).
Proof.
  intros d. exists []. unfold with_llm. destruct (m (llm d)).
  cbn. rewrite app_nil_r. reflexivity.
Qed.

Lemma adding_bind {A B} (m : App Number A) (f : A -> App Number B) :
  adding m -> (forall a, adding (f a)) -> adding (app_bind m f).
Proof.
  intros Hm Hf d. unfold app_bind. destruct (Hm d) as [new Hnew].
  destruct (m d) as [[a|e|] d']; cbn [snd] in *; eauto.
  destruct (Hf a d') as [new' Hnew']. exists (new ++ new').
  rewrite Hnew', Hnew, app_assoc. reflexivity.
Qed.

Lemma adding_try {A} (m : App Number A) (h : Thrown -> App Number A) :
  adding m -> (forall e, adding (h e)) -> adding (try_catch m h).
Proof.
  intros Hm Hh d. unfold try_catch. destruct (Hm d) as [new Hnew].
  destruct (m d) as [[a|e|] d']; cbn [snd] in *; eauto.
  destruct (Hh e d') as [new' Hnew']. exists (new ++ new').
  rewrite Hnew', Hnew, app_assoc. reflexivity.
Qed.

Lemma keeping_ret kind {A} (a : A) :
  keeping kind (app_ret (Number:=Number) a).
Proof. intros d. reflexivity. Qed.

Lemma keeping_throw kind {A} (e : Thrown) :
  keeping kind (app_throw (Number:=Number) (A:=A) e).
Proof. intros d. reflexivity. Qed.

Lemma keeping_output kind (o : Output Number) :
  kind o = false -> keeping kind (output o).
Proof.
  intros H d. cbn. rewrite filter_app. cbn. rewrite H, app_nil_r. reflexivity.
Qed.

Lemma keeping_await kind {A} (o : Output Number)
  (answer : Session Number -> Outcome A) :
  kind o = false -> keeping kind (fun d => await o (answer d) d).
Proof.
  intros H d. unfold await.
  destruct (answer d); cbn; rewrite filter_app; cbn;
    rewrite H, app_nil_r; reflexivity.
Qed.

Lemma keeping_with_llm kind {A} (m : M unit A) :
  keeping kind (with_llm (Number:=Number) m).
Proof. intros d. unfold with_llm. destruct (m (llm d)). reflexivity. Qed.

Lemma keeping_bind kind {A B} (m : App Number A) (f : A -> App Number B) :
  keeping kind m -> (forall a, keeping kind (f a)) ->
  keeping kind (app_bind m f).
Proof.
  intros Hm Hf d. unfold app_bind. specialize (Hm d).
  destruct (m d) as [[a|e|] d']; cbn [snd] in *; auto.
  rewrite Hf. exact Hm.
Qed.

Lemma keeping_try kind {A} (m : App Number A) (h : Thrown -> App Number A) :
  keeping kind m -> (forall e, keeping kind (h e)) ->
  keeping kind (try_catch m h).
Proof.
  intros Hm Hh d. unfold try_catch. specialize (Hm d).
  destruct (m d) as [[a|e|] d']; cbn [snd] in *; auto.
  rewrite Hh. exact Hm.
Qed.

End Frames.

(** Takes a part of the script to its pieces. *)
Ltac pieces :=
  repeat
    first
      [ apply settling_bind | apply settling_try | apply settling_ret
      | apply settling_throw | apply settling_output | apply settling_await
      | apply adding_bind | apply adding_try | apply adding_ret
      | apply adding_throw | apply adding_output | apply adding_await
      | apply adding_with_llm
      | apply keeping_bind | apply keeping_try | apply keeping_ret
      | apply keeping_throw | apply keeping_with_llm
      | apply keeping_output; reflexivity
      | apply keeping_await; reflexivity
      | match goal with
        | |- forall _, _ => intro
        | |- context [if ?b then _ else _] => destruct b
        | |- context [match ?x with Some _ => _ | None => _ end] => destruct x
        end ].

Section MoreFrames.

Context {Number : Type}.
Variable outside : Outside Number.

Lemma unfailing_ret {A} (a : A) : unfailing (app_ret (Number:=Number) a).
Proof. intros d. exists a. reflexivity. Qed.

Lemma unfailing_output (o : Output Number) : unfailing (output o).
Proof. intros d. exists tt. reflexivity. Qed.

Lemma unfailing_bind {A B} (m : App Number A) (f : A -> App Number B) :
  unfailing m -> (forall a, unfailing (f a)) -> unfailing (app_bind m f).
Proof.
  intros Hm Hf d. unfold app_bind. destruct (Hm d) as [a Ha].
  destruct (m d) as [p d']. cbn [fst] in Ha. subst p. apply Hf.
Qed.

Lemma unfailing_try {A} (m : App Number A) (h : Thrown -> App Number A) :
  settling m -> (forall e, unfailing (h e)) -> unfailing (try_catch m h).
Proof.
  intros Hm Hh d. unfold try_catch. specialize (Hm d).
  destruct (m d) as [[a|e|] d']; cbn [fst] in *;
    [exists a; reflexivity|apply Hh|congruence].
Qed.

Lemma unfailing_settling {A} (m : App Number A) : unfailing m -> settling m.
Proof. intros H d. destruct (H d) as [a Ha]. rewrite Ha. discriminate. Qed.

Lemma failing_throw {A} (e : Thrown) :
  failing (app_throw (Number:=Number) (A:=A) e).
Proof. intros d a. discriminate. Qed.

Lemma failing_bind_left {A B} (m : App Number A) (f : A -> App Number B) :
  failing m -> failing (app_bind m f).
Proof.
  intros Hm d b. unfold app_bind. specialize (Hm d).
  destruct (m d) as [[a|e|] d']; cbn [fst] in *;
    [exfalso; apply (Hm a); reflexivity|discriminate|discriminate].
Qed.

Lemma failing_bind_right {A B} (m : App Number A) (f : A -> App Number B) :
  (forall a, failing (f a)) -> failing (app_bind m f).
Proof.
  intros Hf d b. unfold app_bind.
  destruct (m d) as [[a|e|] d']; cbn [fst];
    [apply Hf|discriminate|discriminate].
Qed.

Lemma failing_bind_never (m : App Number bool) {B} (f : bool -> App Number B) :
  never true m -> failing (f false) -> failing (app_bind m f).
Proof.
  intros Hm Hf d b. unfold app_bind. specialize (Hm d).
  destruct (m d) as [[[|]|e|] d']; cbn [fst] in *;
    [congruence|apply Hf|discriminate|discriminate].
Qed.

Lemma never_bind {A B} (b : B) (m : App Number A) (f : A -> App Number B) :
  (forall a, never b (f a)) -> never b (app_bind m f).
Proof.
  intros Hf d. unfold app_bind.
  destruct (m d) as [[a|e|] d']; cbn [fst];
    [apply Hf|discriminate|discriminate].
Qed.

Lemma keeping_bind_failing kind {A B} (m : App Number A)
  (f : A -> App Number B) :
  keeping kind m -> failing m -> keeping kind (app_bind m f).
Proof.
  intros Hk Hm d. unfold app_bind. specialize (Hk d). specialize (Hm d).
  destruct (m d) as [[a|e|] d']; cbn [fst snd] in *;
    [exfalso; apply (Hm a); reflexivity|exact Hk|exact Hk].
Qed.

Lemma keeping_bind_never kind (m : App Number bool) {B}
  (f : bool -> App Number B) :
  keeping kind m -> never true m -> keeping kind (f false) ->
  keeping kind (app_bind m f).
Proof.
  intros Hk Hm Hf d. unfold app_bind. specialize (Hk d). specialize (Hm d).
  destruct (m d) as [[[|]|e|] d']; cbn [fst snd] in *;
    [congruence|rewrite Hf; exact Hk|exact Hk|exact Hk].
Qed.

Lemma ending_wait (ms : Z) :
  ending outside ms
    (fun d => await (WaitForTimeout ms)
                (waitForTimeout outside (count is_wait d) ms) d).
Proof.
  intros d. exists []. cbn [app filter List.length]. rewrite Nat.add_0_r.
  unfold await.
  destruct (waitForTimeout outside (count is_wait d) ms) as [[]|e];
    split; reflexivity.
Qed.

Lemma ending_bind (ms : Z) {A} (m : App Number A) (f : A -> App Number unit) :
  unfailing m -> adding m -> (forall a, ending outside ms (f a)) ->
  ending outside ms (app_bind m f).
Proof.
  intros Hu Ha Hf d. unfold app_bind.
  destruct (Hu d) as [a Hfa]. destruct (Ha d) as [new Hnew].
  destruct (m d) as [p d']. cbn [fst snd] in *. subst p.
  destruct (Hf a d') as (before & Ho & Hr).
  exists (new ++ before). split.
  - rewrite Ho, Hnew, <- !app_assoc. reflexivity.
  - rewrite Hr. unfold count. rewrite Hnew, !filter_app, !length_app.
    rewrite Nat.add_assoc. reflexivity.
Qed.

Lemma closing_ending (ms : Z) (m : App Number unit) :
  ending outside ms m -> closing ms m.
Proof.
  intros H d _. destruct (H d) as (before & Ho & _). eauto.
Qed.

Lemma closing_bind (ms : Z) {A} (m : App Number A) (f : A -> App Number unit) :
  adding m -> (forall a, closing ms (f a)) -> closing ms (app_bind m f).
Proof.
  intros Ha Hf d. unfold app_bind. destruct (Ha d) as [new Hnew].
  destruct (m d) as [[a|e|] d']; cbn [fst snd] in *; try discriminate.
  intros Hfa. destruct (Hf a d' Hfa) as (before & Ho).
  exists (new ++ before). rewrite Ho, Hnew, <- !app_assoc. reflexivity.
Qed.

End MoreFrames.

(** The reading of a CAPTCHA settles in any world of the client. *)
Lemma recognizeCaptcha_settles_anywhere (openai : OpenAI.Client)
  (imageBuffer : list byte) (w : World unit) :
  fst (recognizeCaptchaWithLLM openai imageBuffer w) <> Pending.
Proof.
  unfold recognizeCaptchaWithLLM, bind.
  match goal with
  | |- context [createChatCompletion ?l ?a w] =>
      pose proof (createChatCompletion_settles l a w) as Hs;
      destruct (createChatCompletion l a w) as [[response|e|] w']
  end; cbn [fst] in *; [|discriminate|congruence].
  destruct (data response) as [[]|[|]]; discriminate.
Qed.

Ltac script :=
  unfold page_table, page_extract, page_waitForTimeout, page_act, page_goto,
    note, announce, stagehand_log.

Section MonitorFacts.

Context {Number : Type}.
Variable times : Number -> Number -> Number.
Variable chalk : Chalk.
Variable engine_message : Thrown -> string.
Variable error_string : Thrown -> string.
Variable RESEND_API_KEY : string.
Variable USERNAME : string.
Variable PASSWORD : string.
Variable clock : nat -> string * string.
Variable timestamp : nat -> string.
Variable outside : Outside Number.

Lemma settling_with_llm {A} (m : M unit A) :
  (forall w, fst (m w) <> Pending) -> settling (with_llm (Number:=Number) m).
Proof.
  intros H d. unfold with_llm. specialize (H (llm d)).
  destruct (m (llm d)). exact H.
Qed.

Lemma send_summary_adding (emailBody email : string) :
  adding (send_summary chalk RESEND_API_KEY error_string clock outside
            emailBody email).
Proof.
  intros d.
  unfold send_summary, sendEmail, try_catch, app_bind, await, settled,
    stagehand_log, output, app_ret.
  destruct (network outside _ _) as [res|e]; cbn [fst snd outputs llm].
  - destruct (Fetch.ok res); [destruct (Fetch.json res) as [data|e]|];
      cbn [fst snd outputs llm]; rewrite <- ?app_assoc; eauto.
  - rewrite <- ?app_assoc; eauto.
Qed.

Lemma send_summaries_adding (emailBody : string) (addresses : list string) :
  adding (send_summaries chalk RESEND_API_KEY error_string clock outside
            emailBody addresses).
Proof.
  induction addresses as [|email rest IH]; cbn [send_summaries].
  - apply adding_ret.
  - apply adding_bind; [apply send_summary_adding|intros _; exact IH].
Qed.

Lemma send_summaries_unfailing (emailBody : string) (addresses : list string) :
  unfailing (send_summaries chalk RESEND_API_KEY error_string clock outside
               emailBody addresses).
Proof.
  intros d. exists tt.
  apply (send_summaries_run chalk RESEND_API_KEY error_string clock outside
           emailBody addresses d).
Qed.

Local Abbreviation log_in' :=
  (log_in times chalk engine_message USERNAME PASSWORD outside).
Local Abbreviation confirm_login' :=
  (confirm_login chalk outside).
Local Abbreviation check_priority' :=
  (check_priority (Number:=Number) chalk outside).
Local Abbreviation check_all' :=
  (check_all (Number:=Number) chalk outside).
Local Abbreviation report_and_leave' :=
  (report_and_leave chalk error_string RESEND_API_KEY clock timestamp outside).
Local Abbreviation check' :=
  (check times chalk engine_message error_string RESEND_API_KEY USERNAME
     PASSWORD clock timestamp outside).
Local Abbreviation retry_later' :=
  (retry_later engine_message outside).
Local Abbreviation check_once' :=
  (check_once times chalk engine_message error_string RESEND_API_KEY USERNAME
     PASSWORD clock timestamp outside).

Lemma log_in_settling : settling log_in'.
Proof.
  unfold log_in. script.
  pieces. apply settling_with_llm. apply recognizeCaptcha_settles_anywhere.
Qed.

Lemma log_in_adding : adding log_in'.
Proof.
  unfold log_in. script.
  pieces.
Qed.

Lemma log_in_keeping (kind : Output Number -> bool) :
  kind = is_fetch \/ kind = is_table_script -> keeping kind log_in'.
Proof.
  intros [-> | ->]; unfold log_in; script;
    pieces.
Qed.

Lemma confirm_login_settling isLoggedIn : settling (confirm_login' isLoggedIn).
Proof.
  unfold confirm_login, promptForCaptcha. script.
  destruct isLoggedIn; cbn [negb]; pieces.
Qed.

Lemma confirm_login_adding isLoggedIn : adding (confirm_login' isLoggedIn).
Proof.
  unfold confirm_login, promptForCaptcha. script.
  destruct isLoggedIn; cbn [negb]; pieces.
Qed.

Lemma confirm_login_keeping (kind : Output Number -> bool) isLoggedIn :
  kind = is_fetch \/ kind = is_table_script ->
  keeping kind (confirm_login' isLoggedIn).
Proof.
  intros [-> | ->]; 
    unfold confirm_login, promptForCaptcha; script;
    destruct isLoggedIn; cbn [negb]; pieces.
Qed.

Lemma check_priority_settling : settling check_priority'.
Proof. unfold check_priority. script. pieces. Qed.

Lemma check_priority_adding : adding check_priority'.
Proof. unfold check_priority. script. pieces. Qed.

Lemma check_all_settling : settling check_all'.
Proof. unfold check_all. script. pieces. Qed.

Lemma check_all_adding : adding check_all'.
Proof. unfold check_all. script. pieces. Qed.

Lemma report_and_leave_ending status courses :
  ending outside CHECK_INTERVAL_MS (report_and_leave' status courses).
Proof.
  unfold report_and_leave. script.
  apply ending_bind; [apply unfailing_output|apply adding_output|intros _].
  apply ending_bind;
    [intros d; apply send_summaries_unfailing
    |intros d; apply send_summaries_adding|intros _].
  apply ending_bind; [apply unfailing_output|apply adding_output|intros _].
  apply ending_bind; [| |intros _].
  - apply unfailing_try; [pieces|intros e; apply unfailing_output].
  - pieces.
  - apply ending_bind; [apply unfailing_output|apply adding_output|intros _].
    apply ending_wait.
Qed.

Lemma report_and_leave_settling status courses :
  settling (report_and_leave' status courses).
Proof.
  intros d. destruct (report_and_leave_ending status courses d) as (b & _ & H).
  rewrite H. destruct (waitForTimeout outside _ _); discriminate.
Qed.

Lemma report_and_leave_adding status courses :
  adding (report_and_leave' status courses).
Proof.
  intros d. destruct (report_and_leave_ending status courses d) as (b & H & _).
  eauto.
Qed.

Lemma check_settling : settling check'.
Proof.
  unfold check.
  apply settling_bind; [apply log_in_settling|intros b].
  apply settling_bind; [apply confirm_login_settling|intros _].
  apply settling_bind; [apply check_priority_settling|intros status].
  apply settling_bind; [apply check_all_settling|intros courses].
  apply report_and_leave_settling.
Qed.

Lemma check_adding : adding check'.
Proof.
  unfold check.
  apply adding_bind; [apply log_in_adding|intros b].
  apply adding_bind; [apply confirm_login_adding|intros _].
  apply adding_bind; [apply check_priority_adding|intros status].
  apply adding_bind; [apply check_all_adding|intros courses].
  apply report_and_leave_adding.
Qed.

Lemma check_closing : closing CHECK_INTERVAL_MS check'.
Proof.
  unfold check.
  apply closing_bind; [apply log_in_adding|intros b].
  apply closing_bind; [apply confirm_login_adding|intros _].
  apply closing_bind; [apply check_priority_adding|intros status].
  apply closing_bind; [apply check_all_adding|intros courses].
  apply (closing_ending outside). apply report_and_leave_ending.
Qed.

Lemma retry_later_ending error : ending outside 60000 (retry_later' error).
Proof.
  unfold retry_later. script.
  apply ending_bind; [apply unfailing_output|apply adding_output|intros _].
  apply ending_wait.
Qed.

(** One turn of the loop, from any session. *)
Lemma turn_run (d : Session Number) :
  exists before ms,
    outputs (snd (check_once' d)) = outputs d ++ before ++ [WaitForTimeout ms]
    /\ ((ms = CHECK_INTERVAL_MS
         /\ fst (check' d) = Fulfilled tt
         /\ fst (check_once' d) = Fulfilled tt)
        \/ (ms = 60000%Z
            /\ (exists error before',
                   fst (check' d) = Rejected error
                   /\ outputs (snd (check' d)) = outputs d ++ before'
                   /\ before
                      = before'
                        ++ [Announce
                              ("Error: " ++ error_message engine_message error
                               ++ newline ++ "Retrying in 1 minute...")%string
                              "Error"])
            /\ fst (check_once' d)
               = match waitForTimeout outside
                         (count is_wait d
                          + List.length (filter is_wait before)) 60000 with
                 | Returns _ => Fulfilled tt
                 | Throws e => Rejected e
                 end)).
Proof.
  unfold check_once, try_catch.
  pose proof (check_settling d) as Hs.
  destruct (check_adding d) as [new Hnew].
  pose proof (check_closing d) as Hc.
  destruct (check' d) as [[[]|error|] d']; cbn [fst snd] in *;
    [| |congruence].
  - destruct (Hc eq_refl) as [before Hb].
    exists before, CHECK_INTERVAL_MS. split; [exact Hb|left; auto].
  - unfold retry_later, app_bind. script. unfold output, await, count.
    cbn [outputs].
    eexists (new ++ [Announce _ "Error"]), 60000%Z. split; [|right; split].
    + rewrite Hnew.
      destruct (waitForTimeout outside _ _); cbn [snd outputs];
        rewrite <- !app_assoc; reflexivity.
    + reflexivity.
    + split; [exists error, new; auto|].
      rewrite Hnew, !filter_app, !length_app. cbn [filter is_wait List.length].
      rewrite Nat.add_assoc.
      destruct (waitForTimeout outside _ _) as [[]|e]; reflexivity.
Qed.

(** While the page never shows that we are logged in. *)
Lemma log_in_never_confirmed :
  (forall n instruction, extract outside n instruction <> Returns true) ->
  never true log_in'.
Proof.
  intros H. unfold log_in.
  repeat (apply never_bind; intro).
  intros d. unfold page_extract, await.
  destruct (extract outside _ _) as [[|]|e] eqn:He; cbn [fst];
    [exfalso; exact (H _ _ He)|discriminate|discriminate].
Qed.

Lemma manual_login_fails :
  (forall n instruction, extract outside n instruction <> Returns true) ->
  failing (confirm_login' false).
Proof.
  intros H. unfold confirm_login. cbn [negb].
  do 4 (apply failing_bind_right; intro).
  apply failing_bind_never.
  - intros d. unfold page_extract, await.
    destruct (extract outside _ _) as [[|]|e] eqn:He; cbn [fst];
      [exfalso; exact (H _ _ He)|discriminate|discriminate].
  - cbn [negb]. apply failing_bind_left. apply failing_bind_right. intro.
    apply failing_throw.
Qed.

Lemma check_stops_at_the_login (kind : Output Number -> bool) :
  (forall n instruction, extract outside n instruction <> Returns true) ->
  kind = is_fetch \/ kind = is_table_script ->
  failing check' /\ keeping kind check'.
Proof.
  intros H Hk. unfold check. split.
  - apply failing_bind_never; [apply log_in_never_confirmed, H|].
    apply failing_bind_left. apply manual_login_fails, H.
  - apply keeping_bind_never;
      [apply log_in_keeping, Hk|apply log_in_never_confirmed, H|].
    apply keeping_bind_failing;
      [apply confirm_login_keeping, Hk|apply manual_login_fails, H].
Qed.

Lemma retry_later_keeping (kind : Output Number -> bool) error :
  kind = is_fetch \/ kind = is_table_script ->
  keeping kind (retry_later' error).
Proof. intros [-> | ->]; unfold retry_later; script; pieces. Qed.


(** X24.  Once the two scans are done, the turn always reaches the wait
    of an hour: no failure of a request for the report, of the reading of
    its answer or of the logout stops it.  The wait is the last thing
    done, and the turn ends as that wait does. *)
Theorem the_long_wait_is_always_reached (status : Priority.Status)
  (courses : list Course) (d : Session Number) :
  let run :=
    report_and_leave chalk error_string RESEND_API_KEY clock timestamp outside
      status courses d in
  exists before,
    outputs (snd run) = outputs d ++ before ++ [WaitForTimeout 3600000]
    /\ fst run
       = match waitForTimeout outside
                 (count is_wait d + List.length (filter is_wait before))
                 3600000 with
         | Returns _ => Fulfilled tt
         | Throws e => Rejected e
         end.
Proof. cbv zeta. exact (report_and_leave_ending status courses d). Qed.


End MonitorFacts.



(** A turn in which the page never shows a login: the CAPTCHA image is
    not found, the text is typed by hand twice, and the turn ends with
    the error and the wait of a minute. *)
Example a_turn_without_a_login :
  let outside : Outside nat :=
    calm (constant (Some "7XK2")) (fun _ => Returns None)
      (fun _ => " 7XK2 ") (fun _ _ => Throws (Error "offline"))
      (fun _ _ => Returns false) (fun _ => Returns []) in
  let run :=
    check_once Nat.mul plain (fun _ => "") (fun _ => "") "key" "user" "pass"
      (fun _ => ("", "")) (fun _ => "") outside (blank nat) in
  fst run = Fulfilled tt
  /\ count is_question (snd run) = 2
  /\ filter is_announce (outputs (snd run))
     = [Announce "Starting course availability check" "PEC Course Monitor";
        Announce "Automatic CAPTCHA recognition failed: Could not find CAPTCHA image"
          "CAPTCHA Error";
        Announce "Falling back to manual CAPTCHA input" "Manual Fallback";
        Announce "Automatic CAPTCHA recognition failed. Please enter CAPTCHA manually."
          "Manual CAPTCHA Required";
        Announce "Login failed after manual CAPTCHA. Please check credentials or CAPTCHA."
          "Login Failed";
        Announce
          ("Error: Login failed after manual CAPTCHA. Please check credentials or CAPTCHA."
           ++ newline ++ "Retrying in 1 minute...")%string
          "Error"]
  /\ filter is_wait (outputs (snd run))
     = [WaitForTimeout 2000; WaitForTimeout 1000; WaitForTimeout 1000;
        WaitForTimeout 1000; WaitForTimeout 5000; WaitForTimeout 1000;
        WaitForTimeout 60000].
Proof. vm_compute. repeat split. Qed.

(** A turn with a login at the first look, one course on the page and a
    network that is down: both scans are run, both requests are tried,
    and the turn ends with the wait of an hour. *)
Example a_turn_with_a_login :
  let outside : Outside nat :=
    calm (constant (Some "7XK2")) (fun _ => Returns None)
      (fun _ => " 7XK2 ") (fun _ _ => Throws (Error "offline"))
      (fun _ _ => Returns true)
      (fun _ =>
         Returns
           [{| Element.cells := [Some "1"; Some " CS6701 ";
                                 Some "COMPUTER NETWORKS"];
               Element.checkbox :=
                 Some {| Element.disabled := false; Element.checked := false;
                         Element.onclick := Some "chkcontrol0(1)" |} |}]) in
  let run :=
    check_once Nat.mul plain (fun _ => "") (fun _ => "") "key" "user" "pass"
      (fun _ => ("", "")) (fun _ => "") outside (blank nat) in
  fst run = Fulfilled tt
  /\ filter is_table_script (outputs (snd run))
     = [EvaluateStatus; EvaluateCourses]
  /\ List.length (fetched (outputs (snd run))) = 2
  /\ filter is_wait (outputs (snd run))
     = [WaitForTimeout 2000; WaitForTimeout 1000; WaitForTimeout 1000;
        WaitForTimeout 1000; WaitForTimeout 5000; WaitForTimeout 3000;
        WaitForTimeout 5000; WaitForTimeout 2000; WaitForTimeout 3600000].
Proof. vm_compute. repeat split. Qed.

(** ** The turn that goes through *)

Lemma fetched_filter {Number : Type} (l : list (Output Number)) :
  fetched (filter is_fetch l) = fetched l.
Proof.
  induction l as [|o l IH]; simpl; [reflexivity|].
  destruct o; simpl; rewrite ?IH; reflexivity.
Qed.

Section Leads.

Context {Number : Type}.
Variable outside : Outside Number.

Lemma leads_bind {A B} (P : Session Number -> Prop) (m : App Number A)
  (Q : A -> Session Number -> Prop) (f : A -> App Number B)
  (R : B -> Session Number -> Prop) :
  leads P m Q -> (forall a, leads (Q a) (f a) R) -> leads P (app_bind m f) R.
Proof.
  intros Hm Hf d HP. unfold app_bind.
  destruct (Hm d HP) as (a & Ha & HQ).
  destruct (m d) as [p d']. cbn [fst snd] in *. subst p.
  exact (Hf a d' HQ).
Qed.

Lemma leads_weaken {A} (P : Session Number -> Prop) (m : App Number A)
  (Q Q' : A -> Session Number -> Prop) :
  leads P m Q -> (forall a d, Q a d -> Q' a d) -> leads P m Q'.
Proof.
  intros Hm HQ d HP. destruct (Hm d HP) as (a & Ha & Hq). eauto.
Qed.

Lemma leads_given {A} (known : Prop) (P : Session Number -> Prop)
  (m : App Number A) (Q : A -> Session Number -> Prop) :
  (known -> leads P m Q) -> leads (fun d => known /\ P d) m Q.
Proof. intros H d [Hk HP]. exact (H Hk d HP). Qed.

Lemma leads_keep {A} (e t : nat) (f : list Fetch.Request) (m : App Number A) :
  unfailing m -> keeping is_extract m -> keeping is_table_script m ->
  keeping is_fetch m ->
  leads (seen e t f) m (fun _ => seen e t f).
Proof.
  intros Hu He Ht Hf d (Hde & Hdt & Hdf). destruct (Hu d) as [a Ha].
  exists a. split; [exact Ha|]. unfold seen, count.
  rewrite He, Ht, <- fetched_filter, Hf, fetched_filter. auto.
Qed.

Lemma leads_extract (e t : nat) (f : list Fetch.Request)
  (instruction : string) (answer : bool) :
  extract outside e instruction = Returns answer ->
  leads (seen e t f) (page_extract outside instruction)
        (fun isLoggedIn d => isLoggedIn = answer /\ seen (S e) t f d).
Proof.
  intros H d (Hde & Hdt & Hdf). unfold page_extract, await.
  rewrite Hde, H. exists answer. cbn [fst snd]. unfold seen, count in *.
  cbn [outputs]. rewrite !filter_app, fetched_app, !length_app.
  cbn. rewrite Hde, Hdt, Hdf, app_nil_r. repeat split; lia.
Qed.

Lemma leads_table {A} (e t : nat) (f : list Fetch.Request)
  (which : Output Number) (script : list Element.Row -> A)
  (courseRows : list Element.Row) :
  which = EvaluateStatus \/ which = EvaluateCourses ->
  table outside t = Returns courseRows ->
  leads (seen e t f) (page_table outside which script)
        (fun a d => a = script courseRows /\ seen e (S t) f d).
Proof.
  intros Hw H d (Hde & Hdt & Hdf). unfold page_table, await.
  rewrite Hdt, H. exists (script courseRows). cbn [fst snd].
  unfold seen, count in *.
  cbn [outputs]. rewrite !filter_app, fetched_app, !length_app.
  destruct Hw as [-> | ->]; cbn; rewrite Hde, Hdt, Hdf, app_nil_r;
    repeat split; lia.
Qed.

Lemma unfailing_asked {A} (o : Output Number) (answer : Session Number -> A) :
  unfailing (fun d => await o (Returns (answer d)) d).
Proof. intros d. exists (answer d). reflexivity. Qed.

Lemma unfailing_goto (url : string) :
  obliging outside -> unfailing (page_goto outside url).
Proof.
  intros (H & _ & _) d. exists tt. unfold page_goto, await. rewrite H.
  reflexivity.
Qed.

Lemma unfailing_act (instruction : string) :
  obliging outside -> unfailing (page_act outside instruction).
Proof.
  intros (_ & H & _) d. exists tt. unfold page_act, await. rewrite H.
  reflexivity.
Qed.

Lemma unfailing_wait (ms : Z) :
  obliging outside -> unfailing (page_waitForTimeout outside ms).
Proof.
  intros (_ & _ & H) d. exists tt. unfold page_waitForTimeout, await.
  rewrite H. reflexivity.
Qed.

End Leads.

Ltac going H :=
  first [ apply unfailing_output | apply (unfailing_goto _ _ H)
        | apply (unfailing_act _ _ H) | apply (unfailing_wait _ _ H)
        | apply unfailing_ret ].

Section TurnThatGoesThrough.

Context {Number : Type}.
Variable times : Number -> Number -> Number.
Variable chalk : Chalk.
Variable engine_message : Thrown -> string.
Variable error_string : Thrown -> string.
Variable RESEND_API_KEY : string.
Variable USERNAME : string.
Variable PASSWORD : string.
Variable clock : nat -> string * string.
Variable timestamp : nat -> string.
Variable outside : Outside Number.

Lemma solveCaptcha_unfailing :
  unfailing (solveCaptchaAutomatically times chalk engine_message outside).
Proof.
  unfold solveCaptchaAutomatically.
  apply unfailing_bind; [apply unfailing_output|intros _].
  apply unfailing_try.
  - unfold recognize_automatically, stagehand_log. pieces.
    apply settling_with_llm. apply recognizeCaptcha_settles_anywhere.
  - intros e. unfold fall_back, promptForCaptcha.
    do 4 (apply unfailing_bind; [apply unfailing_output|intros _]).
    apply unfailing_asked.
Qed.

Lemma send_summary_keeping (kind : Output Number -> bool)
  (emailBody email : string) :
  kind = is_extract \/ kind = is_table_script ->
  keeping kind (send_summary chalk RESEND_API_KEY error_string clock outside
                  emailBody email).
Proof.
  intros Hk d.
  unfold send_summary, sendEmail, try_catch, app_bind, await, settled,
    stagehand_log, output, app_ret.
  destruct (network outside _ _) as [res|e]; cbn [fst snd outputs llm];
    [destruct (Fetch.ok res); [destruct (Fetch.json res) as [data|e]|]|];
    cbn [fst snd outputs llm]; rewrite !filter_app;
    destruct Hk as [-> | ->]; cbn; rewrite ?app_nil_r; reflexivity.
Qed.

Lemma send_summaries_keeping (kind : Output Number -> bool)
  (emailBody : string) (addresses : list string) :
  kind = is_extract \/ kind = is_table_script ->
  keeping kind (send_summaries chalk RESEND_API_KEY error_string clock outside
                  emailBody addresses).
Proof.
  intros Hk. induction addresses as [|email rest IH]; cbn [send_summaries].
  - apply keeping_ret.
  - apply keeping_bind; [apply send_summary_keeping, Hk|intros _; exact IH].
Qed.

Hypothesis page_obliges : obliging outside.

Lemma log_in_leads (e t : nat) (f : list Fetch.Request) :
  (forall instruction, extract outside e instruction = Returns true) ->
  leads (seen e t f)
    (log_in times chalk engine_message USERNAME PASSWORD outside)
    (fun isLoggedIn d => isLoggedIn = true /\ seen (S e) t f d).
Proof.
  intros H. unfold log_in.
  repeat (eapply leads_bind;
          [apply leads_keep;
           [first [going page_obliges|apply solveCaptcha_unfailing]
           |script; pieces..]
          |intro]).
  apply leads_extract, H.
Qed.

Ltac keeps :=
  eapply leads_bind;
  [apply leads_keep; [going page_obliges|script; pieces..]|intro].

Lemma check_priority_leads (e t : nat) (f : list Fetch.Request)
  (courseRows : list Element.Row) :
  table outside t = Returns courseRows ->
  leads (seen e t f) (check_priority chalk outside)
    (fun status d => status = cs6701Status courseRows /\ seen e (S t) f d).
Proof.
  intros H. unfold check_priority.
  do 7 keeps.
  eapply leads_bind; [apply (leads_table _ _ _ _ _ _ courseRows); auto|].
  intros status. apply leads_given. intros ->.
  do 2 keeps.
  intros d Hd. exists (cs6701Status courseRows). auto.
Qed.

Lemma check_all_leads (e t : nat) (f : list Fetch.Request)
  (courseRows : list Element.Row) :
  table outside t = Returns courseRows ->
  leads (seen e t f) (check_all chalk outside)
    (fun courses d => courses = allCourses courseRows /\ seen e (S t) f d).
Proof.
  intros H. unfold check_all.
  keeps.
  eapply leads_bind; [apply (leads_table _ _ _ _ _ _ courseRows); auto|].
  intros courses. apply leads_given. intros ->.
  do 2 keeps.
  intros d Hd. exists (allCourses courseRows). auto.
Qed.

Lemma report_and_leave_leads (e t : nat) (f : list Fetch.Request)
  (status : Priority.Status) (courses : list Course) :
  leads (seen e t f)
    (report_and_leave chalk error_string RESEND_API_KEY clock timestamp
       outside status courses)
    (fun _ d =>
       seen e t
         (f ++ turns
                 (fun n email =>
                    email_request RESEND_API_KEY
                      {| EmailReq.email := email;
                         EmailReq.subject := subject_at clock n;
                         EmailReq.body :=
                           emailBody_of (timestamp (List.length f)) status
                             courses |})
                 (List.length f) emailAddresses) d).
Proof.
  unfold report_and_leave.
  keeps.
  apply leads_bind
    with (Q := fun _ =>
                 seen e t
                   (f ++ turns
                           (fun n email =>
                              email_request RESEND_API_KEY
                                {| EmailReq.email := email;
                                   EmailReq.subject := subject_at clock n;
                                   EmailReq.body :=
                                     emailBody_of (timestamp (List.length f))
                                       status courses |})
                           (List.length f) emailAddresses)).
  - intros d (Hde & Hdt & Hdf).
    pose proof (send_summaries_run chalk RESEND_API_KEY error_string clock
                  outside
                  (emailBody_of (timestamp (count is_fetch d)) status courses)
                  emailAddresses d) as Hrun.
    cbv zeta in Hrun. destruct Hrun as (Hr & _ & Hf & _).
    exists tt. split; [exact Hr|]. unfold seen. cbv beta. rewrite Hf.
    unfold count in *.
    rewrite (send_summaries_keeping is_extract _ _ (or_introl eq_refl) d).
    rewrite (send_summaries_keeping is_table_script _ _ (or_intror eq_refl) d).
    rewrite fetched_length, Hdf. auto.
  - intro. keeps.
    eapply leads_bind.
    + apply leads_keep; [|script; pieces..].
      apply unfailing_try; [script; pieces|intro; apply unfailing_output].
    + intro. keeps.
      apply leads_keep; [going page_obliges|script; pieces..].
Qed.


End TurnThatGoesThrough.


(** ** A turn with nobody at the keyboard *)

Section Stalling.

Context {Number : Type}.
Variable typed : nat -> option string.

Lemma stalling_settling {A} (m : App Number A) :
  settling m -> stalling typed m.
Proof. intros H d Hp. exfalso. exact (H d Hp). Qed.

Lemma stalling_asked {A} (query : string) (f : string -> A) :
  stalling typed
    (fun d : Session Number =>
       asked (Question query) (option_map f (typed (count is_question d))) d).
Proof.
  intros d. unfold asked.
  destruct (typed (count is_question d)) as [answer|] eqn:Ht;
    cbn [option_map fst snd outputs]; [discriminate|].
  intros _. exists [], query. cbn [app filter List.length].
  rewrite Nat.add_0_r. auto.
Qed.

Lemma adding_asked {A} (o : Output Number)
  (answer : Session Number -> option A) :
  adding (fun d : Session Number => asked o (answer d) d).
Proof.
  intros d. exists [o]. unfold asked. destruct (answer d); reflexivity.
Qed.

Lemma stalling_bind {A B} (m : App Number A) (f : A -> App Number B) :
  adding m -> stalling typed m -> (forall a, stalling typed (f a)) ->
  stalling typed (app_bind m f).
Proof.
  intros Ha Hm Hf d. unfold app_bind.
  destruct (Ha d) as [new Hnew]. specialize (Hm d).
  destruct (m d) as [[a|e|] d']; cbn [fst snd] in *;
    [|discriminate|intros _; exact (Hm eq_refl)].
  intros Hp. destruct (Hf a d' Hp) as (before & query & Ho & Ht).
  exists (new ++ before), query. split.
  - rewrite Ho, Hnew, <- !app_assoc. reflexivity.
  - rewrite <- Ht. unfold count. rewrite Hnew, !filter_app, !length_app.
    rewrite Nat.add_assoc. reflexivity.
Qed.

Lemma stalling_try {A} (m : App Number A) (h : Thrown -> App Number A) :
  adding m -> stalling typed m -> (forall e, stalling typed (h e)) ->
  stalling typed (try_catch m h).
Proof.
  intros Ha Hm Hh d. unfold try_catch.
  destruct (Ha d) as [new Hnew]. specialize (Hm d).
  destruct (m d) as [[a|e|] d']; cbn [fst snd] in *;
    [discriminate| |exact Hm].
  intros Hp. destruct (Hh e d' Hp) as (before & query & Ho & Ht).
  exists (new ++ before), query. split.
  - rewrite Ho, Hnew, <- !app_assoc. reflexivity.
  - rewrite <- Ht. unfold count. rewrite Hnew, !filter_app, !length_app.
    rewrite Nat.add_assoc. reflexivity.
Qed.

End Stalling.

Ltac stalls :=
  repeat first
    [ apply stalling_asked | apply stalling_bind | apply stalling_try
    | apply adding_asked
    | apply settling_with_llm; apply recognizeCaptcha_settles_anywhere
    | match goal with
      | |- forall _, _ => intro
      | |- context [if ?b then _ else _] => destruct b
      | |- context [match ?x with Some _ => _ | None => _ end] => destruct x
      end
    | progress pieces
    | apply stalling_settling ].

Section UnattendedFacts.

Context {Number : Type}.
Variable times : Number -> Number -> Number.
Variable chalk : Chalk.
Variable engine_message : Thrown -> string.
Variable error_string : Thrown -> string.
Variable RESEND_API_KEY : string.
Variable USERNAME : string.
Variable PASSWORD : string.
Variable clock : nat -> string * string.
Variable timestamp : nat -> string.
Variable outside : Outside Number.
Variable typed : nat -> option string.

Local Abbreviation log_in' :=
  (Unattended.log_in times chalk engine_message USERNAME PASSWORD outside
     typed).
Local Abbreviation confirm_login' :=
  (Unattended.confirm_login chalk outside typed).
Local Abbreviation check' :=
  (Unattended.check times chalk engine_message error_string RESEND_API_KEY
     USERNAME PASSWORD clock timestamp outside typed).
Local Abbreviation check_once' :=
  (Unattended.check_once times chalk engine_message error_string
     RESEND_API_KEY USERNAME PASSWORD clock timestamp outside typed).

(** With somebody at the keyboard who answers every question, the turn
    is the one of above. *)
Lemma attended_check_once :
  Unattended.check_once times chalk engine_message error_string
    RESEND_API_KEY USERNAME PASSWORD clock timestamp outside
    (fun n => Some (keyboard outside n))
  = check_once times chalk engine_message error_string RESEND_API_KEY
      USERNAME PASSWORD clock timestamp outside.
Proof. reflexivity. Qed.

Lemma unattended_log_in_adding : adding log_in'.
Proof.
  unfold Unattended.log_in, Unattended.solveCaptchaAutomatically,
    Unattended.fall_back, Unattended.promptForCaptcha, recognize_automatically.
  script. stalls.
Qed.

Lemma unattended_log_in_stalling : stalling typed log_in'.
Proof.
  unfold Unattended.log_in, Unattended.solveCaptchaAutomatically,
    Unattended.fall_back, Unattended.promptForCaptcha, recognize_automatically.
  script. stalls.
Qed.

Lemma unattended_confirm_login_adding isLoggedIn :
  adding (confirm_login' isLoggedIn).
Proof.
  unfold Unattended.confirm_login, Unattended.promptForCaptcha. script.
  destruct isLoggedIn; cbn [negb]; stalls.
Qed.

Lemma unattended_confirm_login_stalling isLoggedIn :
  stalling typed (confirm_login' isLoggedIn).
Proof.
  unfold Unattended.confirm_login, Unattended.promptForCaptcha. script.
  destruct isLoggedIn; cbn [negb]; stalls.
Qed.

Lemma unattended_check_adding : adding check'.
Proof.
  unfold Unattended.check.
  apply adding_bind; [apply unattended_log_in_adding|intros b].
  apply adding_bind; [apply unattended_confirm_login_adding|intros _].
  apply adding_bind; [apply check_priority_adding|intros status].
  apply adding_bind; [apply check_all_adding|intros courses].
  apply report_and_leave_adding.
Qed.

Lemma unattended_check_stalling : stalling typed check'.
Proof.
  unfold Unattended.check.
  apply stalling_bind;
    [apply unattended_log_in_adding|apply unattended_log_in_stalling|intros b].
  apply stalling_bind;
    [apply unattended_confirm_login_adding
    |apply unattended_confirm_login_stalling|intros _].
  apply stalling_settling.
  apply settling_bind; [apply check_priority_settling|intros status].
  apply settling_bind; [apply check_all_settling|intros courses].
  apply report_and_leave_settling.
Qed.

Lemma unattended_check_closing : closing CHECK_INTERVAL_MS check'.
Proof.
  unfold Unattended.check.
  apply closing_bind; [apply unattended_log_in_adding|intros b].
  apply closing_bind; [apply unattended_confirm_login_adding|intros _].
  apply closing_bind; [apply check_priority_adding|intros status].
  apply closing_bind; [apply check_all_adding|intros courses].
  apply (closing_ending outside). apply report_and_leave_ending.
Qed.

(** X22.  How a turn of the monitor ends, the calls into the page, the
    model and the network being taken to settle.  It is left pending
    only by a CAPTCHA question that nobody answers, which is then the
    last thing it did.  Otherwise its last action is a wait: the wait of
    an hour when the check went through, and then the turn is fulfilled;
    the wait of a minute, right after the announcement of the error,
    when anything in the check threw, and then the turn ends as that
    wait does.  So a turn throws only what the wait of the [catch] block
    throws. *)
Theorem a_turn_waits_or_is_asking (d : Session Number) :
  let check :=
    Unattended.check times chalk engine_message error_string RESEND_API_KEY
      USERNAME PASSWORD clock timestamp outside typed in
  let run :=
    Unattended.check_once times chalk engine_message error_string
      RESEND_API_KEY USERNAME PASSWORD clock timestamp outside typed d in
  (fst run = Pending
   /\ exists before query,
        outputs (snd run) = outputs d ++ before ++ [Question query]
        /\ typed (count is_question d
                  + List.length (filter is_question before)) = None)
  \/ (exists before ms,
        outputs (snd run) = outputs d ++ before ++ [WaitForTimeout ms]
        /\ ((ms = 3600000%Z
             /\ fst (check d) = Fulfilled tt
             /\ fst run = Fulfilled tt)
            \/ (ms = 60000%Z
                /\ (exists error before',
                       fst (check d) = Rejected error
                       /\ outputs (snd (check d)) = outputs d ++ before'
                       /\ before
                          = before'
                            ++ [Announce
                                  ("Error: "
                                   ++ error_message engine_message error
                                   ++ newline
                                   ++ "Retrying in 1 minute...")%string
                                  "Error"])
                /\ fst run
                   = match waitForTimeout outside
                             (count is_wait d
                              + List.length (filter is_wait before))
                             60000 with
                     | Returns _ => Fulfilled tt
                     | Throws e => Rejected e
                     end))).
Proof.
  cbv zeta. unfold Unattended.check_once, try_catch.
  pose proof (unattended_check_stalling d) as Hs.
  destruct (unattended_check_adding d) as [new Hnew].
  pose proof (unattended_check_closing d) as Hc.
  destruct (check' d) as [[[]|error|] d']; cbn [fst snd] in *.
  - right. destruct (Hc eq_refl) as [before Hb].
    exists before, CHECK_INTERVAL_MS. split; [exact Hb|left; auto].
  - right. unfold retry_later, app_bind. script. unfold output, await, count.
    cbn [outputs].
    eexists (new ++ [Announce _ "Error"]), 60000%Z. split; [|right; split].
    + rewrite Hnew.
      destruct (waitForTimeout outside _ _); cbn [snd outputs];
        rewrite <- !app_assoc; reflexivity.
    + reflexivity.
    + split; [exists error, new; auto|].
      rewrite Hnew, !filter_app, !length_app. cbn [filter is_wait List.length].
      rewrite Nat.add_assoc.
      destruct (waitForTimeout outside _ _) as [[]|e]; reflexivity.
  - left. split; [reflexivity|]. exact (Hs eq_refl).
Qed.

End UnattendedFacts.

(** A turn in which the page never shows a login and the second CAPTCHA
    question is left without an answer: the turn stays at that question,
    and neither waits nor retries. *)
Example a_turn_left_at_its_question :
  let outside : Outside nat :=
    calm (constant (Some "7XK2")) (fun _ => Returns None)
      (fun _ => "") (fun _ _ => Throws (Error "offline"))
      (fun _ _ => Returns false) (fun _ => Returns []) in
  let typed := fun n => match n with 0 => Some " 7XK2 " | _ => None end in
  let run :=
    Unattended.check_once Nat.mul plain (fun _ => "") (fun _ => "") "key"
      "user" "pass" (fun _ => ("", "")) (fun _ => "") outside typed
      (blank nat) in
  fst run = Pending
  /\ count is_question (snd run) = 2
  /\ last (map is_question (outputs (snd run))) false = true
  /\ filter is_wait (outputs (snd run))
     = [WaitForTimeout 2000; WaitForTimeout 1000; WaitForTimeout 1000;
        WaitForTimeout 1000; WaitForTimeout 5000].
Proof. vm_compute. repeat split. Qed.
